(** * Keypad calculator firmware (Project_3): LED-array and 7-segment variants

    A shallow embedding of [Projects/Project_3/Part_1/calculatorLED.c] and
    [Projects/Project_3/Part_2/calculatorSevenSeg.c].

    - C [int] is the 16-bit signed integer of the XC8 compiler for PIC18,
      modelled as [Z] with the wrap-around written out ([wrap16]);
      [unsigned char] is [Z] reduced modulo 256 ([uchar]).
    - The global variables of each program are the fields of a record
      [State]; every routine passes the state explicitly.
    - The output latches are observed through a log of events ([io]), in the
      order in which the program performs them: the writes to LATA and LATD
      and the busy waits of the calculator routines.  What [scanKeypad]
      does on the keypad lines themselves (the column strobes on LATB, its
      settle and debounce delays, its wait for the release of a key) is not
      logged.
    - The keypad is the input: a routine receives the list of the values
      returned by the successive calls of [scanKeypad]; a polling loop that
      finds the list exhausted stops at its [waitpoint]. *)

From Stdlib Require Import ZArith List Bool Lia.
Import ListNotations.
Local Open Scope Z_scope.

(** ** Machine integers *)

Definition wrap16 (z : Z) : Z := (z + 32768) mod 65536 - 32768.

Definition int_add (a b : Z) : Z := wrap16 (a + b).
Definition int_sub (a b : Z) : Z := wrap16 (a - b).
Definition int_mul (a b : Z) : Z := wrap16 (a * b).
Definition int_div (a b : Z) : Z := wrap16 (Z.quot a b).
Definition int_rem (a b : Z) : Z := wrap16 (Z.rem a b).
Definition int_neg (a : Z) : Z := wrap16 (- a).

(** The cast [(unsigned char) x]. *)
Definition uchar (z : Z) : Z := z mod 256.

(** [#define MAX_INPUT 0x63] *)
Definition MAX_INPUT : Z := 0x63.

(** ** Output log and polling outcomes *)

Inductive event : Type :=
| LATA (v : Z)        (* a write to the digit-select latch *)
| LATD (v : Z)        (* a write to the LED / segment latch *)
| delay_ms (ms : Z).  (* a busy wait *)

Definition io : Type := list event.

(** The places where the programs poll the keypad. *)
Inductive waitpoint : Type :=
| WNum1First | WNum1Second
| WOperator
| WNum2First | WNum2Second
| WConfirm
| WResult | WNegBlink | WDivError.

(** The session states of the specification, as sets of polling places. *)
Inductive SessionState : Type :=
| AwaitingOperand1 | AwaitingOperator | AwaitingOperand2
| AwaitingConfirm | ShowingResult.

Definition session_of (w : waitpoint) : SessionState :=
  match w with
  | WNum1First | WNum1Second => AwaitingOperand1
  | WOperator => AwaitingOperator
  | WNum2First | WNum2Second => AwaitingOperand2
  | WConfirm => AwaitingConfirm
  | WResult | WNegBlink | WDivError => ShowingResult
  end.

(** A routine either returns a value, a state and the keys it has not
    read, or is still polling at a [waitpoint] when the keys run out. *)
Inductive outcome (S A : Type) : Type :=
| Ret (a : A) (s : S) (ks : list Z)
| Wait (w : waitpoint) (s : S).

Arguments Ret {S A} a s ks.
Arguments Wait {S A} w s.

(** The state in which a routine returned or is polling, the place where
    it polls, and the keys it left unread. *)
Definition outcome_state {S A : Type} (o : outcome S A) : S :=
  match o with
  | Ret _ s _ => s
  | Wait _ s => s
  end.

Definition waiting_at {S A : Type} (o : outcome S A) : option waitpoint :=
  match o with
  | Ret _ _ _ => None
  | Wait w _ => Some w
  end.

Definition unread {S A : Type} (o : outcome S A) : list Z :=
  match o with
  | Ret _ _ ks => ks
  | Wait _ _ => []
  end.

(** ** The keypad scanner (identical in both programs)

    [keyTable] is the [switch] nest of [scanKeypad]; [scanKeypad portb] scans
    the columns in order, [portb col] being the value read from PORTB while
    column [col] is driven high, and reports the first row found asserted. *)
Module Keypad.

Definition keyTable (row col : Z) : Z :=
  match row, col with
  | 0, 0 => 1   | 0, 1 => 2 | 0, 2 => 3   | 0, 3 => 0xA
  | 1, 0 => 4   | 1, 1 => 5 | 1, 2 => 6   | 1, 3 => 0xB
  | 2, 0 => 7   | 2, 1 => 8 | 2, 2 => 9   | 2, 3 => 0xC
  | 3, 0 => 0xE | 3, 1 => 0 | 3, 2 => 0xF | 3, 3 => 0xD
  | _, _ => 0xFF
  end.

Fixpoint scanRows (pb col : Z) (rows : list Z) : option Z :=
  match rows with
  | [] => None
  | row :: rows =>
      if Z.testbit pb (row + 4) then Some (keyTable row col)
      else scanRows pb col rows
  end.

Fixpoint scanCols (portb : Z -> Z) (cols : list Z) : Z :=
  match cols with
  | [] => 0xFF
  | col :: cols =>
      match scanRows (portb col) col [0; 1; 2; 3] with
      | Some key => key
      | None => scanCols portb cols
      end
  end.

Definition scanKeypad (portb : Z -> Z) : Z := scanCols portb [0; 1; 2; 3].

End Keypad.

(** ** Vocabulary of the invariants *)

(** A property of the outcome of a routine: [PR] of the value and state it
    returns, [PW] of the state in which it polls. *)
Definition holds {S A : Type} (PR : A -> S -> Prop) (PW : S -> Prop)
  (o : outcome S A) : Prop :=
  match o with
  | Ret a s _ => PR a s
  | Wait _ s => PW s
  end.

(** The operator register holds nothing or one of the four operator codes. *)
Definition opcode_ok (op : Z) : Prop := op = 0 \/ 0xA <= op <= 0xD.

(** A value returned by an operand routine: an operand, or 0xFF. *)
Definition operand_or_reset (v : Z) : Prop := v = 0xFF \/ 0 <= v <= 99.

(** [holds] with the polling place named. *)
Definition holds_at {S A : Type} (PR : A -> S -> Prop)
  (PW : waitpoint -> S -> Prop) (o : outcome S A) : Prop :=
  match o with
  | Ret a s _ => PR a s
  | Wait w s => PW w s
  end.
(** * Part 1: the binary LED-array calculator *)
Module LED.

Record State : Type := mkState {
  num11 : Z; num12 : Z;
  num21 : Z; num22 : Z;
  num1 : Z;
  num2 : Z;
  operator : Z;
  keyVal : Z;
  result : Z;
  waitingForHashKey : bool;
  validInput : bool;
  trace : io
}.

Definition set_num11 (v : Z) (s : State) : State :=
  mkState v (num12 s) (num21 s) (num22 s) (num1 s) (num2 s) (operator s)
    (keyVal s) (result s) (waitingForHashKey s) (validInput s) (trace s).
Definition set_num12 (v : Z) (s : State) : State :=
  mkState (num11 s) v (num21 s) (num22 s) (num1 s) (num2 s) (operator s)
    (keyVal s) (result s) (waitingForHashKey s) (validInput s) (trace s).
Definition set_num21 (v : Z) (s : State) : State :=
  mkState (num11 s) (num12 s) v (num22 s) (num1 s) (num2 s) (operator s)
    (keyVal s) (result s) (waitingForHashKey s) (validInput s) (trace s).
Definition set_num22 (v : Z) (s : State) : State :=
  mkState (num11 s) (num12 s) (num21 s) v (num1 s) (num2 s) (operator s)
    (keyVal s) (result s) (waitingForHashKey s) (validInput s) (trace s).
Definition set_num1 (v : Z) (s : State) : State :=
  mkState (num11 s) (num12 s) (num21 s) (num22 s) v (num2 s) (operator s)
    (keyVal s) (result s) (waitingForHashKey s) (validInput s) (trace s).
Definition set_num2 (v : Z) (s : State) : State :=
  mkState (num11 s) (num12 s) (num21 s) (num22 s) (num1 s) v (operator s)
    (keyVal s) (result s) (waitingForHashKey s) (validInput s) (trace s).
Definition set_operator (v : Z) (s : State) : State :=
  mkState (num11 s) (num12 s) (num21 s) (num22 s) (num1 s) (num2 s) v
    (keyVal s) (result s) (waitingForHashKey s) (validInput s) (trace s).
Definition set_keyVal (v : Z) (s : State) : State :=
  mkState (num11 s) (num12 s) (num21 s) (num22 s) (num1 s) (num2 s) (operator s)
    v (result s) (waitingForHashKey s) (validInput s) (trace s).
Definition set_result (v : Z) (s : State) : State :=
  mkState (num11 s) (num12 s) (num21 s) (num22 s) (num1 s) (num2 s) (operator s)
    (keyVal s) v (waitingForHashKey s) (validInput s) (trace s).
Definition set_waitingForHashKey (v : bool) (s : State) : State :=
  mkState (num11 s) (num12 s) (num21 s) (num22 s) (num1 s) (num2 s) (operator s)
    (keyVal s) (result s) v (validInput s) (trace s).
Definition set_validInput (v : bool) (s : State) : State :=
  mkState (num11 s) (num12 s) (num21 s) (num22 s) (num1 s) (num2 s) (operator s)
    (keyVal s) (result s) (waitingForHashKey s) v (trace s).
Definition set_trace (v : io) (s : State) : State :=
  mkState (num11 s) (num12 s) (num21 s) (num22 s) (num1 s) (num2 s) (operator s)
    (keyVal s) (result s) (waitingForHashKey s) (validInput s) v.

(** Appending output events, and running a routine that only drives the
    latches. *)
Definition out (es : list event) (s : State) : State :=
  set_trace (trace s ++ es) s.
Definition on_io (f : io -> io) (s : State) : State :=
  set_trace (f (trace s)) s.

(** [blinkLED]: the parameter [delay] is not used by the source, which
    waits 500 ms in both halves whatever it is. *)
Definition blinkLED (pattern count delay : Z) (t : io) : io :=
  Nat.iter (Z.to_nat count)
    (fun t => t ++ [LATD pattern; delay_ms 500; LATD 0x00; delay_ms 500]) t.

Definition resetCalculator (s : State) : State :=
  let s := set_num1 0 s in
  let s := set_num2 0 s in
  let s := set_operator 0 s in
  let s := set_waitingForHashKey false s in
  let s := set_validInput false s in
  out [LATD 0x00] s.

(** The inner loop of [getNum1]: a first digit has been stored in [num11]. *)
Fixpoint getNum1_second (s : State) (ks : list Z) : outcome State Z :=
  match ks with
  | [] => Wait WNum1Second s
  | k :: ks =>
      let s := set_keyVal (uchar k) s in
      if keyVal s =? 0xFF then getNum1_second s ks
      else if keyVal s <=? 9 then
        let s := set_num12 (keyVal s) s in
        let s := set_num1 (int_add (int_mul (num11 s) 10) (num12 s)) s in
        let s := if num1 s >? MAX_INPUT then set_num1 MAX_INPUT s else s in
        let s := out [LATD 0x01] s in
        Ret (num1 s) s ks
      else if (keyVal s >=? 0xA) && (keyVal s <=? 0xD) then
        let s := set_num1 (num11 s) s in
        let s := set_operator (keyVal s) s in
        Ret (num1 s) s ks
      else if keyVal s =? 0xF then
        let s := set_num1 (num11 s) s in
        Ret (num1 s) s ks
      else if keyVal s =? 0xE then
        let s := resetCalculator s in
        let s := on_io (blinkLED 0x01 5 200) s in
        Ret 0xFF s ks
      else getNum1_second (out [delay_ms 50] s) ks
  end.

(** The outer loop of [getNum1]. *)
Fixpoint getNum1_first (s : State) (ks : list Z) : outcome State Z :=
  match ks with
  | [] => Wait WNum1First s
  | k :: ks =>
      let s := set_keyVal (uchar k) s in
      if keyVal s =? 0xFF then getNum1_first s ks
      else if keyVal s =? 0xE then
        let s := resetCalculator s in
        let s := on_io (blinkLED 0x01 5 200) s in
        Ret 0xFF s ks
      else if keyVal s <=? 9 then
        let s := set_num11 (keyVal s) s in
        let s := set_validInput true s in
        let s := out [LATD 0x01; delay_ms 500] s in
        getNum1_second s ks
      else getNum1_first (out [delay_ms 50] s) ks
  end.

Definition getNum1 (s : State) (ks : list Z) : outcome State Z :=
  let s := set_num11 0 s in
  let s := set_num12 0 s in
  let s := set_validInput false s in
  let s := out [LATD 0x00] s in
  getNum1_first s ks.

Fixpoint getOperator_loop (s : State) (ks : list Z) : outcome State Z :=
  match ks with
  | [] => Wait WOperator s
  | k :: ks =>
      let s := set_keyVal (uchar k) s in
      if keyVal s =? 0xFF then getOperator_loop s ks
      else if (keyVal s >=? 0xA) && (keyVal s <=? 0xD) then
        let s := out [LATD 0x04; delay_ms 500] s in
        Ret (keyVal s) s ks
      else if keyVal s =? 0xE then
        let s := resetCalculator s in
        let s := on_io (blinkLED 0x01 5 200) s in
        Ret 0 s ks
      else getOperator_loop (out [delay_ms 50] s) ks
  end.

Definition getOperator (s : State) (ks : list Z) : outcome State Z :=
  if (operator s >=? 0xA) && (operator s <=? 0xD) then
    let temp := operator s in
    let s := set_operator 0 s in
    Ret temp s ks
  else
    let s := out [LATD 0x04] s in
    getOperator_loop s ks.

(** The inner loop of [getNum2]: a first digit has been stored in [num21]. *)
Fixpoint getNum2_second (s : State) (ks : list Z) : outcome State Z :=
  match ks with
  | [] => Wait WNum2Second s
  | k :: ks =>
      let s := set_keyVal (uchar k) s in
      if keyVal s =? 0xFF then getNum2_second s ks
      else if keyVal s <=? 9 then
        let s := set_num22 (keyVal s) s in
        let s := set_num2 (int_add (int_mul (num21 s) 10) (num22 s)) s in
        let s := if num2 s >? MAX_INPUT then set_num2 MAX_INPUT s else s in
        let s := out [LATD 0x02] s in
        let s := set_waitingForHashKey true s in
        Ret (num2 s) s ks
      else if keyVal s =? 0xF then
        let s := set_num2 (num21 s) s in
        let s := set_waitingForHashKey true s in
        Ret (num2 s) s ks
      else if keyVal s =? 0xE then
        let s := resetCalculator s in
        let s := on_io (blinkLED 0x01 5 200) s in
        Ret 0xFF s ks
      else getNum2_second (out [delay_ms 50] s) ks
  end.

Fixpoint getNum2_first (s : State) (ks : list Z) : outcome State Z :=
  match ks with
  | [] => Wait WNum2First s
  | k :: ks =>
      let s := set_keyVal (uchar k) s in
      if keyVal s =? 0xFF then getNum2_first s ks
      else if keyVal s =? 0xE then
        let s := resetCalculator s in
        let s := on_io (blinkLED 0x01 5 200) s in
        Ret 0xFF s ks
      else if keyVal s <=? 9 then
        let s := set_num21 (keyVal s) s in
        let s := set_validInput true s in
        let s := out [LATD 0x02; delay_ms 500] s in
        getNum2_second s ks
      else getNum2_first (out [delay_ms 50] s) ks
  end.

Definition getNum2 (s : State) (ks : list Z) : outcome State Z :=
  let s := set_num21 0 s in
  let s := set_num22 0 s in
  let s := set_validInput false s in
  let s := out [LATD 0x02] s in
  getNum2_first s ks.

(** [doOperation]: the parameters shadow the globals; only the
    division-by-zero branch touches the machine (it blinks the LEDs). *)
Definition doOperation (n1 n2 op : Z) (s : State) : Z * State :=
  if op =? 0xA then (int_add n1 n2, s)
  else if op =? 0xB then (int_sub n1 n2, s)
  else if op =? 0xC then
    let r := int_mul n1 n2 in
    ((if r >? MAX_INPUT then MAX_INPUT else r), s)
  else if op =? 0xD then
    if negb (n2 =? 0) then (int_div n1 n2, s)
    else (-1, on_io (blinkLED 0xFF 5 200) s)
  else (0, s).

Definition displayBinary (number : Z) (t : io) : io :=
  let number :=
    if number >? 0xFF then 0xFF
    else if number <? 0 then
      let number := int_neg number in
      if number >? 0x7F then 0x7F else number
    else number in
  t ++ [LATD (uchar number)].

(** The [while(1)] of [displayBinaryWithBlink] for a negative number. *)
Fixpoint blink_loop (number blink_counter : Z) (blink_state : bool)
  (s : State) (ks : list Z) {struct ks} : outcome State unit :=
  let blink_counter := (blink_counter + 1) mod 65536 in
  let blink_state' :=
    if blink_counter >=? 5 then negb blink_state else blink_state in
  let blink_counter' := if blink_counter >=? 5 then 0 else blink_counter in
  let s :=
    if blink_state' then out [LATD (Z.lor (uchar number) 0x80)] s
    else out [LATD (Z.land (uchar number) 0x7F)] s in
  match ks with
  | [] => Wait WNegBlink s
  | k :: ks =>
      let s := set_keyVal (uchar k) s in
      if keyVal s =? 0xE then Ret tt (resetCalculator s) ks
      else blink_loop number blink_counter' blink_state'
             (out [delay_ms 25] s) ks
  end.

Definition displayBinaryWithBlink (number : Z) (s : State) (ks : list Z)
  : outcome State unit :=
  if number <? 0 then
    let number := int_neg number in
    let number := if number >? 0x7F then 0x7F else number in
    blink_loop number 0 false s ks
  else
    let number := if number >? 0xFF then 0xFF else number in
    Ret tt (on_io (displayBinary number) s) ks.

(** [while(1) { keyVal = scanKeypad(); if (keyVal == 0xE) { resetCalculator();
    return; } }], which [displayResult] contains twice. *)
Fixpoint wait_reset (w : waitpoint) (s : State) (ks : list Z)
  : outcome State unit :=
  match ks with
  | [] => Wait w s
  | k :: ks =>
      let s := set_keyVal (uchar k) s in
      if keyVal s =? 0xE then Ret tt (resetCalculator s) ks
      else wait_reset w s ks
  end.

Fixpoint displayResult_loop (s : State) (ks : list Z) : outcome State unit :=
  match ks with
  | [] => Wait WConfirm s
  | k :: ks =>
      let s := set_keyVal (uchar k) s in
      if keyVal s =? 0xFF then displayResult_loop s ks
      else if keyVal s =? 0xF then
        let (r, s) := doOperation (num1 s) (num2 s) (operator s) s in
        let s := set_result r s in
        let s := out [LATD 0x00] s in
        if (result s =? -1) && (num2 s =? 0) then wait_reset WDivError s ks
        else
          match displayBinaryWithBlink (result s) s ks with
          | Wait w s => Wait w s
          | Ret _ s ks =>
              if result s >=? 0 then wait_reset WResult s ks
              else Ret tt s ks
          end
      else if keyVal s =? 0xE then
        let s := resetCalculator s in
        let s := on_io (blinkLED 0x01 5 200) s in
        Ret tt s ks
      else displayResult_loop (out [delay_ms 50] s) ks
  end.

Definition displayResult (s : State) (ks : list Z) : outcome State unit :=
  let s :=
    if negb (waitingForHashKey s) then on_io (blinkLED 0x08 3 200) s
    else s in
  displayResult_loop s ks.

(** One pass through the body of the [while (1)] of [main]; [Ret] covers
    both the end of the body and its [continue] statements. *)
Definition cycle (s : State) (ks : list Z) : outcome State unit :=
  let s := resetCalculator s in
  match getNum1 s ks with
  | Wait w s => Wait w s
  | Ret v s ks =>
      let s := set_num1 v s in
      let s := out [LATD 0x01] s in
      if num1 s =? 0xFF then Ret tt s ks else
      match getOperator s ks with
      | Wait w s => Wait w s
      | Ret v s ks =>
          let s := set_operator v s in
          let s := out [LATD 0x04] s in
          if operator s =? 0 then Ret tt s ks else
          match getNum2 s ks with
          | Wait w s => Wait w s
          | Ret v s ks =>
              let s := set_num2 v s in
              let s := out [LATD 0x02] s in
              if num2 s =? 0xFF then Ret tt s ks else
              match displayResult s ks with
              | Wait w s => Wait w s
              | Ret _ s ks => Ret tt (out [delay_ms 500] s) ks
              end
          end
      end
  end.

(** The globals at start-up (zero-initialised, the two flags [false]). *)
Definition power_on : State :=
  mkState 0 0 0 0 0 0 0 0 0 false false [].

Definition initialize (s : State) : State :=
  let s := out [LATA 0x00; LATD 0x00] s in
  let s := on_io (blinkLED 0xFF 3 250) s in
  let s := on_io (blinkLED 0x01 3 250) s in
  out [LATD 0x00] s.

(** The [while (1)] of [main], unrolled at most [fuel] times; [None] means
    that the fuel did not suffice. *)
Fixpoint main_loop (fuel : nat) (s : State) (ks : list Z)
  : option (waitpoint * State) :=
  match fuel with
  | O => None
  | S fuel =>
      match cycle s ks with
      | Wait w s => Some (w, s)
      | Ret _ s ks => main_loop fuel s ks
      end
  end.

(** Every pass that ends reads at least one key, so [length ks] passes and
    one more always reach a polling place ([led_main_total] below). *)
Definition main (ks : list Z) : option (waitpoint * State) :=
  main_loop (S (length ks)) (initialize power_on) ks.

(** The state after [n] scans that find no key, in a loop that stores the
    scan and polls again. *)
Fixpoint no_key (n : nat) (s : State) : State :=
  match n with
  | O => s
  | S n => no_key n (set_keyVal (uchar 0xFF) s)
  end.

(** The globals without the digits of the first operand and without the
    output log: what the rest of a pass can read once [num1] is known. *)
Definition core (s : State) : Z * Z * Z * Z * Z * Z * Z * bool * bool :=
  (num21 s, num22 s, num1 s, num2 s, operator s, keyVal s, result s,
   waitingForHashKey s, validInput s).

(** The operands, the operator and the result. *)
Definition registers (s : State) : Z * Z * Z * Z :=
  (num1 s, num2 s, operator s, result s).

(** What a pass lets the user observe of its outcome: whether and where
    it is polling, the keys left, and the registers. *)
Definition observed {A : Type} (o : outcome State A)
  : option waitpoint * list Z * (Z * Z * Z * Z) :=
  (waiting_at o, unread o, registers (outcome_state o)).

(** Two outcomes that agree on everything but those. *)
Definition same_core {A : Type} (o1 o2 : outcome State A) : Prop :=
  match o1, o2 with
  | Ret a1 s1 ks1, Ret a2 s2 ks2 => a1 = a2 /\ ks1 = ks2 /\ core s1 = core s2
  | Wait w1 s1, Wait w2 s2 => w1 = w2 /\ core s1 = core s2
  | _, _ => False
  end.

(** The rest of a pass of [main] from the call of [getNum2] on. *)
Definition second_half (s : State) (ks : list Z) : outcome State unit :=
  match getNum2 s ks with
  | Wait w s => Wait w s
  | Ret v s ks =>
      let s := set_num2 v s in
      let s := out [LATD 0x02] s in
      if num2 s =? 0xFF then Ret tt s ks else
      match displayResult s ks with
      | Wait w s => Wait w s
      | Ret _ s ks => Ret tt (out [delay_ms 500] s) ks
      end
  end.

(** The registers as every polling place of the program finds them. *)
Definition in_range (s : State) : Prop :=
  0 <= num1 s <= 99 /\ 0 <= num2 s <= 99 /\ opcode_ok (operator s) /\
  -99 <= result s <= 198.

End LED.

(** * Part 2: the dual 7-segment calculator *)
Module SevenSeg.

Local Notation "a :|: b" := (Z.lor a b) (at level 50, left associativity).

Definition TENS_DIGIT_PIN : Z := 0.
Definition UNITS_DIGIT_PIN : Z := 1.

Definition SEG_A : Z := Z.shiftl 1 6.
Definition SEG_B : Z := Z.shiftl 1 5.
Definition SEG_C : Z := Z.shiftl 1 4.
Definition SEG_D : Z := Z.shiftl 1 3.
Definition SEG_E : Z := Z.shiftl 1 2.
Definition SEG_F : Z := Z.shiftl 1 1.
Definition SEG_G : Z := Z.shiftl 1 0.
Definition SEG_DP : Z := Z.shiftl 1 7.

Definition DISPLAY_RESET : Z := 0.
Definition DISPLAY_NUM1 : Z := 1.
Definition DISPLAY_OPERATOR : Z := 2.
Definition DISPLAY_NUM2 : Z := 3.
Definition DISPLAY_RESULT : Z := 4.

Definition digitPatterns : list Z :=
  [ SEG_A :|: SEG_B :|: SEG_C :|: SEG_D :|: SEG_E :|: SEG_F;
    SEG_B :|: SEG_C;
    SEG_A :|: SEG_B :|: SEG_G :|: SEG_E :|: SEG_D;
    SEG_A :|: SEG_B :|: SEG_C :|: SEG_D :|: SEG_G;
    SEG_F :|: SEG_G :|: SEG_B :|: SEG_C;
    SEG_A :|: SEG_F :|: SEG_G :|: SEG_C :|: SEG_D;
    SEG_A :|: SEG_F :|: SEG_G :|: SEG_C :|: SEG_D :|: SEG_E;
    SEG_A :|: SEG_B :|: SEG_C;
    SEG_A :|: SEG_B :|: SEG_C :|: SEG_D :|: SEG_E :|: SEG_F :|: SEG_G;
    SEG_A :|: SEG_B :|: SEG_C :|: SEG_D :|: SEG_F :|: SEG_G;
    SEG_A :|: SEG_D :|: SEG_G;
    0 ].

Definition operatorPatterns : list Z :=
  [ SEG_F :|: SEG_E :|: SEG_A :|: SEG_B :|: SEG_C;
    SEG_F :|: SEG_E :|: SEG_G :|: SEG_C :|: SEG_D;
    SEG_A :|: SEG_F :|: SEG_E :|: SEG_D;
    SEG_B :|: SEG_C :|: SEG_D :|: SEG_E :|: SEG_G ].

Definition PATTERN_E : Z := SEG_A :|: SEG_F :|: SEG_G :|: SEG_E :|: SEG_D.
Definition PATTERN_MINUS : Z := SEG_G.
Definition PATTERN_BLANK : Z := 0.

(** Reading [a[i]]: [None] stands for an access outside the array. *)
Definition array_read (a : list Z) (i : Z) : option Z :=
  if i <? 0 then None else nth_error a (Z.to_nat i).

Definition encodeDigit (digit : Z) : option Z :=
  if (digit >=? 0xA) && (digit <=? 0xD) then
    array_read operatorPatterns (digit - 0xA)
  else if (digit >=? 0) && (digit <=? 9) then
    array_read digitPatterns digit
  else if digit =? -1 then Some PATTERN_MINUS
  else Some PATTERN_BLANK.

(** The pattern that [displayDigit] receives from [encodeDigit]; the [None]
    branch is never taken ([encodeDigit_some] below). *)
Definition encoded (digit : Z) : Z :=
  match encodeDigit digit with
  | Some pattern => pattern
  | None => 0
  end.

Definition displayDigit (digit position : Z) (dp : bool) (t : io) : io :=
  let pattern := encoded digit in
  let pattern := if dp then pattern :|: SEG_DP else pattern in
  t ++ [ LATA 0x00;
         LATD pattern;
         LATA (if position =? 0 then Z.shiftl 1 TENS_DIGIT_PIN
               else Z.shiftl 1 UNITS_DIGIT_PIN) ].

Definition displayNumber (number : Z) (t : io) : io :=
  let isNegative := number <? 0 in
  let number :=
    if number <? 0 then
      let number := int_neg number in
      if number >? 99 then 99 else number
    else
      if number >? 99 then 99 else number in
  let tens := int_div number 10 in
  let units := int_rem number 10 in
  let t := displayDigit tens 0 false t in
  let t := t ++ [delay_ms 5] in
  let t := displayDigit units 1 isNegative t in
  t ++ [delay_ms 5].

(** [blinkDisplay]: as in the source, [delay] is not used. *)
Definition blinkDisplay (count delay : Z) (t : io) : io :=
  Nat.iter (Z.to_nat count)
    (fun t => t ++ [ LATA (Z.shiftl 1 TENS_DIGIT_PIN); LATD 0xFF; delay_ms 10;
                     LATA (Z.shiftl 1 UNITS_DIGIT_PIN); LATD 0xFF; delay_ms 10;
                     LATA 0x00; LATD 0x00; delay_ms 20 ]) t.

(** The operator glyph on the left digit and digit code 11 on the right
    one, as the source shows an operator in several places. *)
Definition showOperator (op ms : Z) (t : io) : io :=
  let t := displayDigit op 0 false t in
  let t := t ++ [delay_ms ms] in
  let t := displayDigit 11 1 false t in
  t ++ [delay_ms ms].

(** Ten rounds of operator glyph, then the first number. *)
Definition showOperatorAndNum1 (op n : Z) (t : io) : io :=
  Nat.iter 10
    (fun t => let t := showOperator op 5 t in
              let t := displayNumber n t in
              t ++ [delay_ms 5]) t.

Record State : Type := mkState {
  num1_tens : Z; num1_units : Z;
  num2_tens : Z; num2_units : Z;
  num1 : Z;
  num2 : Z;
  operator : Z;
  keyVal : Z;
  result : Z;
  displayMode : Z;
  waitingForHashKey : bool;
  validInput : bool;
  currentDisplayValue : Z;
  isDisplayNegative : bool;
  previousMode : Z;     (* [static] in [updateDisplay] *)
  displayToggle : Z;    (* [static] in [scanKeypad] *)
  trace : io
}.

Definition set_num1_tens (v : Z) (s : State) : State :=
  mkState v (num1_units s) (num2_tens s) (num2_units s) (num1 s) (num2 s)
    (operator s) (keyVal s) (result s) (displayMode s) (waitingForHashKey s)
    (validInput s) (currentDisplayValue s) (isDisplayNegative s)
    (previousMode s) (displayToggle s) (trace s).
Definition set_num1_units (v : Z) (s : State) : State :=
  mkState (num1_tens s) v (num2_tens s) (num2_units s) (num1 s) (num2 s)
    (operator s) (keyVal s) (result s) (displayMode s) (waitingForHashKey s)
    (validInput s) (currentDisplayValue s) (isDisplayNegative s)
    (previousMode s) (displayToggle s) (trace s).
Definition set_num2_tens (v : Z) (s : State) : State :=
  mkState (num1_tens s) (num1_units s) v (num2_units s) (num1 s) (num2 s)
    (operator s) (keyVal s) (result s) (displayMode s) (waitingForHashKey s)
    (validInput s) (currentDisplayValue s) (isDisplayNegative s)
    (previousMode s) (displayToggle s) (trace s).
Definition set_num2_units (v : Z) (s : State) : State :=
  mkState (num1_tens s) (num1_units s) (num2_tens s) v (num1 s) (num2 s)
    (operator s) (keyVal s) (result s) (displayMode s) (waitingForHashKey s)
    (validInput s) (currentDisplayValue s) (isDisplayNegative s)
    (previousMode s) (displayToggle s) (trace s).
Definition set_num1 (v : Z) (s : State) : State :=
  mkState (num1_tens s) (num1_units s) (num2_tens s) (num2_units s) v (num2 s)
    (operator s) (keyVal s) (result s) (displayMode s) (waitingForHashKey s)
    (validInput s) (currentDisplayValue s) (isDisplayNegative s)
    (previousMode s) (displayToggle s) (trace s).
Definition set_num2 (v : Z) (s : State) : State :=
  mkState (num1_tens s) (num1_units s) (num2_tens s) (num2_units s) (num1 s) v
    (operator s) (keyVal s) (result s) (displayMode s) (waitingForHashKey s)
    (validInput s) (currentDisplayValue s) (isDisplayNegative s)
    (previousMode s) (displayToggle s) (trace s).
Definition set_operator (v : Z) (s : State) : State :=
  mkState (num1_tens s) (num1_units s) (num2_tens s) (num2_units s) (num1 s)
    (num2 s) v (keyVal s) (result s) (displayMode s) (waitingForHashKey s)
    (validInput s) (currentDisplayValue s) (isDisplayNegative s)
    (previousMode s) (displayToggle s) (trace s).
Definition set_keyVal (v : Z) (s : State) : State :=
  mkState (num1_tens s) (num1_units s) (num2_tens s) (num2_units s) (num1 s)
    (num2 s) (operator s) v (result s) (displayMode s) (waitingForHashKey s)
    (validInput s) (currentDisplayValue s) (isDisplayNegative s)
    (previousMode s) (displayToggle s) (trace s).
Definition set_result (v : Z) (s : State) : State :=
  mkState (num1_tens s) (num1_units s) (num2_tens s) (num2_units s) (num1 s)
    (num2 s) (operator s) (keyVal s) v (displayMode s) (waitingForHashKey s)
    (validInput s) (currentDisplayValue s) (isDisplayNegative s)
    (previousMode s) (displayToggle s) (trace s).
Definition set_displayMode (v : Z) (s : State) : State :=
  mkState (num1_tens s) (num1_units s) (num2_tens s) (num2_units s) (num1 s)
    (num2 s) (operator s) (keyVal s) (result s) v (waitingForHashKey s)
    (validInput s) (currentDisplayValue s) (isDisplayNegative s)
    (previousMode s) (displayToggle s) (trace s).
Definition set_waitingForHashKey (v : bool) (s : State) : State :=
  mkState (num1_tens s) (num1_units s) (num2_tens s) (num2_units s) (num1 s)
    (num2 s) (operator s) (keyVal s) (result s) (displayMode s) v
    (validInput s) (currentDisplayValue s) (isDisplayNegative s)
    (previousMode s) (displayToggle s) (trace s).
Definition set_validInput (v : bool) (s : State) : State :=
  mkState (num1_tens s) (num1_units s) (num2_tens s) (num2_units s) (num1 s)
    (num2 s) (operator s) (keyVal s) (result s) (displayMode s)
    (waitingForHashKey s) v (currentDisplayValue s) (isDisplayNegative s)
    (previousMode s) (displayToggle s) (trace s).
Definition set_currentDisplayValue (v : Z) (s : State) : State :=
  mkState (num1_tens s) (num1_units s) (num2_tens s) (num2_units s) (num1 s)
    (num2 s) (operator s) (keyVal s) (result s) (displayMode s)
    (waitingForHashKey s) (validInput s) v (isDisplayNegative s)
    (previousMode s) (displayToggle s) (trace s).
Definition set_isDisplayNegative (v : bool) (s : State) : State :=
  mkState (num1_tens s) (num1_units s) (num2_tens s) (num2_units s) (num1 s)
    (num2 s) (operator s) (keyVal s) (result s) (displayMode s)
    (waitingForHashKey s) (validInput s) (currentDisplayValue s) v
    (previousMode s) (displayToggle s) (trace s).
Definition set_previousMode (v : Z) (s : State) : State :=
  mkState (num1_tens s) (num1_units s) (num2_tens s) (num2_units s) (num1 s)
    (num2 s) (operator s) (keyVal s) (result s) (displayMode s)
    (waitingForHashKey s) (validInput s) (currentDisplayValue s)
    (isDisplayNegative s) v (displayToggle s) (trace s).
Definition set_displayToggle (v : Z) (s : State) : State :=
  mkState (num1_tens s) (num1_units s) (num2_tens s) (num2_units s) (num1 s)
    (num2 s) (operator s) (keyVal s) (result s) (displayMode s)
    (waitingForHashKey s) (validInput s) (currentDisplayValue s)
    (isDisplayNegative s) (previousMode s) v (trace s).
Definition set_trace (v : io) (s : State) : State :=
  mkState (num1_tens s) (num1_units s) (num2_tens s) (num2_units s) (num1 s)
    (num2 s) (operator s) (keyVal s) (result s) (displayMode s)
    (waitingForHashKey s) (validInput s) (currentDisplayValue s)
    (isDisplayNegative s) (previousMode s) (displayToggle s) v.

Definition out (es : list event) (s : State) : State :=
  set_trace (trace s ++ es) s.
Definition on_io (f : io -> io) (s : State) : State :=
  set_trace (f (trace s)) s.

Definition refreshDisplay (number : Z) (s : State) : State :=
  let s := set_currentDisplayValue number s in
  let s := set_isDisplayNegative (number <? 0) s in
  on_io (Nat.iter 30 (displayNumber number)) s.

Definition updateDisplay (value mode : Z) (s : State) : State :=
  let s := set_displayMode mode s in
  let s :=
    if (previousMode s =? DISPLAY_NUM1) && (mode =? DISPLAY_OPERATOR) then
      let rememberedNum1 := currentDisplayValue s in
      let s := on_io (showOperatorAndNum1 value rememberedNum1) s in
      set_currentDisplayValue rememberedNum1 s
    else if (mode =? DISPLAY_NUM1) || (mode =? DISPLAY_NUM2)
            || (mode =? DISPLAY_RESULT) then
      refreshDisplay value s
    else if mode =? DISPLAY_OPERATOR then
      on_io (Nat.iter 10 (showOperator value 5)) s
    else
      refreshDisplay 0 s in
  set_previousMode mode s.

(** [keyVal = scanKeypad()] for a call that returns [k]: the display is
    refreshed first, then the key is stored.  The refresh that the source
    repeats while a key is held down depends on how long it is held and is
    not logged. *)
Definition scanKeypad (s : State) (k : Z) : State :=
  let s :=
    if (displayMode s =? DISPLAY_NUM1) || (displayMode s =? DISPLAY_NUM2)
       || (displayMode s =? DISPLAY_RESULT) || (displayMode s =? DISPLAY_RESET)
    then on_io (displayNumber (currentDisplayValue s)) s
    else if displayMode s =? DISPLAY_OPERATOR then
      let toggle := displayToggle s in
      let s := set_displayToggle (int_add toggle 1) s in
      if negb (int_rem toggle 3 =? 0) then
        on_io (showOperator (operator s) 2) s
      else
        out [delay_ms 2] (on_io (displayNumber (currentDisplayValue s)) s)
    else s in
  set_keyVal (uchar k) s.

Definition resetCalculator (s : State) : State :=
  let s := set_num1 0 s in
  let s := set_num2 0 s in
  let s := set_operator 0 s in
  let s := set_waitingForHashKey false s in
  let s := set_validInput false s in
  let s := set_displayMode DISPLAY_RESET s in
  let s := set_currentDisplayValue 0 s in
  let s := set_isDisplayNegative false s in
  updateDisplay 0 DISPLAY_RESET s.

Fixpoint getNum1_second (s : State) (ks : list Z) : outcome State Z :=
  match ks with
  | [] => Wait WNum1Second s
  | k :: ks =>
      let s := scanKeypad s k in
      if keyVal s =? 0xFF then getNum1_second s ks
      else if keyVal s <=? 9 then
        let s := set_num1_units (keyVal s) s in
        let s := set_num1 (int_add (int_mul (num1_tens s) 10) (num1_units s)) s in
        let s := if num1 s >? MAX_INPUT then set_num1 MAX_INPUT s else s in
        let s := updateDisplay (num1 s) DISPLAY_NUM1 s in
        Ret (num1 s) s ks
      else if (keyVal s >=? 0xA) && (keyVal s <=? 0xD) then
        let s := set_num1 (num1_tens s) s in
        let s := set_operator (keyVal s) s in
        Ret (num1 s) s ks
      else if keyVal s =? 0xF then
        let s := set_num1 (num1_tens s) s in
        Ret (num1 s) s ks
      else if keyVal s =? 0xE then
        let s := resetCalculator s in
        Ret 0xFF s ks
      else getNum1_second s ks
  end.

Fixpoint getNum1_first (s : State) (ks : list Z) : outcome State Z :=
  match ks with
  | [] => Wait WNum1First s
  | k :: ks =>
      let s := scanKeypad s k in
      if keyVal s =? 0xFF then getNum1_first s ks
      else if keyVal s =? 0xE then
        let s := resetCalculator s in
        Ret 0xFF s ks
      else if keyVal s <=? 9 then
        let s := set_num1_tens (keyVal s) s in
        let s := set_validInput true s in
        let s := updateDisplay (num1_tens s) DISPLAY_NUM1 s in
        getNum1_second s ks
      else getNum1_first s ks
  end.

Definition getNum1 (s : State) (ks : list Z) : outcome State Z :=
  let s := set_num1_tens 0 s in
  let s := set_num1_units 0 s in
  let s := set_validInput false s in
  let s := updateDisplay 0 DISPLAY_NUM1 s in
  getNum1_first s ks.

Fixpoint getOperator_loop (storedNum1 : Z) (s : State) (ks : list Z)
  {struct ks} : outcome State Z :=
  let s := out [delay_ms 5] (on_io (displayNumber storedNum1) s) in
  match ks with
  | [] => Wait WOperator s
  | k :: ks =>
      let s := scanKeypad s k in
      if keyVal s =? 0xFF then
        getOperator_loop storedNum1 (on_io (displayNumber storedNum1) s) ks
      else if (keyVal s >=? 0xA) && (keyVal s <=? 0xD) then
        let s := on_io (showOperatorAndNum1 (keyVal s) storedNum1) s in
        let s := set_currentDisplayValue storedNum1 s in
        Ret (keyVal s) s ks
      else if keyVal s =? 0xE then
        let s := resetCalculator s in
        Ret 0 s ks
      else getOperator_loop storedNum1 s ks
  end.

Definition getOperator (s : State) (ks : list Z) : outcome State Z :=
  let storedNum1 := num1 s in
  if (operator s >=? 0xA) && (operator s <=? 0xD) then
    let temp := operator s in
    let s := on_io (showOperatorAndNum1 temp storedNum1) s in
    let s := set_currentDisplayValue storedNum1 s in
    Ret temp s ks
  else getOperator_loop storedNum1 s ks.

Fixpoint getNum2_second (s : State) (ks : list Z) : outcome State Z :=
  match ks with
  | [] => Wait WNum2Second s
  | k :: ks =>
      let s := scanKeypad s k in
      if keyVal s =? 0xFF then getNum2_second s ks
      else if keyVal s <=? 9 then
        let s := set_num2_units (keyVal s) s in
        let s := set_num2 (int_add (int_mul (num2_tens s) 10) (num2_units s)) s in
        let s := if num2 s >? MAX_INPUT then set_num2 MAX_INPUT s else s in
        let s := updateDisplay (num2 s) DISPLAY_NUM2 s in
        let s := set_waitingForHashKey true s in
        Ret (num2 s) s ks
      else if keyVal s =? 0xF then
        let s := set_num2 (num2_tens s) s in
        let s := set_waitingForHashKey true s in
        Ret (num2 s) s ks
      else if keyVal s =? 0xE then
        let s := resetCalculator s in
        Ret 0 s ks
      else getNum2_second s ks
  end.

Fixpoint getNum2_first (s : State) (ks : list Z) : outcome State Z :=
  match ks with
  | [] => Wait WNum2First s
  | k :: ks =>
      let s := scanKeypad s k in
      if keyVal s =? 0xFF then getNum2_first s ks
      else if keyVal s =? 0xE then
        let s := resetCalculator s in
        Ret 0 s ks
      else if keyVal s <=? 9 then
        let s := set_num2_tens (keyVal s) s in
        let s := set_validInput true s in
        let s := updateDisplay (num2_tens s) DISPLAY_NUM2 s in
        getNum2_second s ks
      else getNum2_first s ks
  end.

Definition getNum2 (s : State) (ks : list Z) : outcome State Z :=
  let s := set_num2_tens 0 s in
  let s := set_num2_units 0 s in
  let s := set_validInput false s in
  let s := updateDisplay 0 DISPLAY_NUM2 s in
  getNum2_first s ks.

(** The error animation of the division-by-zero branch. *)
Definition showDivideError (t : io) : io :=
  Nat.iter 5
    (fun t => t ++ [ LATA (Z.shiftl 1 TENS_DIGIT_PIN); LATD PATTERN_E;
                     delay_ms 100;
                     LATA (Z.shiftl 1 UNITS_DIGIT_PIN);
                     LATD (nth 0 digitPatterns 0); delay_ms 100;
                     LATA 0x00; LATD 0x00; delay_ms 100 ]) t.

(** The closing range check of [doOperation]. *)
Definition limit99 (result : Z) : Z :=
  if result >? 99 then 99
  else if result <? -99 then -99
  else result.

Definition doOperation (n1 n2 op : Z) (s : State) : Z * State :=
  if op =? 0xA then (limit99 (int_add n1 n2), s)
  else if op =? 0xB then (limit99 (int_sub n1 n2), s)
  else if op =? 0xC then
    let r := int_mul n1 n2 in
    let r := if r >? 99 then 99 else if r <? -99 then -99 else r in
    (limit99 r, s)
  else if op =? 0xD then
    if negb (n2 =? 0) then (limit99 (int_div n1 n2), s)
    else (0, on_io showDivideError s)
  else (0, s).

Fixpoint wait_reset (w : waitpoint) (s : State) (ks : list Z)
  : outcome State unit :=
  match ks with
  | [] => Wait w s
  | k :: ks =>
      let s := scanKeypad s k in
      if keyVal s =? 0xE then Ret tt (resetCalculator s) ks
      else wait_reset w s ks
  end.

Fixpoint displayResult_loop (s : State) (ks : list Z) : outcome State unit :=
  match ks with
  | [] => Wait WConfirm s
  | k :: ks =>
      let s := scanKeypad s k in
      if keyVal s =? 0xFF then displayResult_loop s ks
      else if keyVal s =? 0xF then
        let (r, s) := doOperation (num1 s) (num2 s) (operator s) s in
        let s := set_result r s in
        let s := updateDisplay (result s) DISPLAY_RESULT s in
        wait_reset WResult s ks
      else if keyVal s =? 0xE then
        Ret tt (resetCalculator s) ks
      else displayResult_loop s ks
  end.

(** The three flashes shown when [waitingForHashKey] is not set. *)
Definition flashNum2 (s : State) : State :=
  Nat.iter 3
    (fun s => let s := out [LATA 0x00; LATD 0x00; delay_ms 200] s in
              let s := refreshDisplay (num2 s) s in
              out [delay_ms 200] s) s.

Definition displayResult (s : State) (ks : list Z) : outcome State unit :=
  let s := if negb (waitingForHashKey s) then flashNum2 s else s in
  displayResult_loop s ks.

(** One pass through the body of the [while (1)] of [main]. *)
Definition cycle (s : State) (ks : list Z) : outcome State unit :=
  let s := resetCalculator s in
  match getNum1 s ks with
  | Wait w s => Wait w s
  | Ret v s ks =>
      let s := set_num1 v s in
      if num1 s =? 0xFF then Ret tt s ks else
      let s := set_currentDisplayValue (num1 s) s in
      match getOperator s ks with
      | Wait w s => Wait w s
      | Ret v s ks =>
          let s := set_operator v s in
          if operator s =? 0 then Ret tt s ks else
          let savedNum1 := currentDisplayValue s in
          match getNum2 s ks with
          | Wait w s => Wait w s
          | Ret v s ks =>
              let s := set_num2 v s in
              if num2 s =? 0xFF then Ret tt s ks else
              let s := set_num1 savedNum1 s in
              match displayResult s ks with
              | Wait w s => Wait w s
              | Ret _ s ks => Ret tt (out [delay_ms 500] s) ks
              end
          end
      end
  end.

Definition power_on : State :=
  mkState 0 0 0 0 0 0 0 0 0 0 false false 0 false DISPLAY_RESET 0 [].

Definition initialize (s : State) : State :=
  let s := out [LATA 0x00; LATD 0x00] s in
  let s := set_displayMode DISPLAY_RESET s in
  let s := set_currentDisplayValue 0 s in
  let s := set_isDisplayNegative false s in
  let s := on_io (blinkDisplay 3 500) s in
  on_io (displayNumber 0) s.

Fixpoint main_loop (fuel : nat) (s : State) (ks : list Z)
  : option (waitpoint * State) :=
  match fuel with
  | O => None
  | S fuel =>
      match cycle s ks with
      | Wait w s => Some (w, s)
      | Ret _ s ks => main_loop fuel s ks
      end
  end.

(** As in the LED program, the fuel suffices ([seg_main_total] below). *)
Definition main (ks : list Z) : option (waitpoint * State) :=
  main_loop (S (length ks)) (initialize power_on) ks.

(** The state after [n] scans that find no key, in a loop that stores the
    scan and polls again. *)
Fixpoint no_key (n : nat) (s : State) : State :=
  match n with
  | O => s
  | S n => no_key n (scanKeypad s 0xFF)
  end.

(** The same for the loop of [getOperator], which redraws the first number
    around every scan. *)
Fixpoint no_operator_key (n : nat) (storedNum1 : Z) (s : State) : State :=
  match n with
  | O => s
  | S n =>
      let s := out [delay_ms 5] (on_io (displayNumber storedNum1) s) in
      let s := scanKeypad s 0xFF in
      no_operator_key n storedNum1 (on_io (displayNumber storedNum1) s)
  end.

(** The globals without the digits of the first operand and without the
    output log: what the rest of a pass can read once [num1] is known. *)
Definition core (s : State)
  : Z * Z * Z * Z * Z * Z * Z * Z * bool * bool * Z * bool * Z * Z :=
  (num2_tens s, num2_units s, num1 s, num2 s, operator s, keyVal s, result s,
   displayMode s, waitingForHashKey s, validInput s, currentDisplayValue s,
   isDisplayNegative s, previousMode s, displayToggle s).

(** The operands, the operator and the result. *)
Definition registers (s : State) : Z * Z * Z * Z :=
  (num1 s, num2 s, operator s, result s).

(** What a pass lets the user observe of its outcome: whether and where
    it is polling, the keys left, and the registers. *)
Definition observed {A : Type} (o : outcome State A)
  : option waitpoint * list Z * (Z * Z * Z * Z) :=
  (waiting_at o, unread o, registers (outcome_state o)).

Definition same_core {A : Type} (o1 o2 : outcome State A) : Prop :=
  match o1, o2 with
  | Ret a1 s1 ks1, Ret a2 s2 ks2 => a1 = a2 /\ ks1 = ks2 /\ core s1 = core s2
  | Wait w1 s1, Wait w2 s2 => w1 = w2 /\ core s1 = core s2
  | _, _ => False
  end.

(** The rest of a pass of [main] from the declaration of [savedNum1] on. *)
Definition second_half (s : State) (ks : list Z) : outcome State unit :=
  let savedNum1 := currentDisplayValue s in
  match getNum2 s ks with
  | Wait w s => Wait w s
  | Ret v s ks =>
      let s := set_num2 v s in
      if num2 s =? 0xFF then Ret tt s ks else
      let s := set_num1 savedNum1 s in
      match displayResult s ks with
      | Wait w s => Wait w s
      | Ret _ s ks => Ret tt (out [delay_ms 500] s) ks
      end
  end.

(** The registers in range, and the display never in operator mode: the
    operator is drawn by [getOperator] itself, not through [updateDisplay],
    so the counter [displayToggle] of [scanKeypad] never moves. *)
Definition in_range (s : State) : Prop :=
  0 <= num1 s <= 99 /\ 0 <= num2 s <= 99 /\ opcode_ok (operator s) /\
  -99 <= result s <= 99 /\ -99 <= currentDisplayValue s <= 99 /\
  displayMode s <> DISPLAY_OPERATOR /\ displayToggle s = 0.

End SevenSeg.

(** * Vocabulary of the properties *)

(** [n] consecutive scans that find no key pressed. *)
Definition idle (n : nat) : list Z := repeat 0xFF n.

(** Saturation to the interval from [lo] to [hi], as the specification
    words it. *)
Definition clamp (lo hi x : Z) : Z := Z.max lo (Z.min hi x).

(** A key stream in which no scan returns the Reset key, and one in which
    no scan returns Confirm or Reset. *)
Definition no_reset (ks : list Z) : Prop :=
  Forall (fun k => uchar k <> 0xE) ks.
Definition no_confirm_or_reset (ks : list Z) : Prop :=
  Forall (fun k => uchar k <> 0xF /\ uchar k <> 0xE) ks.

(** The operand and operator keys. *)
Definition is_digit (k : Z) : Prop := 0 <= k <= 9.
Definition is_operator (k : Z) : Prop := 0xA <= k <= 0xD.

(** The last [n] events of an output log. *)
Definition last_events (n : nat) (t : io) : io := skipn (length t - n) t.

(** A routine that returned has read at least one key of [ks], or has at
    least not invented any. *)
Definition consumed {S A : Type} (o : outcome S A) (ks : list Z) : Prop :=
  match o with
  | Ret _ _ rest => (length rest < length ks)%nat
  | Wait _ _ => True
  end.

Definition not_grown {S A : Type} (o : outcome S A) (ks : list Z) : Prop :=
  match o with
  | Ret _ _ rest => (length rest <= length ks)%nat
  | Wait _ _ => True
  end.

(** How a routine [L] reacts to more keys: a return is not affected by keys
    that follow, and a polling routine returns on the Reset key, with a
    value accepted by [reset_value]. *)
Definition reset_aware {S A : Type} (reset_value : A -> Prop)
  (L : S -> list Z -> outcome S A) : Prop :=
  forall (ks : list Z) (s : S),
    match L s ks with
    | Ret a s1 ks1 => forall ks', L s (ks ++ ks') = Ret a s1 (ks1 ++ ks')
    | Wait _ _ =>
        exists a s2, L s (ks ++ [0xE]) = Ret a s2 [] /\ reset_value a
    end.

(** The shape of a step of [main]: call [L], store its value with [f],
    [continue] when [again] holds of the new state, go on with [K]
    otherwise. *)
Definition step_then {S A : Type} (L : S -> list Z -> outcome S A)
  (f : A -> S -> S) (again : S -> bool) (K : S -> list Z -> outcome S unit)
  (s : S) (ks : list Z) : outcome S unit :=
  match L s ks with
  | Wait w s => Wait w s
  | Ret v s ks =>
      if again (f v s) then Ret tt (f v s) ks else K (f v s) ks
  end.

(** The log [t'] continues the log [t]. *)
Definition io_extends (t t' : io) : Prop := exists more, t' = t ++ more.

(** The polling places of the second operand. *)
Definition second_operand_poll (w : waitpoint) : bool :=
  match w with
  | WNum2First | WNum2Second => true
  | _ => false
  end.

(** [reset_aware] with the polling places of the routine named: it polls
    only at places accepted by [place]. *)
Definition reset_aware_at {S A : Type} (place : waitpoint -> Prop)
  (reset_value : A -> Prop) (L : S -> list Z -> outcome S A) : Prop :=
  forall (ks : list Z) (s : S),
    match L s ks with
    | Ret a s1 ks1 => forall ks', L s (ks ++ ks') = Ret a s1 (ks1 ++ ks')
    | Wait w _ =>
        place w /\
        exists a s2, L s (ks ++ [0xE]) = Ret a s2 [] /\ reset_value a
    end.

(** The keys a polling place reacts to: every other scan value, the no-key
    value 0xFF among them, is passed over. *)
Definition accepted_key (w : waitpoint) (k : Z) : bool :=
  match w with
  | WNum1First | WNum2First => (k <=? 9) || (k =? 0xE)
  | WNum1Second =>
      (k <=? 9) || ((k >=? 0xA) && (k <=? 0xD)) || (k =? 0xF) || (k =? 0xE)
  | WOperator => ((k >=? 0xA) && (k <=? 0xD)) || (k =? 0xE)
  | WNum2Second => (k <=? 9) || (k =? 0xF) || (k =? 0xE)
  | WConfirm => (k =? 0xF) || (k =? 0xE)
  | WResult | WNegBlink | WDivError => k =? 0xE
  end.

(** A routine that passes over the keys its polling place does not accept:
    a return is not affected by keys that follow, and a poll stays where it
    is, in a state that [same] relates to the one before. *)
Definition passes_over {S A : Type} (same : S -> S -> Prop)
  (L : S -> list Z -> outcome S A) : Prop :=
  forall (ks : list Z) (s : S),
    match L s ks with
    | Ret a s1 ks1 => forall ks', L s (ks ++ ks') = Ret a s1 (ks1 ++ ks')
    | Wait w s1 =>
        forall k,
          accepted_key w (uchar k) = false ->
          exists s2, L s (ks ++ [k]) = Wait w s2 /\ same s1 s2
    end.

(** Two states with the same operands, operator and result. *)
Definition led_same (s1 s2 : LED.State) : Prop :=
  LED.registers s1 = LED.registers s2.
Definition seg_same (s1 s2 : SevenSeg.State) : Prop :=
  SevenSeg.registers s1 = SevenSeg.registers s2.

(** The ways of entering the first operand and the operator: two digits
    and the operator key; one digit closed by the operator key; one digit
    closed by Confirm, then the operator key.  Idle scans may separate the
    keys. *)
Inductive first_operand_keys : Z -> Z -> list Z -> Prop :=
| first_two_digits (d1 d2 op : Z) (n1 n2 n3 : nat) :
    is_digit d1 -> is_digit d2 -> is_operator op ->
    first_operand_keys (10 * d1 + d2) op
      (idle n1 ++ d1 :: idle n2 ++ d2 :: idle n3 ++ [op])
| first_one_digit (d op : Z) (n1 n2 : nat) :
    is_digit d -> is_operator op ->
    first_operand_keys d op (idle n1 ++ d :: idle n2 ++ [op])
| first_digit_confirm (d op : Z) (n1 n2 n3 : nat) :
    is_digit d -> is_operator op ->
    first_operand_keys d op
      (idle n1 ++ d :: idle n2 ++ 0xF :: idle n3 ++ [op]).

(** The ways of entering the second operand: two digits, or one digit
    closed by Confirm. *)
Inductive second_operand_keys : Z -> list Z -> Prop :=
| second_two_digits (e1 e2 : Z) (n1 n2 : nat) :
    is_digit e1 -> is_digit e2 ->
    second_operand_keys (10 * e1 + e2) (idle n1 ++ e1 :: idle n2 ++ [e2])
| second_digit_confirm (e : Z) (n1 n2 : nat) :
    is_digit e ->
    second_operand_keys e (idle n1 ++ e :: idle n2 ++ [0xF]).


(** The value PORTD holds after the events of a log: the last one written
    to LATD. *)
Definition last_latd (t : io) : option Z :=
  fold_left (fun acc e => match e with LATD v => Some v | _ => acc end)
    t None.

(** What the LEDs show at each polling place of the LED program: a stage
    indicator during the entry, the result afterwards. *)
Definition led_shown (w : waitpoint) (s : LED.State) : Prop :=
  match w with
  | WNum1First => last_latd (LED.trace s) = Some 0x00
  | WNum1Second => last_latd (LED.trace s) = Some 0x01
  | WOperator => last_latd (LED.trace s) = Some 0x04
  | WNum2First | WNum2Second | WConfirm =>
      last_latd (LED.trace s) = Some 0x02
  | WDivError => last_latd (LED.trace s) = Some 0x00
  | WResult =>
      0 <= LED.result s /\ last_latd (LED.trace s) = Some (LED.result s)
  | WNegBlink =>
      LED.result s < 0 /\
      (last_latd (LED.trace s) = Some (- LED.result s) \/
       last_latd (LED.trace s) = Some (- LED.result s + 128))
  end.

(** * Machine arithmetic *)

Lemma wrap16_small (z : Z) : -32768 <= z <= 32767 -> wrap16 z = z.
Proof.
  intros Hz. unfold wrap16.
  rewrite Z.mod_small by lia. lia.
Qed.

Lemma wrap16_range (z : Z) : -32768 <= wrap16 z <= 32767.
Proof.
  unfold wrap16.
  pose proof (Z.mod_pos_bound (z + 32768) 65536 ltac:(lia)). lia.
Qed.

Lemma uchar_small (z : Z) : 0 <= z < 256 -> uchar z = z.
Proof. intros Hz. unfold uchar. now rewrite Z.mod_small. Qed.

Lemma uchar_range (z : Z) : 0 <= uchar z < 256.
Proof. unfold uchar. apply Z.mod_pos_bound. lia. Qed.

Lemma limit99_range (r : Z) : -99 <= SevenSeg.limit99 r <= 99.
Proof.
  unfold SevenSeg.limit99.
  destruct (Z.gtb_spec r 99); [lia|].
  destruct (Z.ltb_spec r (-99)); lia.
Qed.

Lemma limit99_fixed (r : Z) : -99 <= r <= 99 -> SevenSeg.limit99 r = r.
Proof.
  intros Hr. unfold SevenSeg.limit99.
  destruct (Z.gtb_spec r 99); [lia|].
  destruct (Z.ltb_spec r (-99)); lia.
Qed.

(** * The keypad table *)

Lemma keyTable_codes (row col : Z) :
  0 <= row <= 3 -> 0 <= col <= 3 -> 0 <= Keypad.keyTable row col <= 0xF.
Proof.
  intros Hr Hc.
  assert (Er : row = 0 \/ row = 1 \/ row = 2 \/ row = 3) by lia.
  assert (Ec : col = 0 \/ col = 1 \/ col = 2 \/ col = 3) by lia.
  destruct Er as [-> | [-> | [-> | ->]]];
    destruct Ec as [-> | [-> | [-> | ->]]]; simpl; lia.
Qed.

(** A scan returns one of the sixteen key codes, or [0xFF] for no key. *)
Lemma scanKeypad_codes (portb : Z -> Z) :
  0 <= Keypad.scanKeypad portb <= 0xF \/ Keypad.scanKeypad portb = 0xFF.
Proof.
  unfold Keypad.scanKeypad, Keypad.scanCols, Keypad.scanRows.
  repeat match goal with
         | |- context [if ?b then _ else _] => destruct b
         end;
    first [ right; reflexivity | left; apply keyTable_codes; lia ].
Qed.

(** * The evaluator *)

Lemma sevenseg_doOperation_in_range (n1 n2 op : Z) (s : SevenSeg.State) :
  -99 <= fst (SevenSeg.doOperation n1 n2 op s) <= 99.
Proof.
  unfold SevenSeg.doOperation.
  destruct (op =? 0xA); [apply limit99_range|].
  destruct (op =? 0xB); [apply limit99_range|].
  destruct (op =? 0xC); [apply limit99_range|].
  destruct (op =? 0xD); [|simpl; lia].
  destruct (negb (n2 =? 0)); [apply limit99_range|simpl; lia].
Qed.

(** C9: in the 7-segment program [doOperation] returns a value between -99
    and 99 for every operator code and all operands; division by zero and
    an unrecognised operator code return 0. *)
Theorem sevenseg_doOperation_bounded :
  forall (n1 n2 op : Z) (s : SevenSeg.State),
    -99 <= fst (SevenSeg.doOperation n1 n2 op s) <= 99 /\
    fst (SevenSeg.doOperation n1 0 0xD s) = 0 /\
    (op <> 0xA /\ op <> 0xB /\ op <> 0xC /\ op <> 0xD ->
     fst (SevenSeg.doOperation n1 n2 op s) = 0).
Proof.
  intros n1 n2 op s. split; [|split].
  - apply sevenseg_doOperation_in_range.
  - reflexivity.
  - intros (HA & HB & HC & HD). unfold SevenSeg.doOperation.
    apply Z.eqb_neq in HA, HB, HC, HD.
    now rewrite HA, HB, HC, HD.
Qed.

Lemma led_doOperation_add (a b : Z) (s : LED.State) :
  LED.doOperation a b 0xA s = (int_add a b, s).
Proof. reflexivity. Qed.

Lemma led_doOperation_sub (a b : Z) (s : LED.State) :
  LED.doOperation a b 0xB s = (int_sub a b, s).
Proof. reflexivity. Qed.

Lemma led_doOperation_mul (a b : Z) (s : LED.State) :
  LED.doOperation a b 0xC s =
  ((if int_mul a b >? MAX_INPUT then MAX_INPUT else int_mul a b), s).
Proof. reflexivity. Qed.

Lemma led_doOperation_div0 (a : Z) (s : LED.State) :
  LED.doOperation a 0 0xD s = (-1, LED.on_io (LED.blinkLED 0xFF 5 200) s).
Proof. reflexivity. Qed.

Lemma led_doOperation_other (a b op : Z) (s : LED.State) :
  op <> 0xA -> op <> 0xB -> op <> 0xC -> op <> 0xD ->
  LED.doOperation a b op s = (0, s).
Proof.
  intros HA HB HC HD. unfold LED.doOperation.
  apply Z.eqb_neq in HA, HB, HC, HD.
  now rewrite HA, HB, HC, HD.
Qed.

Lemma int_mul_operands (a b : Z) :
  0 <= a <= 99 -> 0 <= b <= 99 -> int_mul a b = a * b /\ 0 <= a * b <= 9801.
Proof.
  intros Ha Hb.
  assert (0 <= a * b <= 9801) by nia.
  split; [apply wrap16_small; lia | assumption].
Qed.

(** The exact range of the LED program's evaluator on entered operands. *)
Lemma led_doOperation_range (a b op : Z) (s : LED.State) :
  0 <= a <= 99 -> 0 <= b <= 99 ->
  op = 0xA \/ op = 0xB \/ op = 0xC ->
  -99 <= fst (LED.doOperation a b op s) <= 198.
Proof.
  intros Ha Hb [-> | [-> | ->]].
  - rewrite led_doOperation_add. simpl. unfold int_add.
    rewrite wrap16_small; lia.
  - rewrite led_doOperation_sub. simpl. unfold int_sub.
    rewrite wrap16_small; lia.
  - rewrite led_doOperation_mul. simpl.
    destruct (int_mul_operands a b Ha Hb) as [-> Hab].
    unfold MAX_INPUT. destruct (Z.gtb_spec (a * b) 0x63); lia.
Qed.

(** C8: in the LED program, for entered operands, the error test of
    [displayResult] ([result == -1 && num2 == 0]) succeeds exactly when the
    operator is division and the second operand is zero; with a zero second
    operand, addition, subtraction and multiplication never return -1. *)
Theorem led_error_test_exact :
  forall (a b op : Z) (s : LED.State),
    0 <= a <= 99 -> 0 <= b <= 99 ->
    ((fst (LED.doOperation a b op s) =? -1) && (b =? 0) = true
     <-> op = 0xD /\ b = 0) /\
    (b = 0 /\ (op = 0xA \/ op = 0xB \/ op = 0xC) ->
     fst (LED.doOperation a b op s) <> -1).
Proof.
  intros a b op s Ha Hb. split.
  - rewrite andb_true_iff, Z.eqb_eq, Z.eqb_eq. split.
    + intros [Hr ->]. split; [|reflexivity].
      destruct (Z.eq_dec op 0xD) as [|HD]; [assumption|exfalso].
      destruct (Z.eq_dec op 0xA) as [->|HA].
      { rewrite led_doOperation_add in Hr. simpl in Hr. unfold int_add in Hr.
        rewrite wrap16_small in Hr; lia. }
      destruct (Z.eq_dec op 0xB) as [->|HB].
      { rewrite led_doOperation_sub in Hr. simpl in Hr. unfold int_sub in Hr.
        rewrite wrap16_small in Hr; lia. }
      destruct (Z.eq_dec op 0xC) as [->|HC].
      { rewrite led_doOperation_mul in Hr. simpl in Hr.
        replace (int_mul a 0) with 0 in Hr
          by (unfold int_mul; now rewrite Z.mul_0_r).
        simpl in Hr. lia. }
      rewrite led_doOperation_other in Hr by assumption. simpl in Hr. lia.
    + intros [-> ->]. now rewrite led_doOperation_div0.
  - intros [-> Hop].
    pose proof (led_doOperation_range a 0 op s Ha ltac:(lia) Hop) as Hr.
    destruct Hop as [-> | [-> | ->]].
    + rewrite led_doOperation_add. simpl. unfold int_add.
      rewrite wrap16_small; lia.
    + rewrite led_doOperation_sub. simpl. unfold int_sub.
      rewrite wrap16_small; lia.
    + rewrite led_doOperation_mul. simpl.
      replace (int_mul a 0) with 0
        by (unfold int_mul; now rewrite Z.mul_0_r).
      simpl. lia.
Qed.

Lemma led_error_test_exact_witness :
  ((fst (LED.doOperation 7 0 0xD LED.power_on) =? -1) && (0 =? 0) = true
   <-> 0xD = 0xD /\ 0 = 0) /\
  (0 = 0 /\ (0xD = 0xA \/ 0xD = 0xB \/ 0xD = 0xC) ->
   fst (LED.doOperation 7 0 0xD LED.power_on) <> -1).
Proof. apply (led_error_test_exact 7 0 0xD LED.power_on); lia. Defined.

(** C3 as stated fails for the LED program: 10 * 20 = 200 lies inside
    0..255, yet the evaluator returns 99. *)
Lemma led_mul_not_clamped_to_255 :
  fst (LED.doOperation 10 20 0xC LED.power_on) = 99 /\
  clamp 0 255 (10 * 20) = 200.
Proof. split; reflexivity. Qed.

(** C3, amended: for entered operands the 7-segment program clamps the
    product to the interval from -99 to 99, and the LED program caps it at
    [MAX_INPUT] = 99, with no check from below. *)
Theorem mul_saturation_per_variant :
  forall (a b : Z) (sl : LED.State) (ss : SevenSeg.State),
    0 <= a <= 99 -> 0 <= b <= 99 ->
    fst (SevenSeg.doOperation a b 0xC ss) = clamp (-99) 99 (a * b) /\
    fst (LED.doOperation a b 0xC sl) = Z.min 99 (a * b).
Proof.
  intros a b sl ss Ha Hb.
  destruct (int_mul_operands a b Ha Hb) as [Hm Hab].
  split.
  - unfold SevenSeg.doOperation. simpl. rewrite Hm. unfold clamp.
    destruct (Z.gtb_spec (a * b) 99).
    + rewrite limit99_fixed; lia.
    + destruct (Z.ltb_spec (a * b) (-99)); [lia|].
      rewrite limit99_fixed; lia.
  - rewrite led_doOperation_mul. simpl. rewrite Hm. unfold MAX_INPUT.
    destruct (Z.gtb_spec (a * b) 0x63); lia.
Qed.

Lemma mul_saturation_per_variant_witness :
  fst (SevenSeg.doOperation 10 20 0xC SevenSeg.power_on)
    = clamp (-99) 99 (10 * 20) /\
  fst (LED.doOperation 10 20 0xC LED.power_on) = Z.min 99 (10 * 20).
Proof.
  apply (mul_saturation_per_variant 10 20 LED.power_on SevenSeg.power_on); lia.
Defined.

Lemma sevenseg_doOperation_pure (a b op : Z) (s : SevenSeg.State) :
  op = 0xA \/ op = 0xB \/ op = 0xC ->
  snd (SevenSeg.doOperation a b op s) = s.
Proof. intros [-> | [-> | ->]]; reflexivity. Qed.

Lemma led_doOperation_pure (a b op : Z) (s : LED.State) :
  op = 0xA \/ op = 0xB \/ op = 0xC ->
  snd (LED.doOperation a b op s) = s.
Proof. intros [-> | [-> | ->]]; reflexivity. Qed.

(** C5: for entered operands and the operators Add, Sub and Mul the
    evaluator returns a value inside the clamp bounds of its program (-99 to
    99 on the 7-segment display; -127 to 255, the range the LED presenter can
    show, on the LED array); it leaves the machine as it found it, and
    evaluating again in the resulting state returns the same value. *)
Theorem evaluate_bounded_and_repeatable :
  forall (a b op : Z) (sl : LED.State) (ss : SevenSeg.State),
    0 <= a <= 99 -> 0 <= b <= 99 ->
    op = 0xA \/ op = 0xB \/ op = 0xC ->
    -99 <= fst (SevenSeg.doOperation a b op ss) <= 99 /\
    -127 <= fst (LED.doOperation a b op sl) <= 255 /\
    snd (SevenSeg.doOperation a b op ss) = ss /\
    snd (LED.doOperation a b op sl) = sl /\
    fst (SevenSeg.doOperation a b op (snd (SevenSeg.doOperation a b op ss)))
      = fst (SevenSeg.doOperation a b op ss) /\
    fst (LED.doOperation a b op (snd (LED.doOperation a b op sl)))
      = fst (LED.doOperation a b op sl).
Proof.
  intros a b op sl ss Ha Hb Hop.
  pose proof (led_doOperation_range a b op sl Ha Hb Hop) as Hl.
  rewrite (sevenseg_doOperation_pure a b op ss Hop).
  rewrite (led_doOperation_pure a b op sl Hop).
  repeat split; try lia;
    apply (sevenseg_doOperation_in_range a b op ss).
Qed.

Lemma evaluate_bounded_and_repeatable_witness :
  -99 <= fst (SevenSeg.doOperation 99 99 0xA SevenSeg.power_on) <= 99 /\
  -127 <= fst (LED.doOperation 99 99 0xA LED.power_on) <= 255 /\
  snd (SevenSeg.doOperation 99 99 0xA SevenSeg.power_on) = SevenSeg.power_on /\
  snd (LED.doOperation 99 99 0xA LED.power_on) = LED.power_on /\
  fst (SevenSeg.doOperation 99 99 0xA
         (snd (SevenSeg.doOperation 99 99 0xA SevenSeg.power_on)))
    = fst (SevenSeg.doOperation 99 99 0xA SevenSeg.power_on) /\
  fst (LED.doOperation 99 99 0xA
         (snd (LED.doOperation 99 99 0xA LED.power_on)))
    = fst (LED.doOperation 99 99 0xA LED.power_on).
Proof.
  apply (evaluate_bounded_and_repeatable 99 99 0xA LED.power_on
           SevenSeg.power_on); [lia | lia | left; reflexivity].
Defined.

(** * The segment encoder *)


(** * The segment encoder *)

Lemma encodeDigit_operator (digit : Z) :
  0xA <= digit <= 0xD ->
  SevenSeg.encodeDigit digit
  = nth_error SevenSeg.operatorPatterns (Z.to_nat (digit - 0xA)).
Proof.
  intros Hd. unfold SevenSeg.encodeDigit, SevenSeg.array_read.
  destruct (Z.geb_spec digit 0xA); [|lia].
  destruct (Z.leb_spec digit 0xD); [|lia].
  simpl. destruct (Z.ltb_spec (digit - 0xA) 0); [lia|reflexivity].
Qed.

Lemma encodeDigit_decimal (digit : Z) :
  0 <= digit <= 9 ->
  SevenSeg.encodeDigit digit
  = nth_error SevenSeg.digitPatterns (Z.to_nat digit).
Proof.
  intros Hd. unfold SevenSeg.encodeDigit, SevenSeg.array_read.
  destruct (Z.geb_spec digit 0xA); [lia|].
  destruct (Z.geb_spec digit 0); [|lia].
  destruct (Z.leb_spec digit 9); [|lia].
  simpl. destruct (Z.ltb_spec digit 0); [lia|reflexivity].
Qed.

Lemma encodeDigit_minus : SevenSeg.encodeDigit (-1) = Some SevenSeg.PATTERN_MINUS.
Proof. reflexivity. Qed.

Lemma encodeDigit_blank (digit : Z) :
  digit < -1 \/ 0xD < digit ->
  SevenSeg.encodeDigit digit = Some SevenSeg.PATTERN_BLANK.
Proof.
  intros Hd. unfold SevenSeg.encodeDigit.
  destruct (Z.geb_spec digit 0xA); destruct (Z.leb_spec digit 0xD);
    simpl; try lia.
  - destruct (Z.geb_spec digit 0); destruct (Z.leb_spec digit 9);
      simpl; try lia.
    destruct (Z.eqb_spec digit (-1)); [lia|reflexivity].
  - destruct (Z.geb_spec digit 0); destruct (Z.leb_spec digit 9);
      simpl; try lia.
    destruct (Z.eqb_spec digit (-1)); [lia|reflexivity].
Qed.

(** Setting the decimal-point bit keeps a pattern inside eight bits. *)
Lemma lor_dp_range (p : Z) : 0 <= p <= 0x7F -> 0 <= Z.lor p 0x80 <= 0xFF.
Proof.
  intros Hp.
  assert (H0 : 0 <= Z.lor p 0x80) by (apply Z.lor_nonneg; lia).
  split; [assumption|].
  destruct (Z.eq_dec (Z.lor p 0x80) 0) as [-> | Hnz]; [lia|].
  assert (Hlog : Z.log2 (Z.lor p 0x80) < 8).
  { rewrite Z.log2_lor by lia.
    pose proof (Z.log2_le_mono p 0x7F ltac:(lia)) as Hm.
    change (Z.log2 0x7F) with 6 in Hm. change (Z.log2 0x80) with 7. lia. }
  apply Z.log2_lt_pow2 in Hlog; lia.
Qed.

(** Every table entry the encoder can reach fits the seven segment lines. *)
Lemma encodeDigit_some (digit : Z) :
  exists pattern,
    SevenSeg.encodeDigit digit = Some pattern /\ 0 <= pattern <= 0x7F.
Proof.
  destruct (Z_lt_le_dec digit (-1)) as [Hlo | Hlo].
  { exists SevenSeg.PATTERN_BLANK. split.
    - apply encodeDigit_blank. lia.
    - vm_compute. split; discriminate. }
  destruct (Z_lt_le_dec 0xD digit) as [Hhi | Hhi].
  { exists SevenSeg.PATTERN_BLANK. split.
    - apply encodeDigit_blank. lia.
    - vm_compute. split; discriminate. }
  assert (Hcases : digit = -1 \/ digit = 0 \/ digit = 1 \/ digit = 2
                   \/ digit = 3 \/ digit = 4 \/ digit = 5 \/ digit = 6
                   \/ digit = 7 \/ digit = 8 \/ digit = 9 \/ digit = 0xA
                   \/ digit = 0xB \/ digit = 0xC \/ digit = 0xD) by lia.
  repeat (destruct Hcases as [-> | Hcases];
          [ eexists; split; [reflexivity | vm_compute; split; discriminate] | ]).
  subst digit. eexists; split; [reflexivity | vm_compute; split; discriminate].
Qed.

(** C10: [encodeDigit] is defined on every integer and never reads a table
    outside its bounds: it reads [operatorPatterns] at [digit - 0xA] exactly
    for the codes 0xA to 0xD and [digitPatterns] at [digit] exactly for 0
    to 9, both inside the table; -1 gives the minus pattern and every other
    value the blank pattern; [displayDigit] therefore writes a defined
    8-bit pattern to the segment latch for any input. *)
Theorem encodeDigit_defined :
  forall digit : Z,
    exists pattern : Z,
      SevenSeg.encodeDigit digit = Some pattern /\
      0 <= pattern <= 0x7F /\
      (0xA <= digit <= 0xD ->
       0 <= digit - 0xA < Z.of_nat (length SevenSeg.operatorPatterns) /\
       nth_error SevenSeg.operatorPatterns (Z.to_nat (digit - 0xA))
       = Some pattern) /\
      (0 <= digit <= 9 ->
       0 <= digit < Z.of_nat (length SevenSeg.digitPatterns) /\
       nth_error SevenSeg.digitPatterns (Z.to_nat digit) = Some pattern) /\
      (digit = -1 -> pattern = SevenSeg.PATTERN_MINUS) /\
      (digit < -1 \/ 0xD < digit -> pattern = SevenSeg.PATTERN_BLANK) /\
      (forall (position : Z) (dp : bool) (t : io),
          exists written : Z,
            SevenSeg.displayDigit digit position dp t
            = t ++ [LATA 0x00; LATD written;
                    LATA (if position =? 0 then 1 else 2)] /\
            written = (if dp then Z.lor pattern 0x80 else pattern) /\
            0 <= written <= 0xFF).
Proof.
  intros digit.
  destruct (encodeDigit_some digit) as (pattern & Henc & Hrange).
  exists pattern. split; [assumption|]. split; [assumption|].
  split; [|split; [|split; [|split]]].
  - intros Hd. split; [simpl; lia|].
    now rewrite <- encodeDigit_operator.
  - intros Hd. split; [simpl; lia|].
    now rewrite <- encodeDigit_decimal.
  - intros ->. rewrite encodeDigit_minus in Henc. congruence.
  - intros Hd. rewrite (encodeDigit_blank digit Hd) in Henc. congruence.
  - intros position dp t.
    exists (if dp then Z.lor pattern 0x80 else pattern).
    split; [|split].
    + unfold SevenSeg.displayDigit, SevenSeg.encoded. rewrite Henc.
      destruct (position =? 0); reflexivity.
    + reflexivity.
    + destruct dp; [|lia].
      apply lor_dp_range. lia.
Qed.

(** * The LED program: operand entry *)

Arguments LED.blinkLED : simpl never.
Arguments LED.displayBinary : simpl never.

Lemma led_no_key_core (n : nat) (s : LED.State) :
  LED.num11 (LED.no_key n s) = LED.num11 s /\
  LED.num12 (LED.no_key n s) = LED.num12 s /\
  LED.num21 (LED.no_key n s) = LED.num21 s /\
  LED.num22 (LED.no_key n s) = LED.num22 s /\
  LED.num1 (LED.no_key n s) = LED.num1 s /\
  LED.num2 (LED.no_key n s) = LED.num2 s /\
  LED.operator (LED.no_key n s) = LED.operator s /\
  LED.result (LED.no_key n s) = LED.result s /\
  LED.waitingForHashKey (LED.no_key n s) = LED.waitingForHashKey s /\
  LED.validInput (LED.no_key n s) = LED.validInput s /\
  LED.trace (LED.no_key n s) = LED.trace s.
Proof.
  revert s. induction n as [|n IH]; intros s; simpl.
  - repeat split.
  - destruct (IH (LED.set_keyVal (uchar 255) s))
      as (H1 & H2 & H3 & H4 & H5 & H6 & H7 & H8 & H9 & H10 & H11).
    rewrite H1, H2, H3, H4, H5, H6, H7, H8, H9, H10, H11.
    repeat split.
Qed.

Lemma led_no_key_num11 (n : nat) (s : LED.State) :
  LED.num11 (LED.no_key n s) = LED.num11 s.
Proof. apply led_no_key_core. Qed.

Lemma led_no_key_num12 (n : nat) (s : LED.State) :
  LED.num12 (LED.no_key n s) = LED.num12 s.
Proof. apply led_no_key_core. Qed.

Lemma led_no_key_num21 (n : nat) (s : LED.State) :
  LED.num21 (LED.no_key n s) = LED.num21 s.
Proof. apply led_no_key_core. Qed.

Lemma led_no_key_num22 (n : nat) (s : LED.State) :
  LED.num22 (LED.no_key n s) = LED.num22 s.
Proof. apply led_no_key_core. Qed.

Lemma led_no_key_num1 (n : nat) (s : LED.State) :
  LED.num1 (LED.no_key n s) = LED.num1 s.
Proof. apply led_no_key_core. Qed.

Lemma led_no_key_num2 (n : nat) (s : LED.State) :
  LED.num2 (LED.no_key n s) = LED.num2 s.
Proof. apply led_no_key_core. Qed.

Lemma led_no_key_operator (n : nat) (s : LED.State) :
  LED.operator (LED.no_key n s) = LED.operator s.
Proof. apply led_no_key_core. Qed.

Lemma led_no_key_result (n : nat) (s : LED.State) :
  LED.result (LED.no_key n s) = LED.result s.
Proof. apply led_no_key_core. Qed.

Lemma led_no_key_waitingForHashKey (n : nat) (s : LED.State) :
  LED.waitingForHashKey (LED.no_key n s) = LED.waitingForHashKey s.
Proof. apply led_no_key_core. Qed.

Lemma led_no_key_validInput (n : nat) (s : LED.State) :
  LED.validInput (LED.no_key n s) = LED.validInput s.
Proof. apply led_no_key_core. Qed.

Lemma led_no_key_trace (n : nat) (s : LED.State) :
  LED.trace (LED.no_key n s) = LED.trace s.
Proof. apply led_no_key_core. Qed.

Create Rewrite HintDb led_fields.
#[global] Hint Rewrite led_no_key_num11 led_no_key_num12 led_no_key_num21 led_no_key_num22 led_no_key_num1 led_no_key_num2 led_no_key_operator led_no_key_result led_no_key_waitingForHashKey led_no_key_validInput led_no_key_trace
  : led_fields.

Lemma led_getNum1_first_idle (n : nat) (s : LED.State) (ks : list Z) :
  LED.getNum1_first s (idle n ++ ks) = LED.getNum1_first (LED.no_key n s) ks.
Proof.
  revert s. induction n as [|n IH]; intros s; [reflexivity|].
  simpl. apply IH.
Qed.

Lemma led_getNum1_second_idle (n : nat) (s : LED.State) (ks : list Z) :
  LED.getNum1_second s (idle n ++ ks) = LED.getNum1_second (LED.no_key n s) ks.
Proof.
  revert s. induction n as [|n IH]; intros s; [reflexivity|].
  simpl. apply IH.
Qed.

Lemma led_getNum2_first_idle (n : nat) (s : LED.State) (ks : list Z) :
  LED.getNum2_first s (idle n ++ ks) = LED.getNum2_first (LED.no_key n s) ks.
Proof.
  revert s. induction n as [|n IH]; intros s; [reflexivity|].
  simpl. apply IH.
Qed.

Lemma led_getNum2_second_idle (n : nat) (s : LED.State) (ks : list Z) :
  LED.getNum2_second s (idle n ++ ks) = LED.getNum2_second (LED.no_key n s) ks.
Proof.
  revert s. induction n as [|n IH]; intros s; [reflexivity|].
  simpl. apply IH.
Qed.

Lemma led_getOperator_loop_idle (n : nat) (s : LED.State) (ks : list Z) :
  LED.getOperator_loop s (idle n ++ ks)
  = LED.getOperator_loop (LED.no_key n s) ks.
Proof.
  revert s. induction n as [|n IH]; intros s; [reflexivity|].
  simpl. apply IH.
Qed.

(** Deciding the comparisons of a key code against the constants of the
    source. *)
Ltac key_tests :=
  repeat match goal with
         | |- context [?a =? ?b] => destruct (Z.eqb_spec a b); try lia
         | |- context [?a <=? ?b] => destruct (Z.leb_spec a b); try lia
         | |- context [?a >=? ?b] => destruct (Z.geb_spec a b); try lia
         | |- context [?a >? ?b] => destruct (Z.gtb_spec a b); try lia
         | |- context [?a <? ?b] => destruct (Z.ltb_spec a b); try lia
         end.

Lemma two_digits_value (d1 d2 : Z) :
  is_digit d1 -> is_digit d2 ->
  int_add (int_mul d1 10) d2 = 10 * d1 + d2 /\ 0 <= 10 * d1 + d2 <= 99.
Proof.
  unfold is_digit, int_add, int_mul. intros H1 H2.
  rewrite (wrap16_small (d1 * 10)) by lia.
  rewrite wrap16_small by lia. lia.
Qed.

Lemma led_getNum1_first_digit (s : LED.State) (d : Z) (ks : list Z) :
  is_digit d ->
  LED.getNum1_first s (d :: ks)
  = LED.getNum1_second
      (LED.out [LATD 0x01; delay_ms 500]
         (LED.set_validInput true (LED.set_num11 d (LED.set_keyVal d s)))) ks.
Proof.
  unfold is_digit. intros Hd. simpl.
  rewrite (uchar_small d) by lia. key_tests. reflexivity.
Qed.

Lemma led_getNum1_second_digit (s : LED.State) (d : Z) (ks : list Z) :
  is_digit (LED.num11 s) -> is_digit d ->
  exists s',
    LED.getNum1_second s (d :: ks) = Ret (10 * LED.num11 s + d) s' ks /\
    LED.num1 s' = 10 * LED.num11 s + d /\
    LED.core s'
    = (LED.num21 s, LED.num22 s, 10 * LED.num11 s + d, LED.num2 s,
       LED.operator s, d, LED.result s, LED.waitingForHashKey s,
       LED.validInput s).
Proof.
  intros H1 Hd.
  destruct (two_digits_value _ _ H1 Hd) as [Hv Hr].
  unfold is_digit in Hd. simpl.
  rewrite (uchar_small d) by lia. rewrite Hv. unfold MAX_INPUT.
  key_tests. eexists. split; [reflexivity|]. split; reflexivity.
Qed.

Lemma led_getNum1_second_operator (s : LED.State) (op : Z) (ks : list Z) :
  is_operator op ->
  LED.getNum1_second s (op :: ks)
  = Ret (LED.num11 s)
      (LED.set_operator op (LED.set_num1 (LED.num11 s) (LED.set_keyVal op s)))
      ks.
Proof.
  unfold is_operator. intros Hop. simpl.
  rewrite (uchar_small op) by lia. key_tests. reflexivity.
Qed.

Lemma led_getNum2_first_digit (s : LED.State) (d : Z) (ks : list Z) :
  is_digit d ->
  LED.getNum2_first s (d :: ks)
  = LED.getNum2_second
      (LED.out [LATD 0x02; delay_ms 500]
         (LED.set_validInput true (LED.set_num21 d (LED.set_keyVal d s)))) ks.
Proof.
  unfold is_digit. intros Hd. simpl.
  rewrite (uchar_small d) by lia. key_tests. reflexivity.
Qed.

Lemma led_getNum2_second_digit (s : LED.State) (d : Z) (ks : list Z) :
  is_digit (LED.num21 s) -> is_digit d ->
  exists s',
    LED.getNum2_second s (d :: ks) = Ret (10 * LED.num21 s + d) s' ks /\
    LED.num2 s' = 10 * LED.num21 s + d /\
    LED.waitingForHashKey s' = true.
Proof.
  intros H1 Hd.
  destruct (two_digits_value _ _ H1 Hd) as [Hv Hr].
  unfold is_digit in Hd. simpl.
  rewrite (uchar_small d) by lia. rewrite Hv. unfold MAX_INPUT.
  key_tests. eexists. split; [reflexivity|]. split; reflexivity.
Qed.

(** Two digits entered into [getNum1], whatever idle scans separate them. *)
Lemma led_getNum1_two_digits (s : LED.State) (d1 d2 : Z) (n m : nat)
  (ks : list Z) :
  is_digit d1 -> is_digit d2 ->
  exists s',
    LED.getNum1 s (idle n ++ d1 :: idle m ++ d2 :: ks)
    = Ret (10 * d1 + d2) s' ks /\
    LED.num1 s' = 10 * d1 + d2 /\
    LED.core s'
    = (LED.num21 s, LED.num22 s, 10 * d1 + d2, LED.num2 s,
       LED.operator s, d2, LED.result s, LED.waitingForHashKey s, true).
Proof.
  intros H1 H2. unfold LED.getNum1.
  rewrite led_getNum1_first_idle, led_getNum1_first_digit by assumption.
  rewrite led_getNum1_second_idle.
  match goal with
  | |- context [LED.getNum1_second ?st (d2 :: ks)] =>
      assert (E11 : LED.num11 st = d1)
        by (autorewrite with led_fields; reflexivity);
      destruct (led_getNum1_second_digit st d2 ks) as (s' & Hs' & Hn & Hc);
      [rewrite E11; assumption | assumption |]
  end.
  exists s'. rewrite Hs', Hn, Hc, E11.
  autorewrite with led_fields. simpl. autorewrite with led_fields. simpl.
  repeat split.
Qed.

(** One digit entered into [getNum1] and closed by an operator key. *)
Lemma led_getNum1_digit_operator (s : LED.State) (d op : Z) (n m : nat)
  (ks : list Z) :
  is_digit d -> is_operator op ->
  exists s',
    LED.getNum1 s (idle n ++ d :: idle m ++ op :: ks) = Ret d s' ks /\
    LED.core s'
    = (LED.num21 s, LED.num22 s, d, LED.num2 s,
       op, op, LED.result s, LED.waitingForHashKey s, true).
Proof.
  intros Hd Hop. unfold LED.getNum1.
  rewrite led_getNum1_first_idle, led_getNum1_first_digit by assumption.
  rewrite led_getNum1_second_idle, led_getNum1_second_operator by assumption.
  eexists. split.
  - autorewrite with led_fields. simpl. reflexivity.
  - unfold LED.core. simpl. autorewrite with led_fields. simpl.
    autorewrite with led_fields. reflexivity.
Qed.

(** Two digits entered into [getNum2]. *)
Lemma led_getNum2_two_digits (s : LED.State) (d1 d2 : Z) (n m : nat)
  (ks : list Z) :
  is_digit d1 -> is_digit d2 ->
  exists s',
    LED.getNum2 s (idle n ++ d1 :: idle m ++ d2 :: ks)
    = Ret (10 * d1 + d2) s' ks /\
    LED.num2 s' = 10 * d1 + d2 /\
    LED.waitingForHashKey s' = true.
Proof.
  intros H1 H2. unfold LED.getNum2.
  rewrite led_getNum2_first_idle, led_getNum2_first_digit by assumption.
  rewrite led_getNum2_second_idle.
  match goal with
  | |- context [LED.getNum2_second ?st (d2 :: ks)] =>
      assert (E21 : LED.num21 st = d1)
        by (autorewrite with led_fields; reflexivity);
      destruct (led_getNum2_second_digit st d2 ks) as (s' & Hs' & Hn & Hw);
      [rewrite E21; assumption | assumption |]
  end.
  exists s'. rewrite Hs', Hn, E21. repeat split. assumption.
Qed.

(** * The LED program: the second half of a pass reads only the core *)

Ltac split_ifs :=
  repeat (match goal with
          | |- context [if ?b then _ else _] => destruct b
          end; simpl).

(** Two states with the same core, brought to constructor form with the
    shared fields identified. *)
Ltac led_same_core s t H :=
  destruct s, t; unfold LED.core in H; simpl in H;
  injection H as; subst.

Lemma led_getNum2_second_core (ks : list Z) :
  forall s t : LED.State,
    LED.core s = LED.core t ->
    LED.same_core (LED.getNum2_second s ks) (LED.getNum2_second t ks).
Proof.
  induction ks as [|k ks IH]; intros s t H.
  - simpl. auto.
  - led_same_core s t H. simpl. split_ifs;
      first [ apply IH; reflexivity | simpl; repeat split ].
Qed.

Lemma led_getNum2_first_core (ks : list Z) :
  forall s t : LED.State,
    LED.core s = LED.core t ->
    LED.same_core (LED.getNum2_first s ks) (LED.getNum2_first t ks).
Proof.
  induction ks as [|k ks IH]; intros s t H.
  - simpl. auto.
  - led_same_core s t H. simpl. split_ifs;
      first [ apply IH; reflexivity
            | apply led_getNum2_second_core; reflexivity
            | simpl; repeat split ].
Qed.

Lemma led_getNum2_core (ks : list Z) (s t : LED.State) :
  LED.core s = LED.core t ->
  LED.same_core (LED.getNum2 s ks) (LED.getNum2 t ks).
Proof.
  intros H. unfold LED.getNum2. apply led_getNum2_first_core.
  led_same_core s t H. reflexivity.
Qed.

Lemma led_wait_reset_core (w : waitpoint) (ks : list Z) :
  forall s t : LED.State,
    LED.core s = LED.core t ->
    LED.same_core (LED.wait_reset w s ks) (LED.wait_reset w t ks).
Proof.
  induction ks as [|k ks IH]; intros s t H.
  - simpl. auto.
  - led_same_core s t H. simpl. split_ifs;
      first [ apply IH; reflexivity | simpl; repeat split ].
Qed.

Lemma led_blink_loop_core (number : Z) (ks : list Z) :
  forall (counter : Z) (state : bool) (s t : LED.State),
    LED.core s = LED.core t ->
    LED.same_core (LED.blink_loop number counter state s ks)
                  (LED.blink_loop number counter state t ks).
Proof.
  induction ks as [|k ks IH]; intros counter state s t H.
  - led_same_core s t H. simpl. split_ifs; simpl; auto.
  - led_same_core s t H. simpl. split_ifs;
      first [ apply IH; reflexivity | simpl; repeat split ].
Qed.

Lemma led_displayBinaryWithBlink_core (number : Z) (ks : list Z)
  (s t : LED.State) :
  LED.core s = LED.core t ->
  LED.same_core (LED.displayBinaryWithBlink number s ks)
                (LED.displayBinaryWithBlink number t ks).
Proof.
  intros H. unfold LED.displayBinaryWithBlink.
  destruct (number <? 0).
  - now apply led_blink_loop_core.
  - led_same_core s t H. simpl. repeat split.
Qed.

Lemma led_after_display_core (o1 o2 : outcome LED.State unit) :
  LED.same_core o1 o2 ->
  LED.same_core
    match o1 with
    | Wait w s => Wait w s
    | Ret _ s ks =>
        if LED.result s >=? 0 then LED.wait_reset WResult s ks
        else Ret tt s ks
    end
    match o2 with
    | Wait w s => Wait w s
    | Ret _ s ks =>
        if LED.result s >=? 0 then LED.wait_reset WResult s ks
        else Ret tt s ks
    end.
Proof.
  destruct o1 as [[] s1 ks1 | w1 s1], o2 as [[] s2 ks2 | w2 s2];
    simpl; try contradiction; [|auto].
  intros (_ & -> & H).
  assert (Hr : LED.result s1 = LED.result s2)
    by (unfold LED.core in H; congruence).
  rewrite Hr. destruct (LED.result s2 >=? 0).
  - now apply led_wait_reset_core.
  - simpl. auto.
Qed.

Lemma led_displayResult_loop_core (ks : list Z) :
  forall s t : LED.State,
    LED.core s = LED.core t ->
    LED.same_core (LED.displayResult_loop s ks) (LED.displayResult_loop t ks).
Proof.
  induction ks as [|k ks IH]; intros s t H.
  - simpl. auto.
  - led_same_core s t H. simpl. unfold LED.doOperation. split_ifs;
      first [ apply IH; reflexivity
            | apply led_wait_reset_core; reflexivity
            | apply led_after_display_core;
              apply led_displayBinaryWithBlink_core; reflexivity
            | simpl; repeat split ].
Qed.

Lemma led_displayResult_core (ks : list Z) (s t : LED.State) :
  LED.core s = LED.core t ->
  LED.same_core (LED.displayResult s ks) (LED.displayResult t ks).
Proof.
  intros H. unfold LED.displayResult. apply led_displayResult_loop_core.
  led_same_core s t H. simpl. split_ifs; reflexivity.
Qed.

Lemma led_second_half_core (ks : list Z) (s t : LED.State) :
  LED.core s = LED.core t ->
  LED.same_core (LED.second_half s ks) (LED.second_half t ks).
Proof.
  intros H. unfold LED.second_half.
  pose proof (led_getNum2_core ks s t H) as Hg.
  destruct (LED.getNum2 s ks) as [v1 s1 ks1 | w1 s1],
           (LED.getNum2 t ks) as [v2 s2 ks2 | w2 s2];
    simpl in Hg; try contradiction; [|exact Hg].
  destruct Hg as (-> & -> & Hc). led_same_core s1 s2 Hc. simpl.
  destruct (v2 =? 255); [simpl; repeat split|].
  match goal with
  | |- LED.same_core (match LED.displayResult ?a ?k with _ => _ end)
                     (match LED.displayResult ?b ?k with _ => _ end) =>
      pose proof (led_displayResult_core k a b eq_refl) as Hd;
      destruct (LED.displayResult a k) as [[] s3 ks3 | w3 s3],
               (LED.displayResult b k) as [[] s4 ks4 | w4 s4];
      simpl in Hd; try contradiction; [|exact Hd]
  end.
  destruct Hd as (_ & -> & Hc). led_same_core s3 s4 Hc.
  simpl. repeat split.
Qed.

(** A pass of [main] splits at the call of [getNum2]. *)
Lemma led_cycle_second_half (s : LED.State) (ks : list Z) :
  LED.cycle s ks
  = match LED.getNum1 (LED.resetCalculator s) ks with
    | Wait w s => Wait w s
    | Ret v s ks =>
        let s := LED.out [LATD 0x01] (LED.set_num1 v s) in
        if LED.num1 s =? 0xFF then Ret tt s ks else
        match LED.getOperator s ks with
        | Wait w s => Wait w s
        | Ret v s ks =>
            let s := LED.out [LATD 0x04] (LED.set_operator v s) in
            if LED.operator s =? 0 then Ret tt s ks
            else LED.second_half s ks
        end
    end.
Proof. reflexivity. Qed.

(** * The LED program: a leading zero does not change the pass *)

Lemma led_getOperator_loop_operator (s : LED.State) (op : Z) (ks : list Z) :
  is_operator op ->
  LED.getOperator_loop s (op :: ks)
  = Ret op (LED.out [LATD 0x04; delay_ms 500] (LED.set_keyVal op s)) ks.
Proof.
  unfold is_operator. intros Hop. simpl.
  rewrite (uchar_small op) by lia. key_tests. reflexivity.
Qed.

(** From the digit [d] and the operator key, and from [0], [d] and the
    operator key, a pass reaches [getNum2] with the same core. *)
Lemma led_leading_zero_core (s : LED.State) (d op : Z) (n m n' p m' : nat)
  (rest : list Z) :
  is_digit d -> is_operator op ->
  LED.same_core
    (LED.cycle s (idle n ++ d :: idle m ++ op :: rest))
    (LED.cycle s (idle n' ++ 0 :: idle p ++ d :: idle m' ++ op :: rest)).
Proof.
  intros Hd Hop. rewrite !led_cycle_second_half.
  destruct (led_getNum1_digit_operator (LED.resetCalculator s) d op n m rest
              Hd Hop) as (s1 & E1 & C1).
  assert (H0 : is_digit 0) by (unfold is_digit; lia).
  destruct (led_getNum1_two_digits (LED.resetCalculator s) 0 d n' p
              (idle m' ++ op :: rest) H0 Hd) as (s2 & E2 & _ & C2).
  rewrite E1, E2. clear E1 E2.
  unfold LED.core in C1, C2. simpl in C1, C2.
  injection C1 as A1 A2 A3 A4 A5 A6 A7 A8 A9.
  injection C2 as B1 B2 B3 B4 B5 B6 B7 B8 B9.
  unfold is_digit in Hd. unfold is_operator in Hop.
  cbv zeta. simpl (LED.num1 _).
  destruct (Z.eqb_spec d 255); [lia|].
  destruct (Z.eqb_spec (10 * 0 + d) 255); [lia|].
  unfold LED.getOperator. simpl (LED.operator _). rewrite A5, B5.
  destruct (Z.geb_spec op 10); [|lia]. destruct (Z.leb_spec op 13); [|lia].
  simpl (_ && _). cbv iota.
  rewrite led_getOperator_loop_idle.
  rewrite led_getOperator_loop_operator by (unfold is_operator; lia).
  cbv zeta. simpl (LED.operator _).
  destruct (Z.eqb_spec op 0); [lia|].
  apply led_second_half_core.
  unfold LED.core. simpl. autorewrite with led_fields. simpl.
  rewrite A1, A2, A4, A6, A7, A8, A9, B1, B2, B4, B7, B8, B9. reflexivity.
Qed.

(** * The 7-segment program: the display routines *)

Arguments SevenSeg.displayDigit : simpl never.
Arguments SevenSeg.displayNumber : simpl never.
Arguments SevenSeg.blinkDisplay : simpl never.
Arguments SevenSeg.showOperator : simpl never.
Arguments SevenSeg.showOperatorAndNum1 : simpl never.
Arguments SevenSeg.showDivideError : simpl never.
Arguments SevenSeg.scanKeypad : simpl never.
Arguments Nat.iter : simpl never.

(** [updateDisplay] is never called with [DISPLAY_OPERATOR]; for the four
    modes the programs use, it is a refresh between two assignments. *)
Lemma seg_updateDisplay_NUM1 (value : Z) (s : SevenSeg.State) :
  SevenSeg.updateDisplay value SevenSeg.DISPLAY_NUM1 s
  = SevenSeg.set_previousMode SevenSeg.DISPLAY_NUM1
      (SevenSeg.refreshDisplay value
         (SevenSeg.set_displayMode SevenSeg.DISPLAY_NUM1 s)).
Proof.
  unfold SevenSeg.updateDisplay. simpl.
  destruct (SevenSeg.previousMode s =? SevenSeg.DISPLAY_NUM1); reflexivity.
Qed.

Lemma seg_updateDisplay_NUM2 (value : Z) (s : SevenSeg.State) :
  SevenSeg.updateDisplay value SevenSeg.DISPLAY_NUM2 s
  = SevenSeg.set_previousMode SevenSeg.DISPLAY_NUM2
      (SevenSeg.refreshDisplay value
         (SevenSeg.set_displayMode SevenSeg.DISPLAY_NUM2 s)).
Proof.
  unfold SevenSeg.updateDisplay. simpl.
  destruct (SevenSeg.previousMode s =? SevenSeg.DISPLAY_NUM1); reflexivity.
Qed.

Lemma seg_updateDisplay_RESULT (value : Z) (s : SevenSeg.State) :
  SevenSeg.updateDisplay value SevenSeg.DISPLAY_RESULT s
  = SevenSeg.set_previousMode SevenSeg.DISPLAY_RESULT
      (SevenSeg.refreshDisplay value
         (SevenSeg.set_displayMode SevenSeg.DISPLAY_RESULT s)).
Proof.
  unfold SevenSeg.updateDisplay. simpl.
  destruct (SevenSeg.previousMode s =? SevenSeg.DISPLAY_NUM1); reflexivity.
Qed.

Lemma seg_updateDisplay_RESET (value : Z) (s : SevenSeg.State) :
  SevenSeg.updateDisplay value SevenSeg.DISPLAY_RESET s
  = SevenSeg.set_previousMode SevenSeg.DISPLAY_RESET
      (SevenSeg.refreshDisplay 0
         (SevenSeg.set_displayMode SevenSeg.DISPLAY_RESET s)).
Proof.
  unfold SevenSeg.updateDisplay. simpl.
  destruct (SevenSeg.previousMode s =? SevenSeg.DISPLAY_NUM1); reflexivity.
Qed.

Create Rewrite HintDb seg_display.
#[global] Hint Rewrite seg_updateDisplay_NUM1 seg_updateDisplay_NUM2
  seg_updateDisplay_RESULT seg_updateDisplay_RESET : seg_display.

(** What a scan leaves alone. *)
Lemma seg_scanKeypad_fields (s : SevenSeg.State) (k : Z) :
  SevenSeg.keyVal (SevenSeg.scanKeypad s k) = uchar k /\
  SevenSeg.num1_tens (SevenSeg.scanKeypad s k) = SevenSeg.num1_tens s /\
  SevenSeg.num1_units (SevenSeg.scanKeypad s k) = SevenSeg.num1_units s /\
  SevenSeg.num2_tens (SevenSeg.scanKeypad s k) = SevenSeg.num2_tens s /\
  SevenSeg.num2_units (SevenSeg.scanKeypad s k) = SevenSeg.num2_units s /\
  SevenSeg.num1 (SevenSeg.scanKeypad s k) = SevenSeg.num1 s /\
  SevenSeg.num2 (SevenSeg.scanKeypad s k) = SevenSeg.num2 s /\
  SevenSeg.operator (SevenSeg.scanKeypad s k) = SevenSeg.operator s /\
  SevenSeg.result (SevenSeg.scanKeypad s k) = SevenSeg.result s /\
  SevenSeg.displayMode (SevenSeg.scanKeypad s k) = SevenSeg.displayMode s /\
  SevenSeg.waitingForHashKey (SevenSeg.scanKeypad s k)
  = SevenSeg.waitingForHashKey s /\
  SevenSeg.validInput (SevenSeg.scanKeypad s k) = SevenSeg.validInput s /\
  SevenSeg.currentDisplayValue (SevenSeg.scanKeypad s k)
  = SevenSeg.currentDisplayValue s /\
  SevenSeg.isDisplayNegative (SevenSeg.scanKeypad s k)
  = SevenSeg.isDisplayNegative s /\
  SevenSeg.previousMode (SevenSeg.scanKeypad s k) = SevenSeg.previousMode s.
Proof.
  unfold SevenSeg.scanKeypad.
  destruct ((SevenSeg.displayMode s =? SevenSeg.DISPLAY_NUM1)
            || (SevenSeg.displayMode s =? SevenSeg.DISPLAY_NUM2)
            || (SevenSeg.displayMode s =? SevenSeg.DISPLAY_RESULT)
            || (SevenSeg.displayMode s =? SevenSeg.DISPLAY_RESET));
    [repeat split|].
  destruct (SevenSeg.displayMode s =? SevenSeg.DISPLAY_OPERATOR);
    [|repeat split].
  destruct (negb (int_rem (SevenSeg.displayToggle s) 3 =? 0)); repeat split.
Qed.

Lemma seg_scanKeypad_core (k : Z) (s t : SevenSeg.State) :
  SevenSeg.core s = SevenSeg.core t ->
  SevenSeg.core (SevenSeg.scanKeypad s k)
  = SevenSeg.core (SevenSeg.scanKeypad t k).
Proof.
  intros H. destruct s, t; unfold SevenSeg.core in H; simpl in H.
  injection H as; subst.
  unfold SevenSeg.scanKeypad. simpl.
  repeat match goal with
         | |- context [if ?b then _ else _] => destruct b
         end; reflexivity.
Qed.

(** * The 7-segment program: the second half of a pass reads only the core *)

Ltac seg_same_core s t H :=
  destruct s, t; unfold SevenSeg.core in H; simpl in H;
  injection H as; subst.

(** One iteration of a polling loop, run from two states with the same
    core: the scan gives two states with the same core again. *)
Ltac seg_scan_step s t k H :=
  unfold SevenSeg.resetCalculator;
  autorewrite with seg_display;
  pose proof (seg_scanKeypad_core k s t H) as Hscan;
  revert Hscan;
  generalize (SevenSeg.scanKeypad s k) (SevenSeg.scanKeypad t k);
  clear s t H; intros s t H;
  seg_same_core s t H; simpl.

Lemma seg_getNum2_second_core (ks : list Z) :
  forall s t : SevenSeg.State,
    SevenSeg.core s = SevenSeg.core t ->
    SevenSeg.same_core (SevenSeg.getNum2_second s ks)
                       (SevenSeg.getNum2_second t ks).
Proof.
  induction ks as [|k ks IH]; intros s t H.
  - simpl. auto.
  - cbn [SevenSeg.getNum2_second]. seg_scan_step s t k H. split_ifs;
      first [ apply IH; reflexivity | simpl; repeat split ].
Qed.

Lemma seg_getNum2_first_core (ks : list Z) :
  forall s t : SevenSeg.State,
    SevenSeg.core s = SevenSeg.core t ->
    SevenSeg.same_core (SevenSeg.getNum2_first s ks)
                       (SevenSeg.getNum2_first t ks).
Proof.
  induction ks as [|k ks IH]; intros s t H.
  - simpl. auto.
  - cbn [SevenSeg.getNum2_first]. seg_scan_step s t k H. split_ifs;
      first [ apply IH; reflexivity
            | apply seg_getNum2_second_core; reflexivity
            | simpl; repeat split ].
Qed.

Lemma seg_getNum2_core (ks : list Z) (s t : SevenSeg.State) :
  SevenSeg.core s = SevenSeg.core t ->
  SevenSeg.same_core (SevenSeg.getNum2 s ks) (SevenSeg.getNum2 t ks).
Proof.
  intros H. unfold SevenSeg.getNum2. autorewrite with seg_display.
  apply seg_getNum2_first_core. seg_same_core s t H. reflexivity.
Qed.

Lemma seg_wait_reset_core (w : waitpoint) (ks : list Z) :
  forall s t : SevenSeg.State,
    SevenSeg.core s = SevenSeg.core t ->
    SevenSeg.same_core (SevenSeg.wait_reset w s ks)
                       (SevenSeg.wait_reset w t ks).
Proof.
  induction ks as [|k ks IH]; intros s t H.
  - simpl. auto.
  - cbn [SevenSeg.wait_reset]. seg_scan_step s t k H. split_ifs;
      first [ apply IH; reflexivity | simpl; repeat split ].
Qed.

Lemma seg_displayResult_loop_core (ks : list Z) :
  forall s t : SevenSeg.State,
    SevenSeg.core s = SevenSeg.core t ->
    SevenSeg.same_core (SevenSeg.displayResult_loop s ks)
                       (SevenSeg.displayResult_loop t ks).
Proof.
  induction ks as [|k ks IH]; intros s t H.
  - simpl. auto.
  - cbn [SevenSeg.displayResult_loop]. seg_scan_step s t k H.
    unfold SevenSeg.doOperation. split_ifs;
      autorewrite with seg_display;
      first [ apply IH; reflexivity
            | apply seg_wait_reset_core; reflexivity
            | simpl; repeat split ].
Qed.

Lemma seg_displayResult_core (ks : list Z) (s t : SevenSeg.State) :
  SevenSeg.core s = SevenSeg.core t ->
  SevenSeg.same_core (SevenSeg.displayResult s ks)
                     (SevenSeg.displayResult t ks).
Proof.
  intros H. unfold SevenSeg.displayResult. apply seg_displayResult_loop_core.
  seg_same_core s t H. simpl.
  destruct (negb waitingForHashKey0); reflexivity.
Qed.

Lemma seg_second_half_core (ks : list Z) (s t : SevenSeg.State) :
  SevenSeg.core s = SevenSeg.core t ->
  SevenSeg.same_core (SevenSeg.second_half s ks) (SevenSeg.second_half t ks).
Proof.
  intros H. unfold SevenSeg.second_half.
  assert (Hc : SevenSeg.currentDisplayValue s = SevenSeg.currentDisplayValue t)
    by (unfold SevenSeg.core in H; congruence).
  rewrite Hc. generalize (SevenSeg.currentDisplayValue t). intros saved.
  pose proof (seg_getNum2_core ks s t H) as Hg.
  destruct (SevenSeg.getNum2 s ks) as [v1 s1 ks1 | w1 s1],
           (SevenSeg.getNum2 t ks) as [v2 s2 ks2 | w2 s2];
    simpl in Hg; try contradiction; [|exact Hg].
  destruct Hg as (-> & -> & Hg). seg_same_core s1 s2 Hg. simpl.
  destruct (v2 =? 255); [simpl; repeat split|].
  match goal with
  | |- SevenSeg.same_core
         (match SevenSeg.displayResult ?a ?k with _ => _ end)
         (match SevenSeg.displayResult ?b ?k with _ => _ end) =>
      pose proof (seg_displayResult_core k a b eq_refl) as Hd;
      destruct (SevenSeg.displayResult a k) as [[] s3 ks3 | w3 s3],
               (SevenSeg.displayResult b k) as [[] s4 ks4 | w4 s4];
      simpl in Hd; try contradiction; [|exact Hd]
  end.
  destruct Hd as (_ & -> & Hd). seg_same_core s3 s4 Hd.
  simpl. repeat split.
Qed.

(** A pass of [main] splits at the declaration of [savedNum1]. *)
Lemma seg_cycle_second_half (s : SevenSeg.State) (ks : list Z) :
  SevenSeg.cycle s ks
  = match SevenSeg.getNum1 (SevenSeg.resetCalculator s) ks with
    | Wait w s => Wait w s
    | Ret v s ks =>
        let s := SevenSeg.set_num1 v s in
        if SevenSeg.num1 s =? 0xFF then Ret tt s ks else
        let s := SevenSeg.set_currentDisplayValue (SevenSeg.num1 s) s in
        match SevenSeg.getOperator s ks with
        | Wait w s => Wait w s
        | Ret v s ks =>
            let s := SevenSeg.set_operator v s in
            if SevenSeg.operator s =? 0 then Ret tt s ks
            else SevenSeg.second_half s ks
        end
    end.
Proof. reflexivity. Qed.

(** * The 7-segment program: operand entry *)

(** Reducing the field accesses of a state built by assignments, without
    unfolding the routines. *)
Ltac seg_proj :=
  cbn [SevenSeg.num1_tens SevenSeg.num1_units SevenSeg.num2_tens SevenSeg.num2_units SevenSeg.num1 SevenSeg.num2 SevenSeg.operator SevenSeg.keyVal SevenSeg.result SevenSeg.displayMode SevenSeg.waitingForHashKey SevenSeg.validInput SevenSeg.currentDisplayValue SevenSeg.isDisplayNegative SevenSeg.previousMode SevenSeg.displayToggle SevenSeg.trace
       SevenSeg.set_num1_tens SevenSeg.set_num1_units SevenSeg.set_num2_tens SevenSeg.set_num2_units SevenSeg.set_num1 SevenSeg.set_num2 SevenSeg.set_operator SevenSeg.set_keyVal SevenSeg.set_result SevenSeg.set_displayMode SevenSeg.set_waitingForHashKey SevenSeg.set_validInput SevenSeg.set_currentDisplayValue SevenSeg.set_isDisplayNegative SevenSeg.set_previousMode SevenSeg.set_displayToggle SevenSeg.set_trace
       SevenSeg.out SevenSeg.on_io SevenSeg.refreshDisplay].

Create Rewrite HintDb seg_fields.

Lemma seg_scanKeypad_keyVal (s : SevenSeg.State) (k : Z) :
  SevenSeg.keyVal (SevenSeg.scanKeypad s k) = uchar k.
Proof. apply seg_scanKeypad_fields. Qed.

Lemma seg_scanKeypad_num1_tens (s : SevenSeg.State) (k : Z) :
  SevenSeg.num1_tens (SevenSeg.scanKeypad s k) = SevenSeg.num1_tens s.
Proof. apply seg_scanKeypad_fields. Qed.

Lemma seg_scanKeypad_num1_units (s : SevenSeg.State) (k : Z) :
  SevenSeg.num1_units (SevenSeg.scanKeypad s k) = SevenSeg.num1_units s.
Proof. apply seg_scanKeypad_fields. Qed.

Lemma seg_scanKeypad_num2_tens (s : SevenSeg.State) (k : Z) :
  SevenSeg.num2_tens (SevenSeg.scanKeypad s k) = SevenSeg.num2_tens s.
Proof. apply seg_scanKeypad_fields. Qed.

Lemma seg_scanKeypad_num2_units (s : SevenSeg.State) (k : Z) :
  SevenSeg.num2_units (SevenSeg.scanKeypad s k) = SevenSeg.num2_units s.
Proof. apply seg_scanKeypad_fields. Qed.

Lemma seg_scanKeypad_num1 (s : SevenSeg.State) (k : Z) :
  SevenSeg.num1 (SevenSeg.scanKeypad s k) = SevenSeg.num1 s.
Proof. apply seg_scanKeypad_fields. Qed.

Lemma seg_scanKeypad_num2 (s : SevenSeg.State) (k : Z) :
  SevenSeg.num2 (SevenSeg.scanKeypad s k) = SevenSeg.num2 s.
Proof. apply seg_scanKeypad_fields. Qed.

Lemma seg_scanKeypad_operator (s : SevenSeg.State) (k : Z) :
  SevenSeg.operator (SevenSeg.scanKeypad s k) = SevenSeg.operator s.
Proof. apply seg_scanKeypad_fields. Qed.

Lemma seg_scanKeypad_result (s : SevenSeg.State) (k : Z) :
  SevenSeg.result (SevenSeg.scanKeypad s k) = SevenSeg.result s.
Proof. apply seg_scanKeypad_fields. Qed.

Lemma seg_scanKeypad_displayMode (s : SevenSeg.State) (k : Z) :
  SevenSeg.displayMode (SevenSeg.scanKeypad s k) = SevenSeg.displayMode s.
Proof. apply seg_scanKeypad_fields. Qed.

Lemma seg_scanKeypad_waitingForHashKey (s : SevenSeg.State) (k : Z) :
  SevenSeg.waitingForHashKey (SevenSeg.scanKeypad s k) = SevenSeg.waitingForHashKey s.
Proof. apply seg_scanKeypad_fields. Qed.

Lemma seg_scanKeypad_validInput (s : SevenSeg.State) (k : Z) :
  SevenSeg.validInput (SevenSeg.scanKeypad s k) = SevenSeg.validInput s.
Proof. apply seg_scanKeypad_fields. Qed.

Lemma seg_scanKeypad_currentDisplayValue (s : SevenSeg.State) (k : Z) :
  SevenSeg.currentDisplayValue (SevenSeg.scanKeypad s k) = SevenSeg.currentDisplayValue s.
Proof. apply seg_scanKeypad_fields. Qed.

Lemma seg_scanKeypad_isDisplayNegative (s : SevenSeg.State) (k : Z) :
  SevenSeg.isDisplayNegative (SevenSeg.scanKeypad s k) = SevenSeg.isDisplayNegative s.
Proof. apply seg_scanKeypad_fields. Qed.

Lemma seg_scanKeypad_previousMode (s : SevenSeg.State) (k : Z) :
  SevenSeg.previousMode (SevenSeg.scanKeypad s k) = SevenSeg.previousMode s.
Proof. apply seg_scanKeypad_fields. Qed.

#[global] Hint Rewrite seg_scanKeypad_keyVal seg_scanKeypad_num1_tens seg_scanKeypad_num1_units seg_scanKeypad_num2_tens seg_scanKeypad_num2_units seg_scanKeypad_num1 seg_scanKeypad_num2 seg_scanKeypad_operator seg_scanKeypad_result seg_scanKeypad_displayMode seg_scanKeypad_waitingForHashKey seg_scanKeypad_validInput seg_scanKeypad_currentDisplayValue seg_scanKeypad_isDisplayNegative seg_scanKeypad_previousMode
  : seg_fields.

Lemma seg_scanKeypad_displayToggle (s : SevenSeg.State) (k : Z) :
  SevenSeg.displayMode s <> SevenSeg.DISPLAY_OPERATOR ->
  SevenSeg.displayToggle (SevenSeg.scanKeypad s k) = SevenSeg.displayToggle s.
Proof.
  intros Hm. unfold SevenSeg.scanKeypad.
  destruct ((SevenSeg.displayMode s =? SevenSeg.DISPLAY_NUM1)
            || (SevenSeg.displayMode s =? SevenSeg.DISPLAY_NUM2)
            || (SevenSeg.displayMode s =? SevenSeg.DISPLAY_RESULT)
            || (SevenSeg.displayMode s =? SevenSeg.DISPLAY_RESET));
    [reflexivity|].
  destruct (Z.eqb_spec (SevenSeg.displayMode s) SevenSeg.DISPLAY_OPERATOR);
    [contradiction|reflexivity].
Qed.

Lemma seg_no_key_num1_tens (n : nat) (s : SevenSeg.State) :
  SevenSeg.num1_tens (SevenSeg.no_key n s) = SevenSeg.num1_tens s.
Proof.
  revert s. induction n as [|n IH]; intros s; [reflexivity|].
  simpl. rewrite IH. apply seg_scanKeypad_fields.
Qed.

Lemma seg_no_key_num1_units (n : nat) (s : SevenSeg.State) :
  SevenSeg.num1_units (SevenSeg.no_key n s) = SevenSeg.num1_units s.
Proof.
  revert s. induction n as [|n IH]; intros s; [reflexivity|].
  simpl. rewrite IH. apply seg_scanKeypad_fields.
Qed.

Lemma seg_no_key_num2_tens (n : nat) (s : SevenSeg.State) :
  SevenSeg.num2_tens (SevenSeg.no_key n s) = SevenSeg.num2_tens s.
Proof.
  revert s. induction n as [|n IH]; intros s; [reflexivity|].
  simpl. rewrite IH. apply seg_scanKeypad_fields.
Qed.

Lemma seg_no_key_num2_units (n : nat) (s : SevenSeg.State) :
  SevenSeg.num2_units (SevenSeg.no_key n s) = SevenSeg.num2_units s.
Proof.
  revert s. induction n as [|n IH]; intros s; [reflexivity|].
  simpl. rewrite IH. apply seg_scanKeypad_fields.
Qed.

Lemma seg_no_key_num1 (n : nat) (s : SevenSeg.State) :
  SevenSeg.num1 (SevenSeg.no_key n s) = SevenSeg.num1 s.
Proof.
  revert s. induction n as [|n IH]; intros s; [reflexivity|].
  simpl. rewrite IH. apply seg_scanKeypad_fields.
Qed.

Lemma seg_no_key_num2 (n : nat) (s : SevenSeg.State) :
  SevenSeg.num2 (SevenSeg.no_key n s) = SevenSeg.num2 s.
Proof.
  revert s. induction n as [|n IH]; intros s; [reflexivity|].
  simpl. rewrite IH. apply seg_scanKeypad_fields.
Qed.

Lemma seg_no_key_operator (n : nat) (s : SevenSeg.State) :
  SevenSeg.operator (SevenSeg.no_key n s) = SevenSeg.operator s.
Proof.
  revert s. induction n as [|n IH]; intros s; [reflexivity|].
  simpl. rewrite IH. apply seg_scanKeypad_fields.
Qed.

Lemma seg_no_key_result (n : nat) (s : SevenSeg.State) :
  SevenSeg.result (SevenSeg.no_key n s) = SevenSeg.result s.
Proof.
  revert s. induction n as [|n IH]; intros s; [reflexivity|].
  simpl. rewrite IH. apply seg_scanKeypad_fields.
Qed.

Lemma seg_no_key_displayMode (n : nat) (s : SevenSeg.State) :
  SevenSeg.displayMode (SevenSeg.no_key n s) = SevenSeg.displayMode s.
Proof.
  revert s. induction n as [|n IH]; intros s; [reflexivity|].
  simpl. rewrite IH. apply seg_scanKeypad_fields.
Qed.

Lemma seg_no_key_waitingForHashKey (n : nat) (s : SevenSeg.State) :
  SevenSeg.waitingForHashKey (SevenSeg.no_key n s) = SevenSeg.waitingForHashKey s.
Proof.
  revert s. induction n as [|n IH]; intros s; [reflexivity|].
  simpl. rewrite IH. apply seg_scanKeypad_fields.
Qed.

Lemma seg_no_key_validInput (n : nat) (s : SevenSeg.State) :
  SevenSeg.validInput (SevenSeg.no_key n s) = SevenSeg.validInput s.
Proof.
  revert s. induction n as [|n IH]; intros s; [reflexivity|].
  simpl. rewrite IH. apply seg_scanKeypad_fields.
Qed.

Lemma seg_no_key_currentDisplayValue (n : nat) (s : SevenSeg.State) :
  SevenSeg.currentDisplayValue (SevenSeg.no_key n s) = SevenSeg.currentDisplayValue s.
Proof.
  revert s. induction n as [|n IH]; intros s; [reflexivity|].
  simpl. rewrite IH. apply seg_scanKeypad_fields.
Qed.

Lemma seg_no_key_isDisplayNegative (n : nat) (s : SevenSeg.State) :
  SevenSeg.isDisplayNegative (SevenSeg.no_key n s) = SevenSeg.isDisplayNegative s.
Proof.
  revert s. induction n as [|n IH]; intros s; [reflexivity|].
  simpl. rewrite IH. apply seg_scanKeypad_fields.
Qed.

Lemma seg_no_key_previousMode (n : nat) (s : SevenSeg.State) :
  SevenSeg.previousMode (SevenSeg.no_key n s) = SevenSeg.previousMode s.
Proof.
  revert s. induction n as [|n IH]; intros s; [reflexivity|].
  simpl. rewrite IH. apply seg_scanKeypad_fields.
Qed.

#[global] Hint Rewrite seg_no_key_num1_tens seg_no_key_num1_units seg_no_key_num2_tens seg_no_key_num2_units seg_no_key_num1 seg_no_key_num2 seg_no_key_operator seg_no_key_result seg_no_key_displayMode seg_no_key_waitingForHashKey seg_no_key_validInput seg_no_key_currentDisplayValue seg_no_key_isDisplayNegative seg_no_key_previousMode
  : seg_fields.

Lemma seg_no_key_displayToggle (n : nat) (s : SevenSeg.State) :
  SevenSeg.displayMode s <> SevenSeg.DISPLAY_OPERATOR ->
  SevenSeg.displayToggle (SevenSeg.no_key n s) = SevenSeg.displayToggle s.
Proof.
  revert s. induction n as [|n IH]; intros s Hm; [reflexivity|].
  simpl. rewrite IH by (now rewrite seg_scanKeypad_displayMode).
  now apply seg_scanKeypad_displayToggle.
Qed.

Lemma seg_no_operator_key_num1_tens (n : nat) (st : Z) (s : SevenSeg.State) :
  SevenSeg.num1_tens (SevenSeg.no_operator_key n st s) = SevenSeg.num1_tens s.
Proof.
  revert s. induction n as [|n IH]; intros s; [reflexivity|].
  cbn [SevenSeg.no_operator_key]. rewrite IH. seg_proj.
  now rewrite seg_scanKeypad_num1_tens.
Qed.

Lemma seg_no_operator_key_num1_units (n : nat) (st : Z) (s : SevenSeg.State) :
  SevenSeg.num1_units (SevenSeg.no_operator_key n st s) = SevenSeg.num1_units s.
Proof.
  revert s. induction n as [|n IH]; intros s; [reflexivity|].
  cbn [SevenSeg.no_operator_key]. rewrite IH. seg_proj.
  now rewrite seg_scanKeypad_num1_units.
Qed.

Lemma seg_no_operator_key_num2_tens (n : nat) (st : Z) (s : SevenSeg.State) :
  SevenSeg.num2_tens (SevenSeg.no_operator_key n st s) = SevenSeg.num2_tens s.
Proof.
  revert s. induction n as [|n IH]; intros s; [reflexivity|].
  cbn [SevenSeg.no_operator_key]. rewrite IH. seg_proj.
  now rewrite seg_scanKeypad_num2_tens.
Qed.

Lemma seg_no_operator_key_num2_units (n : nat) (st : Z) (s : SevenSeg.State) :
  SevenSeg.num2_units (SevenSeg.no_operator_key n st s) = SevenSeg.num2_units s.
Proof.
  revert s. induction n as [|n IH]; intros s; [reflexivity|].
  cbn [SevenSeg.no_operator_key]. rewrite IH. seg_proj.
  now rewrite seg_scanKeypad_num2_units.
Qed.

Lemma seg_no_operator_key_num1 (n : nat) (st : Z) (s : SevenSeg.State) :
  SevenSeg.num1 (SevenSeg.no_operator_key n st s) = SevenSeg.num1 s.
Proof.
  revert s. induction n as [|n IH]; intros s; [reflexivity|].
  cbn [SevenSeg.no_operator_key]. rewrite IH. seg_proj.
  now rewrite seg_scanKeypad_num1.
Qed.

Lemma seg_no_operator_key_num2 (n : nat) (st : Z) (s : SevenSeg.State) :
  SevenSeg.num2 (SevenSeg.no_operator_key n st s) = SevenSeg.num2 s.
Proof.
  revert s. induction n as [|n IH]; intros s; [reflexivity|].
  cbn [SevenSeg.no_operator_key]. rewrite IH. seg_proj.
  now rewrite seg_scanKeypad_num2.
Qed.

Lemma seg_no_operator_key_operator (n : nat) (st : Z) (s : SevenSeg.State) :
  SevenSeg.operator (SevenSeg.no_operator_key n st s) = SevenSeg.operator s.
Proof.
  revert s. induction n as [|n IH]; intros s; [reflexivity|].
  cbn [SevenSeg.no_operator_key]. rewrite IH. seg_proj.
  now rewrite seg_scanKeypad_operator.
Qed.

Lemma seg_no_operator_key_result (n : nat) (st : Z) (s : SevenSeg.State) :
  SevenSeg.result (SevenSeg.no_operator_key n st s) = SevenSeg.result s.
Proof.
  revert s. induction n as [|n IH]; intros s; [reflexivity|].
  cbn [SevenSeg.no_operator_key]. rewrite IH. seg_proj.
  now rewrite seg_scanKeypad_result.
Qed.

Lemma seg_no_operator_key_displayMode (n : nat) (st : Z) (s : SevenSeg.State) :
  SevenSeg.displayMode (SevenSeg.no_operator_key n st s) = SevenSeg.displayMode s.
Proof.
  revert s. induction n as [|n IH]; intros s; [reflexivity|].
  cbn [SevenSeg.no_operator_key]. rewrite IH. seg_proj.
  now rewrite seg_scanKeypad_displayMode.
Qed.

Lemma seg_no_operator_key_waitingForHashKey (n : nat) (st : Z) (s : SevenSeg.State) :
  SevenSeg.waitingForHashKey (SevenSeg.no_operator_key n st s) = SevenSeg.waitingForHashKey s.
Proof.
  revert s. induction n as [|n IH]; intros s; [reflexivity|].
  cbn [SevenSeg.no_operator_key]. rewrite IH. seg_proj.
  now rewrite seg_scanKeypad_waitingForHashKey.
Qed.

Lemma seg_no_operator_key_validInput (n : nat) (st : Z) (s : SevenSeg.State) :
  SevenSeg.validInput (SevenSeg.no_operator_key n st s) = SevenSeg.validInput s.
Proof.
  revert s. induction n as [|n IH]; intros s; [reflexivity|].
  cbn [SevenSeg.no_operator_key]. rewrite IH. seg_proj.
  now rewrite seg_scanKeypad_validInput.
Qed.

Lemma seg_no_operator_key_currentDisplayValue (n : nat) (st : Z) (s : SevenSeg.State) :
  SevenSeg.currentDisplayValue (SevenSeg.no_operator_key n st s) = SevenSeg.currentDisplayValue s.
Proof.
  revert s. induction n as [|n IH]; intros s; [reflexivity|].
  cbn [SevenSeg.no_operator_key]. rewrite IH. seg_proj.
  now rewrite seg_scanKeypad_currentDisplayValue.
Qed.

Lemma seg_no_operator_key_isDisplayNegative (n : nat) (st : Z) (s : SevenSeg.State) :
  SevenSeg.isDisplayNegative (SevenSeg.no_operator_key n st s) = SevenSeg.isDisplayNegative s.
Proof.
  revert s. induction n as [|n IH]; intros s; [reflexivity|].
  cbn [SevenSeg.no_operator_key]. rewrite IH. seg_proj.
  now rewrite seg_scanKeypad_isDisplayNegative.
Qed.

Lemma seg_no_operator_key_previousMode (n : nat) (st : Z) (s : SevenSeg.State) :
  SevenSeg.previousMode (SevenSeg.no_operator_key n st s) = SevenSeg.previousMode s.
Proof.
  revert s. induction n as [|n IH]; intros s; [reflexivity|].
  cbn [SevenSeg.no_operator_key]. rewrite IH. seg_proj.
  now rewrite seg_scanKeypad_previousMode.
Qed.

#[global] Hint Rewrite seg_no_operator_key_num1_tens seg_no_operator_key_num1_units seg_no_operator_key_num2_tens seg_no_operator_key_num2_units seg_no_operator_key_num1 seg_no_operator_key_num2 seg_no_operator_key_operator seg_no_operator_key_result seg_no_operator_key_displayMode seg_no_operator_key_waitingForHashKey seg_no_operator_key_validInput seg_no_operator_key_currentDisplayValue seg_no_operator_key_isDisplayNegative seg_no_operator_key_previousMode
  : seg_fields.

Lemma seg_no_operator_key_displayToggle (n : nat) (st : Z)
  (s : SevenSeg.State) :
  SevenSeg.displayMode s <> SevenSeg.DISPLAY_OPERATOR ->
  SevenSeg.displayToggle (SevenSeg.no_operator_key n st s)
  = SevenSeg.displayToggle s.
Proof.
  revert s. induction n as [|n IH]; intros s Hm; [reflexivity|].
  cbn [SevenSeg.no_operator_key].
  rewrite IH by (seg_proj; now rewrite seg_scanKeypad_displayMode).
  seg_proj. now rewrite seg_scanKeypad_displayToggle.
Qed.

Lemma seg_getNum1_first_idle (n : nat) (s : SevenSeg.State) (ks : list Z) :
  SevenSeg.getNum1_first s (idle n ++ ks)
  = SevenSeg.getNum1_first (SevenSeg.no_key n s) ks.
Proof.
  revert s. induction n as [|n IH]; intros s; [reflexivity|].
  cbn [idle repeat app SevenSeg.getNum1_first SevenSeg.no_key].
  rewrite seg_scanKeypad_keyVal. apply IH.
Qed.

Lemma seg_getNum1_second_idle (n : nat) (s : SevenSeg.State) (ks : list Z) :
  SevenSeg.getNum1_second s (idle n ++ ks)
  = SevenSeg.getNum1_second (SevenSeg.no_key n s) ks.
Proof.
  revert s. induction n as [|n IH]; intros s; [reflexivity|].
  cbn [idle repeat app SevenSeg.getNum1_second SevenSeg.no_key].
  rewrite seg_scanKeypad_keyVal. apply IH.
Qed.

Lemma seg_getNum2_first_idle (n : nat) (s : SevenSeg.State) (ks : list Z) :
  SevenSeg.getNum2_first s (idle n ++ ks)
  = SevenSeg.getNum2_first (SevenSeg.no_key n s) ks.
Proof.
  revert s. induction n as [|n IH]; intros s; [reflexivity|].
  cbn [idle repeat app SevenSeg.getNum2_first SevenSeg.no_key].
  rewrite seg_scanKeypad_keyVal. apply IH.
Qed.

Lemma seg_getNum2_second_idle (n : nat) (s : SevenSeg.State) (ks : list Z) :
  SevenSeg.getNum2_second s (idle n ++ ks)
  = SevenSeg.getNum2_second (SevenSeg.no_key n s) ks.
Proof.
  revert s. induction n as [|n IH]; intros s; [reflexivity|].
  cbn [idle repeat app SevenSeg.getNum2_second SevenSeg.no_key].
  rewrite seg_scanKeypad_keyVal. apply IH.
Qed.

Lemma seg_getOperator_loop_idle (n : nat) (st : Z) (s : SevenSeg.State)
  (ks : list Z) :
  SevenSeg.getOperator_loop st s (idle n ++ ks)
  = SevenSeg.getOperator_loop st (SevenSeg.no_operator_key n st s) ks.
Proof.
  revert s. induction n as [|n IH]; intros s; [reflexivity|].
  cbn [idle repeat app SevenSeg.getOperator_loop SevenSeg.no_operator_key].
  rewrite seg_scanKeypad_keyVal. apply IH.
Qed.

Ltac seg_norm :=
  repeat (progress (seg_proj; autorewrite with seg_display seg_fields)).

Lemma seg_getNum1_first_digit (s : SevenSeg.State) (d : Z) (ks : list Z) :
  is_digit d ->
  SevenSeg.getNum1_first s (d :: ks)
  = SevenSeg.getNum1_second
      (SevenSeg.updateDisplay d SevenSeg.DISPLAY_NUM1
         (SevenSeg.set_validInput true
            (SevenSeg.set_num1_tens d (SevenSeg.scanKeypad s d)))) ks.
Proof.
  unfold is_digit. intros Hd. cbn [SevenSeg.getNum1_first].
  rewrite seg_scanKeypad_keyVal, (uchar_small d) by lia.
  key_tests. reflexivity.
Qed.

Lemma seg_getNum2_first_digit (s : SevenSeg.State) (d : Z) (ks : list Z) :
  is_digit d ->
  SevenSeg.getNum2_first s (d :: ks)
  = SevenSeg.getNum2_second
      (SevenSeg.updateDisplay d SevenSeg.DISPLAY_NUM2
         (SevenSeg.set_validInput true
            (SevenSeg.set_num2_tens d (SevenSeg.scanKeypad s d)))) ks.
Proof.
  unfold is_digit. intros Hd. cbn [SevenSeg.getNum2_first].
  rewrite seg_scanKeypad_keyVal, (uchar_small d) by lia.
  key_tests. reflexivity.
Qed.

Lemma seg_getNum1_second_digit (s : SevenSeg.State) (d : Z) (ks : list Z) :
  is_digit (SevenSeg.num1_tens s) -> is_digit d ->
  SevenSeg.displayMode s <> SevenSeg.DISPLAY_OPERATOR ->
  exists s',
    SevenSeg.getNum1_second s (d :: ks)
    = Ret (10 * SevenSeg.num1_tens s + d) s' ks /\
    SevenSeg.num1 s' = 10 * SevenSeg.num1_tens s + d /\
    SevenSeg.core s'
    = (SevenSeg.num2_tens s, SevenSeg.num2_units s,
       10 * SevenSeg.num1_tens s + d, SevenSeg.num2 s, SevenSeg.operator s,
       d, SevenSeg.result s, SevenSeg.DISPLAY_NUM1,
       SevenSeg.waitingForHashKey s, SevenSeg.validInput s,
       10 * SevenSeg.num1_tens s + d, false, SevenSeg.DISPLAY_NUM1,
       SevenSeg.displayToggle s).
Proof.
  intros H1 Hd Hm.
  destruct (two_digits_value _ _ H1 Hd) as [Hv Hr].
  unfold is_digit in Hd. cbn [SevenSeg.getNum1_second].
  rewrite seg_scanKeypad_keyVal, (uchar_small d) by lia.
  seg_norm. rewrite Hv. unfold MAX_INPUT.
  destruct (Z.eqb_spec d 255); [lia|].
  destruct (Z.leb_spec d 9); [|lia].
  destruct (Z.gtb_spec (10 * SevenSeg.num1_tens s + d) 99); [lia|].
  eexists. split; [seg_norm; reflexivity|].
  split; [seg_norm; reflexivity|].
  unfold SevenSeg.core. seg_norm.
  rewrite seg_scanKeypad_displayToggle by assumption.
  destruct (Z.ltb_spec (10 * SevenSeg.num1_tens s + d) 0); [lia|].
  rewrite (uchar_small d) by lia. reflexivity.
Qed.

Lemma seg_getNum2_second_digit (s : SevenSeg.State) (d : Z) (ks : list Z) :
  is_digit (SevenSeg.num2_tens s) -> is_digit d ->
  exists s',
    SevenSeg.getNum2_second s (d :: ks)
    = Ret (10 * SevenSeg.num2_tens s + d) s' ks /\
    SevenSeg.num2 s' = 10 * SevenSeg.num2_tens s + d /\
    SevenSeg.waitingForHashKey s' = true.
Proof.
  intros H1 Hd.
  destruct (two_digits_value _ _ H1 Hd) as [Hv Hr].
  unfold is_digit in Hd. cbn [SevenSeg.getNum2_second].
  rewrite seg_scanKeypad_keyVal, (uchar_small d) by lia.
  seg_norm. rewrite Hv. unfold MAX_INPUT.
  destruct (Z.eqb_spec d 255); [lia|].
  destruct (Z.leb_spec d 9); [|lia].
  destruct (Z.gtb_spec (10 * SevenSeg.num2_tens s + d) 99); [lia|].
  eexists. split; [seg_norm; reflexivity|].
  split; seg_norm; reflexivity.
Qed.

Lemma seg_getNum1_second_operator (s : SevenSeg.State) (op : Z)
  (ks : list Z) :
  is_operator op ->
  SevenSeg.getNum1_second s (op :: ks)
  = Ret (SevenSeg.num1_tens s)
      (SevenSeg.set_operator op
         (SevenSeg.set_num1 (SevenSeg.num1_tens s)
            (SevenSeg.scanKeypad s op))) ks.
Proof.
  unfold is_operator. intros Hop. cbn [SevenSeg.getNum1_second].
  rewrite seg_scanKeypad_keyVal, (uchar_small op) by lia.
  key_tests. seg_norm. rewrite (uchar_small op) by lia. reflexivity.
Qed.

Lemma seg_getOperator_loop_operator (st : Z) (s : SevenSeg.State) (op : Z)
  (ks : list Z) :
  is_operator op ->
  exists s',
    SevenSeg.getOperator_loop st s (op :: ks) = Ret op s' ks /\
    SevenSeg.core s'
    = (SevenSeg.num2_tens s, SevenSeg.num2_units s, SevenSeg.num1 s,
       SevenSeg.num2 s, SevenSeg.operator s, op, SevenSeg.result s,
       SevenSeg.displayMode s, SevenSeg.waitingForHashKey s,
       SevenSeg.validInput s, st, SevenSeg.isDisplayNegative s,
       SevenSeg.previousMode s,
       SevenSeg.displayToggle
         (SevenSeg.scanKeypad
            (SevenSeg.out [delay_ms 5]
               (SevenSeg.on_io (SevenSeg.displayNumber st) s)) op)).
Proof.
  unfold is_operator. intros Hop. cbn [SevenSeg.getOperator_loop].
  rewrite seg_scanKeypad_keyVal, (uchar_small op) by lia.
  key_tests. cbn [andb]. seg_norm. rewrite (uchar_small op) by lia.
  eexists. split; [reflexivity|].
  unfold SevenSeg.core. seg_norm. rewrite (uchar_small op) by lia.
  reflexivity.
Qed.

(** Two digits entered into [getNum1], whatever idle scans separate them. *)
Lemma seg_getNum1_two_digits (s : SevenSeg.State) (d1 d2 : Z) (n m : nat)
  (ks : list Z) :
  is_digit d1 -> is_digit d2 ->
  exists s',
    SevenSeg.getNum1 s (idle n ++ d1 :: idle m ++ d2 :: ks)
    = Ret (10 * d1 + d2) s' ks /\
    SevenSeg.num1 s' = 10 * d1 + d2 /\
    SevenSeg.core s'
    = (SevenSeg.num2_tens s, SevenSeg.num2_units s, 10 * d1 + d2,
       SevenSeg.num2 s, SevenSeg.operator s, d2, SevenSeg.result s,
       SevenSeg.DISPLAY_NUM1, SevenSeg.waitingForHashKey s, true,
       10 * d1 + d2, false, SevenSeg.DISPLAY_NUM1, SevenSeg.displayToggle s).
Proof.
  intros H1 H2. unfold SevenSeg.getNum1.
  rewrite seg_getNum1_first_idle, seg_getNum1_first_digit by assumption.
  rewrite seg_getNum1_second_idle.
  match goal with
  | |- context [SevenSeg.getNum1_second ?st (d2 :: ks)] =>
      assert (E11 : SevenSeg.num1_tens st = d1) by (seg_norm; reflexivity);
      assert (Em : SevenSeg.displayMode st <> SevenSeg.DISPLAY_OPERATOR)
        by (seg_norm; discriminate);
      destruct (seg_getNum1_second_digit st d2 ks) as (s' & Hs' & Hn & Hc);
      [rewrite E11; assumption | assumption | assumption |]
  end.
  exists s'. rewrite Hs', Hn, Hc, E11.
  split; [reflexivity|]. split; [reflexivity|].
  seg_norm.
  rewrite seg_no_key_displayToggle by (seg_norm; discriminate).
  seg_norm.
  rewrite seg_scanKeypad_displayToggle by (seg_norm; discriminate).
  rewrite seg_no_key_displayToggle by (seg_norm; discriminate).
  seg_norm. reflexivity.
Qed.

(** One digit entered into [getNum1] and closed by an operator key. *)
Lemma seg_getNum1_digit_operator (s : SevenSeg.State) (d op : Z) (n m : nat)
  (ks : list Z) :
  is_digit d -> is_operator op ->
  exists s',
    SevenSeg.getNum1 s (idle n ++ d :: idle m ++ op :: ks) = Ret d s' ks /\
    SevenSeg.core s'
    = (SevenSeg.num2_tens s, SevenSeg.num2_units s, d, SevenSeg.num2 s,
       op, op, SevenSeg.result s, SevenSeg.DISPLAY_NUM1,
       SevenSeg.waitingForHashKey s, true, d, (d <? 0),
       SevenSeg.DISPLAY_NUM1, SevenSeg.displayToggle s).
Proof.
  intros Hd Hop. unfold SevenSeg.getNum1.
  rewrite seg_getNum1_first_idle, seg_getNum1_first_digit by assumption.
  rewrite seg_getNum1_second_idle, seg_getNum1_second_operator by assumption.
  eexists. split; [seg_norm; reflexivity|].
  unfold SevenSeg.core. seg_norm. unfold is_operator in Hop.
  rewrite (uchar_small op) by lia.
  rewrite seg_scanKeypad_displayToggle by (seg_norm; discriminate).
  rewrite seg_no_key_displayToggle by (seg_norm; discriminate).
  seg_norm.
  rewrite seg_scanKeypad_displayToggle by (seg_norm; discriminate).
  rewrite seg_no_key_displayToggle by (seg_norm; discriminate).
  seg_norm. reflexivity.
Qed.

(** Two digits entered into [getNum2]. *)
Lemma seg_getNum2_two_digits (s : SevenSeg.State) (d1 d2 : Z) (n m : nat)
  (ks : list Z) :
  is_digit d1 -> is_digit d2 ->
  exists s',
    SevenSeg.getNum2 s (idle n ++ d1 :: idle m ++ d2 :: ks)
    = Ret (10 * d1 + d2) s' ks /\
    SevenSeg.num2 s' = 10 * d1 + d2 /\
    SevenSeg.waitingForHashKey s' = true.
Proof.
  intros H1 H2. unfold SevenSeg.getNum2.
  rewrite seg_getNum2_first_idle, seg_getNum2_first_digit by assumption.
  rewrite seg_getNum2_second_idle.
  match goal with
  | |- context [SevenSeg.getNum2_second ?st (d2 :: ks)] =>
      assert (E21 : SevenSeg.num2_tens st = d1) by (seg_norm; reflexivity);
      destruct (seg_getNum2_second_digit st d2 ks) as (s' & Hs' & Hn & Hw);
      [rewrite E21; assumption | assumption |]
  end.
  exists s'. rewrite Hs', Hn, E21. repeat split. assumption.
Qed.

(** * The 7-segment program: a leading zero does not change the pass *)

Lemma seg_core_fields (s : SevenSeg.State)
  (a1 a2 a3 a4 a5 a6 a7 a8 : Z) (a9 a10 : bool) (a11 : Z) (a12 : bool)
  (a13 a14 : Z) :
  SevenSeg.core s = (a1, a2, a3, a4, a5, a6, a7, a8, a9, a10, a11, a12, a13, a14) ->
  SevenSeg.num2_tens s = a1 /\ SevenSeg.num2_units s = a2 /\
  SevenSeg.num1 s = a3 /\ SevenSeg.num2 s = a4 /\
  SevenSeg.operator s = a5 /\ SevenSeg.keyVal s = a6 /\
  SevenSeg.result s = a7 /\ SevenSeg.displayMode s = a8 /\
  SevenSeg.waitingForHashKey s = a9 /\ SevenSeg.validInput s = a10 /\
  SevenSeg.currentDisplayValue s = a11 /\ SevenSeg.isDisplayNegative s = a12 /\
  SevenSeg.previousMode s = a13 /\ SevenSeg.displayToggle s = a14.
Proof.
  destruct s. unfold SevenSeg.core. simpl. intros H.
  injection H as; subst. repeat split.
Qed.

Lemma seg_leading_zero_core (s : SevenSeg.State) (d op : Z)
  (n m n' p m' : nat) (rest : list Z) :
  is_digit d -> is_operator op ->
  SevenSeg.same_core
    (SevenSeg.cycle s (idle n ++ d :: idle m ++ op :: rest))
    (SevenSeg.cycle s (idle n' ++ 0 :: idle p ++ d :: idle m' ++ op :: rest)).
Proof.
  intros Hd Hop. rewrite !seg_cycle_second_half.
  destruct (seg_getNum1_digit_operator (SevenSeg.resetCalculator s) d op n m
              rest Hd Hop) as (s1 & E1 & C1).
  assert (H0 : is_digit 0) by (unfold is_digit; lia).
  destruct (seg_getNum1_two_digits (SevenSeg.resetCalculator s) 0 d n' p
              (idle m' ++ op :: rest) H0 Hd) as (s2 & E2 & _ & C2).
  rewrite E1, E2. clear E1 E2.
  apply seg_core_fields in C1, C2.
  destruct C1 as (A1 & A2 & A3 & A4 & A5 & A6 & A7 & A8 & A9 & A10 & A11
                  & A12 & A13 & A14).
  destruct C2 as (B1 & B2 & B3 & B4 & B5 & B6 & B7 & B8 & B9 & B10 & B11
                  & B12 & B13 & B14).
  assert (Hreset : SevenSeg.operator (SevenSeg.resetCalculator s) = 0)
    by (unfold SevenSeg.resetCalculator; seg_norm; reflexivity).
  rewrite Hreset in B5.
  unfold is_digit in Hd. pose proof Hop as Hop'. unfold is_operator in Hop.
  cbv zeta. seg_proj.
  destruct (Z.eqb_spec d 255); [lia|].
  destruct (Z.eqb_spec (10 * 0 + d) 255); [lia|].
  unfold SevenSeg.getOperator. seg_proj. rewrite A5, B5.
  destruct (Z.geb_spec op 10); [|lia]. destruct (Z.leb_spec op 13); [|lia].
  cbn [andb Z.geb Z.compare].
  rewrite seg_getOperator_loop_idle.
  match goal with
  | |- context [SevenSeg.getOperator_loop ?st ?x (op :: rest)] =>
      destruct (seg_getOperator_loop_operator st x op rest Hop')
        as (s3 & E3 & C3)
  end.
  rewrite E3. clear E3. seg_proj.
  destruct (Z.eqb_spec op 0); [lia|].
  apply seg_second_half_core.
  apply seg_core_fields in C3.
  destruct C3 as (D1 & D2 & D3 & D4 & D5 & D6 & D7 & D8 & D9 & D10 & D11
                  & D12 & D13 & D14).
  unfold SevenSeg.core. seg_proj.
  rewrite D1, D2, D3, D4, D6, D7, D8, D9, D10, D11, D12, D13, D14.
  seg_norm.
  rewrite seg_scanKeypad_displayToggle by (seg_norm; rewrite B8; discriminate).
  seg_norm.
  rewrite seg_no_operator_key_displayToggle
    by (seg_norm; rewrite B8; discriminate).
  seg_norm.
  rewrite A1, A2, A4, A6, A7, A8, A9, A10, A12, A13, A14.
  rewrite B1, B2, B4, B7, B8, B9, B10, B12, B13, B14.
  destruct (Z.ltb_spec d 0); [lia|].
  replace (10 * 0 + d) with d by lia. reflexivity.
Qed.

(** * Operand entry in both programs *)

(** C4: two digit keys [d1], [d2] entered one after the other as one
    operand give the value [10 * d1 + d2] clamped to at most 99, in
    [getNum1] and [getNum2] of both programs, whatever the number of scans
    without a key before and between them. *)
Theorem two_digit_operand_value :
  forall (d1 d2 : Z) (n m : nat) (rest : list Z)
         (sl : LED.State) (ss : SevenSeg.State),
    is_digit d1 -> is_digit d2 ->
    (exists s',
        LED.getNum1 sl (idle n ++ d1 :: idle m ++ d2 :: rest)
        = Ret (Z.min 99 (10 * d1 + d2)) s' rest /\
        LED.num1 s' = Z.min 99 (10 * d1 + d2)) /\
    (exists s',
        LED.getNum2 sl (idle n ++ d1 :: idle m ++ d2 :: rest)
        = Ret (Z.min 99 (10 * d1 + d2)) s' rest /\
        LED.num2 s' = Z.min 99 (10 * d1 + d2)) /\
    (exists s',
        SevenSeg.getNum1 ss (idle n ++ d1 :: idle m ++ d2 :: rest)
        = Ret (Z.min 99 (10 * d1 + d2)) s' rest /\
        SevenSeg.num1 s' = Z.min 99 (10 * d1 + d2)) /\
    (exists s',
        SevenSeg.getNum2 ss (idle n ++ d1 :: idle m ++ d2 :: rest)
        = Ret (Z.min 99 (10 * d1 + d2)) s' rest /\
        SevenSeg.num2 s' = Z.min 99 (10 * d1 + d2)).
Proof.
  intros d1 d2 n m rest sl ss H1 H2.
  assert (Hmin : Z.min 99 (10 * d1 + d2) = 10 * d1 + d2)
    by (unfold is_digit in H1, H2; lia).
  rewrite Hmin. repeat split.
  - destruct (led_getNum1_two_digits sl d1 d2 n m rest H1 H2)
      as (s' & E & N & _). eauto.
  - destruct (led_getNum2_two_digits sl d1 d2 n m rest H1 H2)
      as (s' & E & N & _). eauto.
  - destruct (seg_getNum1_two_digits ss d1 d2 n m rest H1 H2)
      as (s' & E & N & _). eauto.
  - destruct (seg_getNum2_two_digits ss d1 d2 n m rest H1 H2)
      as (s' & E & N & _). eauto.
Qed.

Lemma two_digit_operand_value_witness :
  (exists s',
      LED.getNum1 LED.power_on (idle 2 ++ 9 :: idle 1 ++ 9 :: [0xA])
      = Ret (Z.min 99 (10 * 9 + 9)) s' [0xA] /\
      LED.num1 s' = Z.min 99 (10 * 9 + 9)) /\
  (exists s',
      LED.getNum2 LED.power_on (idle 2 ++ 9 :: idle 1 ++ 9 :: [0xA])
      = Ret (Z.min 99 (10 * 9 + 9)) s' [0xA] /\
      LED.num2 s' = Z.min 99 (10 * 9 + 9)) /\
  (exists s',
      SevenSeg.getNum1 SevenSeg.power_on
        (idle 2 ++ 9 :: idle 1 ++ 9 :: [0xA])
      = Ret (Z.min 99 (10 * 9 + 9)) s' [0xA] /\
      SevenSeg.num1 s' = Z.min 99 (10 * 9 + 9)) /\
  (exists s',
      SevenSeg.getNum2 SevenSeg.power_on
        (idle 2 ++ 9 :: idle 1 ++ 9 :: [0xA])
      = Ret (Z.min 99 (10 * 9 + 9)) s' [0xA] /\
      SevenSeg.num2 s' = Z.min 99 (10 * 9 + 9)).
Proof.
  apply (two_digit_operand_value 9 9 2 1 [0xA] LED.power_on
           SevenSeg.power_on); unfold is_digit; lia.
Defined.

Lemma led_same_core_observed {A : Type} (o1 o2 : outcome LED.State A) :
  LED.same_core o1 o2 -> LED.observed o1 = LED.observed o2.
Proof.
  destruct o1 as [a1 s1 k1 | w1 s1], o2 as [a2 s2 k2 | w2 s2];
    simpl; try contradiction.
  - intros (_ & -> & H). unfold LED.observed, LED.registers, LED.core in *.
    simpl. congruence.
  - intros (-> & H). unfold LED.observed, LED.registers, LED.core in *.
    simpl. congruence.
Qed.

Lemma seg_same_core_observed {A : Type} (o1 o2 : outcome SevenSeg.State A) :
  SevenSeg.same_core o1 o2 -> SevenSeg.observed o1 = SevenSeg.observed o2.
Proof.
  destruct o1 as [a1 s1 k1 | w1 s1], o2 as [a2 s2 k2 | w2 s2];
    simpl; try contradiction.
  - intros (_ & -> & H).
    unfold SevenSeg.observed, SevenSeg.registers, SevenSeg.core in *.
    simpl. congruence.
  - intros (-> & H).
    unfold SevenSeg.observed, SevenSeg.registers, SevenSeg.core in *.
    simpl. congruence.
Qed.

(** C6: in both programs a pass of [main] that receives the digit [d] and
    then an operator key, and a pass that receives [0], [d] and then the
    operator key, end alike: same polling place or same return, same unread
    keys, same operands, operator and result.  The scans without a key
    before and between the keys are arbitrary on either side. *)
Theorem leading_zero_same_result :
  forall (d op : Z) (n m n' p m' : nat) (rest : list Z)
         (sl : LED.State) (ss : SevenSeg.State),
    is_digit d -> is_operator op ->
    LED.observed (LED.cycle sl (idle n ++ d :: idle m ++ op :: rest))
    = LED.observed
        (LED.cycle sl (idle n' ++ 0 :: idle p ++ d :: idle m' ++ op :: rest))
    /\
    SevenSeg.observed
      (SevenSeg.cycle ss (idle n ++ d :: idle m ++ op :: rest))
    = SevenSeg.observed
        (SevenSeg.cycle ss
           (idle n' ++ 0 :: idle p ++ d :: idle m' ++ op :: rest)).
Proof.
  intros d op n m n' p m' rest sl ss Hd Hop. split.
  - apply led_same_core_observed. now apply led_leading_zero_core.
  - apply seg_same_core_observed. now apply seg_leading_zero_core.
Qed.

Lemma leading_zero_same_result_witness :
  LED.observed
    (LED.cycle LED.power_on (idle 1 ++ 5 :: idle 2 ++ 0xB :: [9; 0xF; 0xF]))
  = LED.observed
      (LED.cycle LED.power_on
         (idle 0 ++ 0 :: idle 3 ++ 5 :: idle 1 ++ 0xB :: [9; 0xF; 0xF]))
  /\
  SevenSeg.observed
    (SevenSeg.cycle SevenSeg.power_on
       (idle 1 ++ 5 :: idle 2 ++ 0xB :: [9; 0xF; 0xF]))
  = SevenSeg.observed
      (SevenSeg.cycle SevenSeg.power_on
         (idle 0 ++ 0 :: idle 3 ++ 5 :: idle 1 ++ 0xB :: [9; 0xF; 0xF])).
Proof.
  apply (leading_zero_same_result 5 0xB 1 2 0 3 1 [9; 0xF; 0xF]
           LED.power_on SevenSeg.power_on);
    [unfold is_digit | unfold is_operator]; lia.
Defined.

(** * The LED program: the presenter *)

(** Reducing the field accesses of a state built by assignments. *)
Ltac led_proj :=
  cbn [LED.num11 LED.num12 LED.num21 LED.num22 LED.num1 LED.num2 LED.operator LED.keyVal LED.result LED.waitingForHashKey LED.validInput LED.trace
       LED.set_num11 LED.set_num12 LED.set_num21 LED.set_num22 LED.set_num1 LED.set_num2 LED.set_operator LED.set_keyVal LED.set_result LED.set_waitingForHashKey LED.set_validInput LED.set_trace
       LED.out LED.on_io].

Lemma led_wait_reset_blocks (w : waitpoint) (ks : list Z) :
  forall s : LED.State,
    no_reset ks ->
    exists s',
      (forall rest, LED.wait_reset w s (ks ++ rest) = LED.wait_reset w s' rest)
      /\ LED.registers s' = LED.registers s
      /\ LED.trace s' = LED.trace s.
Proof.
  induction ks as [|k ks IH]; intros s Hks.
  - exists s. repeat split.
  - inversion Hks as [|? ? Hk Hks']; subst.
    destruct (IH (LED.set_keyVal (uchar k) s) Hks') as (s' & Hrun & Hreg & Htr).
    exists s'. split; [|split; assumption].
    intros rest. cbn [app LED.wait_reset]. cbn [LED.keyVal LED.set_keyVal].
    destruct (Z.eqb_spec (uchar k) 0xE); [contradiction|]. apply Hrun.
Qed.

Lemma led_wait_reset_result (w : waitpoint) (ks : list Z) :
  forall s : LED.State,
    LED.result (outcome_state (LED.wait_reset w s ks)) = LED.result s.
Proof.
  induction ks as [|k ks IH]; intros s; [reflexivity|].
  cbn [LED.wait_reset]. cbn [LED.keyVal LED.set_keyVal].
  destruct (uchar k =? 0xE); [reflexivity|]. now rewrite IH.
Qed.

Lemma led_blink_loop_result (number : Z) (ks : list Z) :
  forall (counter : Z) (state : bool) (s : LED.State),
    LED.result (outcome_state (LED.blink_loop number counter state s ks))
    = LED.result s.
Proof.
  induction ks as [|k ks IH]; intros counter state s.
  - cbn [LED.blink_loop].
    destruct (if (counter + 1) mod 65536 >=? 5 then negb state else state);
      reflexivity.
  - cbn [LED.blink_loop].
    destruct (if (counter + 1) mod 65536 >=? 5 then negb state else state);
      cbn [LED.keyVal LED.set_keyVal];
      (destruct (uchar k =? 0xE); [reflexivity|]); now rewrite IH.
Qed.

(** Once [result] is assigned, the rest of [displayResult] keeps it. *)
Lemma led_show_result (s : LED.State) (ks : list Z) :
  LED.result
    (outcome_state
       match LED.displayBinaryWithBlink (LED.result s) s ks with
       | Wait w s => Wait w s
       | Ret _ s ks =>
           if LED.result s >=? 0 then LED.wait_reset WResult s ks
           else Ret tt s ks
       end)
  = LED.result s.
Proof.
  unfold LED.displayBinaryWithBlink.
  destruct (LED.result s <? 0).
  - pose proof (led_blink_loop_result
                  (if int_neg (LED.result s) >? 0x7F then 0x7F
                   else int_neg (LED.result s)) ks 0 false s) as Hb.
    destruct (LED.blink_loop _ 0 false s ks) as [[] s1 ks1 | w1 s1];
      simpl in Hb |- *; [|assumption].
    destruct (LED.result s1 >=? 0); [|assumption].
    now rewrite led_wait_reset_result.
  - cbn [LED.result LED.on_io LED.set_trace].
    destruct (LED.result s >=? 0); [|reflexivity].
    now rewrite led_wait_reset_result.
Qed.

Lemma led_doOperation_fst (n1 n2 op : Z) (s t : LED.State) :
  fst (LED.doOperation n1 n2 op s) = fst (LED.doOperation n1 n2 op t).
Proof.
  unfold LED.doOperation.
  repeat match goal with
         | |- context [if ?b then _ else _] => destruct b
         end; reflexivity.
Qed.

(** A Confirm key in the waiting loop assigns [result] once and for all. *)
Lemma led_displayResult_loop_confirm (s : LED.State) (rest : list Z) :
  LED.result (outcome_state (LED.displayResult_loop s (0xF :: rest)))
  = fst (LED.doOperation (LED.num1 s) (LED.num2 s) (LED.operator s) s).
Proof.
  cbn [LED.displayResult_loop].
  change (uchar 0xF) with 0xF. led_proj.
  change (0xF =? 0xFF) with false. change (0xF =? 0xF) with true. cbv iota.
  rewrite (led_doOperation_fst _ _ _ s (LED.set_keyVal 0xF s)).
  destruct (LED.doOperation (LED.num1 s) (LED.num2 s) (LED.operator s)
              (LED.set_keyVal 0xF s)) as [r s1].
  cbn [fst].
  destruct ((r =? -1) && (LED.num2 s1 =? 0)).
  - now rewrite led_wait_reset_result.
  - apply (led_show_result (LED.out [LATD 0] (LED.set_result r s1)) rest).
Qed.

Lemma led_displayResult_loop_blocks (ks : list Z) :
  forall s : LED.State,
    no_confirm_or_reset ks ->
    exists s',
      (forall rest,
          LED.displayResult_loop s (ks ++ rest)
          = LED.displayResult_loop s' rest)
      /\ LED.registers s' = LED.registers s.
Proof.
  induction ks as [|k ks IH]; intros s Hks.
  - exists s. repeat split.
  - inversion Hks as [|? ? [HF HE] Hks']; subst.
    destruct (Z.eq_dec (uchar k) 0xFF) as [Hidle | Hother].
    + destruct (IH (LED.set_keyVal (uchar k) s) Hks') as (s' & Hrun & Hreg).
      exists s'. split; [|assumption].
      intros rest. cbn [app LED.displayResult_loop].
      cbn [LED.keyVal LED.set_keyVal].
      destruct (Z.eqb_spec (uchar k) 0xFF); [|contradiction]. apply Hrun.
    + destruct (IH (LED.out [delay_ms 50] (LED.set_keyVal (uchar k) s)) Hks')
        as (s' & Hrun & Hreg).
      exists s'. split; [|assumption].
      intros rest. cbn [app LED.displayResult_loop].
      cbn [LED.keyVal LED.set_keyVal].
      destruct (Z.eqb_spec (uchar k) 0xFF); [contradiction|].
      destruct (Z.eqb_spec (uchar k) 0xF); [contradiction|].
      destruct (Z.eqb_spec (uchar k) 0xE); [contradiction|].
      apply Hrun.
Qed.

(** The state in which [displayResult] enters its waiting loop. *)
Lemma led_displayResult_entry (s : LED.State) :
  LED.registers
    (if negb (LED.waitingForHashKey s)
     then LED.on_io (LED.blinkLED 0x08 3 200) s else s)
  = LED.registers s.
Proof. destruct (negb (LED.waitingForHashKey s)); reflexivity. Qed.

Lemma led_presenter_waits (s : LED.State) (ks rest : list Z) :
  no_confirm_or_reset ks ->
  (exists s',
      LED.displayResult s ks = Wait WConfirm s' /\
      LED.registers s' = LED.registers s) /\
  LED.result (outcome_state (LED.displayResult s (ks ++ 0xF :: rest)))
  = fst (LED.doOperation (LED.num1 s) (LED.num2 s) (LED.operator s) s) /\
  (exists s',
      LED.displayResult s (ks ++ 0xE :: rest) = Ret tt s' rest /\
      LED.registers s' = (0, 0, 0, LED.result s)).
Proof.
  intros Hks. unfold LED.displayResult. cbv zeta.
  pose proof (led_displayResult_entry s) as Hentry.
  set (s0 := if negb (LED.waitingForHashKey s)
             then LED.on_io (LED.blinkLED 8 3 200) s else s) in *.
  destruct (led_displayResult_loop_blocks ks s0 Hks) as (s1 & Hrun & Hreg).
  rewrite Hentry in Hreg. clear Hentry.
  unfold LED.registers in Hreg. injection Hreg as R1 R2 R3 R4.
  split; [|split].
  - exists s1. split.
    + rewrite <- (app_nil_r ks), Hrun. reflexivity.
    + unfold LED.registers. congruence.
  - rewrite Hrun, led_displayResult_loop_confirm, R1, R2, R3.
    apply led_doOperation_fst.
  - rewrite Hrun. eexists. split.
    + cbn [LED.displayResult_loop]. reflexivity.
    + unfold LED.registers. simpl. now rewrite R4.
Qed.

(** * The 7-segment program: the presenter *)

Lemma io_extends_refl (t : io) : io_extends t t.
Proof. exists []. now rewrite app_nil_r. Qed.

Lemma io_extends_trans (t1 t2 t3 : io) :
  io_extends t1 t2 -> io_extends t2 t3 -> io_extends t1 t3.
Proof.
  intros [m1 ->] [m2 ->]. exists (m1 ++ m2). now rewrite app_assoc.
Qed.

Lemma io_extends_app (t more : io) : io_extends t (t ++ more).
Proof. now exists more. Qed.

Lemma io_extends_iter (f : io -> io) :
  (forall t, io_extends t (f t)) ->
  forall (n : nat) (t : io), io_extends t (Nat.iter n f t).
Proof.
  intros Hf n t. induction n as [|n IH].
  - apply io_extends_refl.
  - rewrite Nat.iter_succ. eapply io_extends_trans; [exact IH | apply Hf].
Qed.

Lemma seg_displayDigit_extends (digit position : Z) (dp : bool) (t : io) :
  io_extends t (SevenSeg.displayDigit digit position dp t).
Proof. unfold SevenSeg.displayDigit. apply io_extends_app. Qed.

Lemma seg_displayNumber_extends (number : Z) (t : io) :
  io_extends t (SevenSeg.displayNumber number t).
Proof.
  unfold SevenSeg.displayNumber. cbv zeta.
  eapply io_extends_trans; [|apply io_extends_app].
  eapply io_extends_trans; [|apply seg_displayDigit_extends].
  eapply io_extends_trans; [|apply io_extends_app].
  apply seg_displayDigit_extends.
Qed.

Lemma seg_showOperator_extends (op ms : Z) (t : io) :
  io_extends t (SevenSeg.showOperator op ms t).
Proof.
  unfold SevenSeg.showOperator. cbv zeta.
  eapply io_extends_trans; [|apply io_extends_app].
  eapply io_extends_trans; [|apply seg_displayDigit_extends].
  eapply io_extends_trans; [|apply io_extends_app].
  apply seg_displayDigit_extends.
Qed.

(** A scan only adds to the log. *)
Lemma seg_scanKeypad_extends (s : SevenSeg.State) (k : Z) :
  io_extends (SevenSeg.trace s) (SevenSeg.trace (SevenSeg.scanKeypad s k)).
Proof.
  unfold SevenSeg.scanKeypad.
  destruct ((SevenSeg.displayMode s =? SevenSeg.DISPLAY_NUM1)
            || (SevenSeg.displayMode s =? SevenSeg.DISPLAY_NUM2)
            || (SevenSeg.displayMode s =? SevenSeg.DISPLAY_RESULT)
            || (SevenSeg.displayMode s =? SevenSeg.DISPLAY_RESET)).
  { seg_proj. apply seg_displayNumber_extends. }
  destruct (SevenSeg.displayMode s =? SevenSeg.DISPLAY_OPERATOR);
    [|seg_proj; apply io_extends_refl].
  destruct (negb (int_rem (SevenSeg.displayToggle s) 3 =? 0)); seg_proj.
  - apply seg_showOperator_extends.
  - eapply io_extends_trans; [apply seg_displayNumber_extends|].
    apply io_extends_app.
Qed.

Lemma seg_scanKeypad_registers (s : SevenSeg.State) (k : Z) :
  SevenSeg.registers (SevenSeg.scanKeypad s k) = SevenSeg.registers s.
Proof. unfold SevenSeg.registers. now autorewrite with seg_fields. Qed.

Lemma seg_wait_reset_blocks (w : waitpoint) (ks : list Z) :
  forall s : SevenSeg.State,
    no_reset ks ->
    exists s',
      (forall rest,
          SevenSeg.wait_reset w s (ks ++ rest) = SevenSeg.wait_reset w s' rest)
      /\ SevenSeg.registers s' = SevenSeg.registers s
      /\ SevenSeg.displayMode s' = SevenSeg.displayMode s
      /\ SevenSeg.currentDisplayValue s' = SevenSeg.currentDisplayValue s
      /\ io_extends (SevenSeg.trace s) (SevenSeg.trace s').
Proof.
  induction ks as [|k ks IH]; intros s Hks.
  - exists s. repeat split. apply io_extends_refl.
  - inversion Hks as [|? ? Hk Hks']; subst.
    destruct (IH (SevenSeg.scanKeypad s k) Hks')
      as (s' & Hrun & Hreg & Hmode & Hcur & Hext).
    exists s'. rewrite Hreg, Hmode, Hcur, seg_scanKeypad_registers.
    autorewrite with seg_fields. split; [|repeat split].
    + intros rest. cbn [app SevenSeg.wait_reset].
      rewrite seg_scanKeypad_keyVal.
      destruct (Z.eqb_spec (uchar k) 0xE); [contradiction|]. apply Hrun.
    + eapply io_extends_trans; [apply seg_scanKeypad_extends | exact Hext].
Qed.

Lemma seg_resetCalculator_registers (s : SevenSeg.State) :
  SevenSeg.registers (SevenSeg.resetCalculator s) = (0, 0, 0, SevenSeg.result s).
Proof.
  unfold SevenSeg.resetCalculator, SevenSeg.registers. now seg_norm.
Qed.

Lemma seg_resetCalculator_result (s : SevenSeg.State) :
  SevenSeg.result (SevenSeg.resetCalculator s) = SevenSeg.result s.
Proof. unfold SevenSeg.resetCalculator. seg_norm. reflexivity. Qed.

Lemma seg_wait_reset_result (w : waitpoint) (ks : list Z) :
  forall s : SevenSeg.State,
    SevenSeg.result (outcome_state (SevenSeg.wait_reset w s ks))
    = SevenSeg.result s.
Proof.
  induction ks as [|k ks IH]; intros s; [reflexivity|].
  cbn [SevenSeg.wait_reset].
  destruct (SevenSeg.keyVal (SevenSeg.scanKeypad s k) =? 0xE).
  - cbn [outcome_state].
    rewrite seg_resetCalculator_result. apply seg_scanKeypad_result.
  - rewrite IH. apply seg_scanKeypad_result.
Qed.

Lemma seg_doOperation_fst (n1 n2 op : Z) (s t : SevenSeg.State) :
  fst (SevenSeg.doOperation n1 n2 op s) = fst (SevenSeg.doOperation n1 n2 op t).
Proof.
  unfold SevenSeg.doOperation.
  repeat match goal with
         | |- context [if ?b then _ else _] => destruct b
         end; reflexivity.
Qed.

(** A Confirm key in the waiting loop assigns [result] once and for all. *)
Lemma seg_displayResult_loop_confirm (s : SevenSeg.State) (rest : list Z) :
  SevenSeg.result
    (outcome_state (SevenSeg.displayResult_loop s (0xF :: rest)))
  = fst (SevenSeg.doOperation (SevenSeg.num1 s) (SevenSeg.num2 s)
           (SevenSeg.operator s) s).
Proof.
  cbn [SevenSeg.displayResult_loop].
  rewrite seg_scanKeypad_keyVal. change (uchar 0xF) with 0xF.
  change (0xF =? 0xFF) with false. change (0xF =? 0xF) with true. cbv iota.
  autorewrite with seg_fields.
  rewrite (seg_doOperation_fst _ _ _ s (SevenSeg.scanKeypad s 0xF)).
  destruct (SevenSeg.doOperation (SevenSeg.num1 s) (SevenSeg.num2 s)
              (SevenSeg.operator s) (SevenSeg.scanKeypad s 0xF)) as [r s1].
  cbn [fst]. rewrite seg_wait_reset_result. seg_norm. reflexivity.
Qed.

Lemma seg_displayResult_loop_blocks (ks : list Z) :
  forall s : SevenSeg.State,
    no_confirm_or_reset ks ->
    exists s',
      (forall rest,
          SevenSeg.displayResult_loop s (ks ++ rest)
          = SevenSeg.displayResult_loop s' rest)
      /\ SevenSeg.registers s' = SevenSeg.registers s
      /\ SevenSeg.displayMode s' = SevenSeg.displayMode s
      /\ SevenSeg.currentDisplayValue s' = SevenSeg.currentDisplayValue s.
Proof.
  induction ks as [|k ks IH]; intros s Hks.
  - exists s. repeat split.
  - inversion Hks as [|? ? [HF HE] Hks']; subst.
    destruct (IH (SevenSeg.scanKeypad s k) Hks')
      as (s' & Hrun & Hreg & Hmode & Hcur).
    exists s'. rewrite Hreg, Hmode, Hcur, seg_scanKeypad_registers.
    autorewrite with seg_fields. split; [|repeat split].
    intros rest. cbn [app SevenSeg.displayResult_loop].
    rewrite seg_scanKeypad_keyVal.
    destruct (Z.eqb_spec (uchar k) 0xF); [contradiction|].
    destruct (Z.eqb_spec (uchar k) 0xE); [contradiction|].
    destruct (uchar k =? 0xFF); apply Hrun.
Qed.

(** The state in which [displayResult] enters its waiting loop. *)
Lemma seg_displayResult_entry (s : SevenSeg.State) :
  SevenSeg.registers
    (if negb (SevenSeg.waitingForHashKey s)
     then SevenSeg.flashNum2 s else s)
  = SevenSeg.registers s.
Proof. destruct (negb (SevenSeg.waitingForHashKey s)); reflexivity. Qed.

Lemma seg_presenter_waits (s : SevenSeg.State) (ks rest : list Z) :
  no_confirm_or_reset ks ->
  (exists s',
      SevenSeg.displayResult s ks = Wait WConfirm s' /\
      SevenSeg.registers s' = SevenSeg.registers s) /\
  SevenSeg.result
    (outcome_state (SevenSeg.displayResult s (ks ++ 0xF :: rest)))
  = fst (SevenSeg.doOperation (SevenSeg.num1 s) (SevenSeg.num2 s)
           (SevenSeg.operator s) s) /\
  (exists s',
      SevenSeg.displayResult s (ks ++ 0xE :: rest) = Ret tt s' rest /\
      SevenSeg.registers s' = (0, 0, 0, SevenSeg.result s)).
Proof.
  intros Hks. unfold SevenSeg.displayResult. cbv zeta.
  pose proof (seg_displayResult_entry s) as Hentry.
  set (s0 := if negb (SevenSeg.waitingForHashKey s)
             then SevenSeg.flashNum2 s else s) in *.
  destruct (seg_displayResult_loop_blocks ks s0 Hks)
    as (s1 & Hrun & Hreg & _ & _).
  rewrite Hentry in Hreg. clear Hentry.
  unfold SevenSeg.registers in Hreg. injection Hreg as R1 R2 R3 R4.
  split; [|split].
  - exists s1. split.
    + rewrite <- (app_nil_r ks), Hrun. reflexivity.
    + unfold SevenSeg.registers. congruence.
  - rewrite Hrun, seg_displayResult_loop_confirm, R1, R2, R3.
    apply seg_doOperation_fst.
  - rewrite Hrun. eexists. split.
    + cbn [SevenSeg.displayResult_loop].
      rewrite seg_scanKeypad_keyVal. reflexivity.
    + rewrite seg_resetCalculator_registers, seg_scanKeypad_result.
      now rewrite R4.
Qed.

(** * Division by zero in the two presenters *)

Lemma led_registers_fields (s t : LED.State) :
  LED.registers s = LED.registers t ->
  LED.num1 s = LED.num1 t /\ LED.num2 s = LED.num2 t /\
  LED.operator s = LED.operator t /\ LED.result s = LED.result t.
Proof.
  unfold LED.registers. intros H. injection H as H1 H2 H3 H4. auto.
Qed.

Lemma seg_registers_fields (s t : SevenSeg.State) :
  SevenSeg.registers s = SevenSeg.registers t ->
  SevenSeg.num1 s = SevenSeg.num1 t /\ SevenSeg.num2 s = SevenSeg.num2 t /\
  SevenSeg.operator s = SevenSeg.operator t /\
  SevenSeg.result s = SevenSeg.result t.
Proof.
  unfold SevenSeg.registers. intros H. injection H as H1 H2 H3 H4. auto.
Qed.

(** In the LED program a confirmed division by zero blinks all LEDs, clears
    them, stores -1 and then polls for the Reset key only. *)
Lemma led_divide_error (s : LED.State) (ks rest : list Z) :
  LED.num2 s = 0 -> LED.operator s = 0xD -> no_reset ks ->
  (exists s',
      LED.displayResult s (0xF :: ks) = Wait WDivError s' /\
      LED.result s' = -1 /\
      exists t0, LED.trace s' = LED.blinkLED 0xFF 5 200 t0 ++ [LATD 0x00]) /\
  (exists s',
      LED.displayResult s (0xF :: ks ++ 0xE :: rest) = Ret tt s' rest /\
      LED.registers s' = (0, 0, 0, -1)).
Proof.
  intros H2 Hop Hks. unfold LED.displayResult. cbv zeta.
  pose proof (led_displayResult_entry s) as Hentry.
  set (s0 := if negb (LED.waitingForHashKey s)
             then LED.on_io (LED.blinkLED 8 3 200) s else s) in *.
  apply led_registers_fields in Hentry.
  destruct Hentry as (_ & E2 & E3 & _). rewrite <- E2 in H2.
  rewrite <- E3 in Hop. clearbody s0.
  cbn [LED.displayResult_loop app]. change (uchar 0xF) with 0xF. led_proj.
  change (0xF =? 0xFF) with false. change (0xF =? 0xF) with true. cbv iota.
  rewrite H2, Hop, led_doOperation_div0. led_proj. rewrite H2.
  change ((-1 =? -1) && (0 =? 0)) with true. cbv iota.
  match goal with
  | |- context [LED.wait_reset WDivError ?x ks] =>
      destruct (led_wait_reset_blocks WDivError ks x Hks)
        as (s1 & Hrun & Hreg & Htr)
  end.
  apply led_registers_fields in Hreg. destruct Hreg as (_ & _ & _ & Hres).
  split.
  - exists s1. split; [|split].
    + rewrite <- (app_nil_r ks), Hrun. reflexivity.
    + rewrite Hres. reflexivity.
    + rewrite Htr. eexists. reflexivity.
  - rewrite Hrun. cbn [LED.wait_reset]. change (uchar 0xE) with 0xE.
    led_proj. change (0xE =? 0xE) with true. cbv iota.
    eexists. split; [reflexivity|].
    unfold LED.registers, LED.resetCalculator. led_proj.
    now rewrite Hres.
Qed.

(** In the 7-segment program a confirmed division by zero flashes the
    error glyph inside [doOperation], stores 0 as the result, displays it
    like any result and then polls for the Reset key only. *)
Lemma seg_divide_error (s : SevenSeg.State) (ks rest : list Z) :
  SevenSeg.num2 s = 0 -> SevenSeg.operator s = 0xD -> no_reset ks ->
  (exists s',
      SevenSeg.displayResult s (0xF :: ks) = Wait WResult s' /\
      SevenSeg.result s' = 0 /\
      SevenSeg.displayMode s' = SevenSeg.DISPLAY_RESULT /\
      SevenSeg.currentDisplayValue s' = 0 /\
      exists t0,
        io_extends (SevenSeg.showDivideError t0) (SevenSeg.trace s')) /\
  (exists s',
      SevenSeg.displayResult s (0xF :: ks ++ 0xE :: rest) = Ret tt s' rest /\
      SevenSeg.registers s' = (0, 0, 0, 0)).
Proof.
  intros H2 Hop Hks. unfold SevenSeg.displayResult. cbv zeta.
  pose proof (seg_displayResult_entry s) as Hentry.
  set (s0 := if negb (SevenSeg.waitingForHashKey s)
             then SevenSeg.flashNum2 s else s) in *.
  apply seg_registers_fields in Hentry.
  destruct Hentry as (_ & E2 & E3 & _). rewrite <- E2 in H2.
  rewrite <- E3 in Hop. clearbody s0.
  cbn [SevenSeg.displayResult_loop app].
  rewrite seg_scanKeypad_keyVal. change (uchar 0xF) with 0xF.
  change (0xF =? 0xFF) with false. change (0xF =? 0xF) with true. cbv iota.
  autorewrite with seg_fields. rewrite H2, Hop.
  change (SevenSeg.doOperation (SevenSeg.num1 s0) 0 13
            (SevenSeg.scanKeypad s0 15))
    with (0, SevenSeg.on_io SevenSeg.showDivideError
               (SevenSeg.scanKeypad s0 15)).
  cbv iota beta. seg_norm.
  match goal with
  | |- context [SevenSeg.wait_reset WResult ?x ks] =>
      destruct (seg_wait_reset_blocks WResult ks x Hks)
        as (s1 & Hrun & Hreg & Hmode & Hcur & Hext)
  end.
  apply seg_registers_fields in Hreg. destruct Hreg as (_ & _ & _ & Hres).
  split.
  - exists s1. split; [|split; [|split; [|split]]].
    + rewrite <- (app_nil_r ks), Hrun. reflexivity.
    + rewrite Hres. seg_norm. reflexivity.
    + rewrite Hmode. seg_norm. reflexivity.
    + rewrite Hcur. seg_norm. reflexivity.
    + exists (SevenSeg.trace (SevenSeg.scanKeypad s0 15)).
      eapply io_extends_trans; [|exact Hext]. seg_proj.
      apply io_extends_iter. intros t. apply seg_displayNumber_extends.
  - rewrite Hrun. cbn [SevenSeg.wait_reset].
    rewrite seg_scanKeypad_keyVal. change (uchar 0xE) with 0xE.
    change (0xE =? 0xE) with true. cbv iota.
    eexists. split; [reflexivity|].
    rewrite seg_resetCalculator_registers, seg_scanKeypad_result, Hres.
    seg_norm. reflexivity.
Qed.

(** * The flag [waitingForHashKey] of the LED program *)

(** [getNum2] sets the flag on both of its normal returns, after two digits
    as well as after a digit closed by Confirm; only its Reset returns,
    which give 0xFF, leave it cleared. *)
Lemma led_getNum2_second_flag (ks : list Z) :
  forall s : LED.State,
    match LED.getNum2_second s ks with
    | Ret v s' _ => v = 0xFF \/ LED.waitingForHashKey s' = true
    | Wait _ _ => True
    end.
Proof.
  induction ks as [|k ks IH]; intros s; [exact I|].
  cbn [LED.getNum2_second].
  repeat match goal with
         | |- context [if ?b then _ else _] => destruct b
         end;
    first [ apply IH | right; reflexivity | left; reflexivity ].
Qed.

Lemma led_getNum2_first_flag (ks : list Z) :
  forall s : LED.State,
    match LED.getNum2_first s ks with
    | Ret v s' _ => v = 0xFF \/ LED.waitingForHashKey s' = true
    | Wait _ _ => True
    end.
Proof.
  induction ks as [|k ks IH]; intros s; [exact I|].
  cbn [LED.getNum2_first].
  repeat match goal with
         | |- context [if ?b then _ else _] => destruct b
         end;
    first [ apply IH | apply led_getNum2_second_flag | left; reflexivity ].
Qed.

(** X20: hence a pass of [main] of the LED program never plays the blink
    with which [displayResult] announces that it waits for Confirm: from
    the call of [getNum2] on, the pass is what it would be with the
    waiting loop entered directly. *)
Lemma led_confirm_blink_unreachable (s : LED.State) (ks : list Z) :
  LED.second_half s ks
  = match LED.getNum2 s ks with
    | Wait w s => Wait w s
    | Ret v s ks =>
        let s := LED.out [LATD 0x02] (LED.set_num2 v s) in
        if LED.num2 s =? 0xFF then Ret tt s ks else
        match LED.displayResult_loop s ks with
        | Wait w s => Wait w s
        | Ret _ s ks => Ret tt (LED.out [delay_ms 500] s) ks
        end
    end.
Proof.
  unfold LED.second_half, LED.getNum2. cbv zeta.
  match goal with
  | |- context [LED.getNum2_first ?x ks] =>
      pose proof (led_getNum2_first_flag ks x) as Hf;
      destruct (LED.getNum2_first x ks) as [v s1 ks1 | w s1]
  end; [|reflexivity].
  led_proj. destruct (Z.eqb_spec v 255) as [|Hv]; [reflexivity|].
  destruct Hf as [Hf | Hf]; [contradiction|].
  unfold LED.displayResult. led_proj. rewrite Hf. reflexivity.
Qed.

(** * The claims about the session *)

(** C1 as stated fails for the 7-segment program: after [5], Div, [0],
    Confirm, Confirm the result register holds the number 0, the display is
    in result mode and multiplexes the digits "00", exactly as after
    [0], Add, [0]. *)
Lemma sevenseg_divide_by_zero_shows_zero :
  fst (SevenSeg.doOperation 5 0 0xD SevenSeg.power_on) = 0 /\
  option_map
    (fun r => (fst r, SevenSeg.registers (snd r),
               SevenSeg.displayMode (snd r),
               SevenSeg.currentDisplayValue (snd r),
               last_events 8 (SevenSeg.trace (snd r))))
    (SevenSeg.main [5; 0xD; 0; 0xF; 0xF])
  = Some (WResult, (5, 0, 0xD, 0), SevenSeg.DISPLAY_RESULT, 0,
          [LATA 0; LATD 126; LATA 1; delay_ms 5;
           LATA 0; LATD 126; LATA 2; delay_ms 5]) /\
  option_map
    (fun r => (fst r, SevenSeg.result (snd r),
               SevenSeg.displayMode (snd r),
               SevenSeg.currentDisplayValue (snd r),
               last_events 8 (SevenSeg.trace (snd r))))
    (SevenSeg.main [0; 0xA; 0; 0xF; 0xF])
  = Some (WResult, 0, SevenSeg.DISPLAY_RESULT, 0,
          [LATA 0; LATD 126; LATA 1; delay_ms 5;
           LATA 0; LATD 126; LATA 2; delay_ms 5]).
Proof. repeat split; vm_compute; reflexivity. Qed.

(** C1, amended: for every first operand from 0 to 99, division by zero
    - in the LED program: [doOperation] blinks all LEDs five times and
      returns the error code -1; after Confirm the presenter has shown that
      blink, cleared the LEDs, shows no number, and polls until Reset;
    - in the 7-segment program: [doOperation] flashes the glyph E five
      times and returns 0; after Confirm the presenter stores 0 as the
      result, shows it in result mode, and polls until Reset;
    in both programs only the Reset key ends this state, and it clears the
    operands and the operator. *)
Theorem divide_by_zero_per_variant :
  forall (a : Z) (ks rest : list Z) (sl : LED.State) (ss : SevenSeg.State),
    0 <= a <= 99 ->
    LED.num1 sl = a -> LED.num2 sl = 0 -> LED.operator sl = 0xD ->
    SevenSeg.num1 ss = a -> SevenSeg.num2 ss = 0 ->
    SevenSeg.operator ss = 0xD ->
    no_reset ks ->
    (LED.doOperation a 0 0xD sl
     = (-1, LED.on_io (LED.blinkLED 0xFF 5 200) sl) /\
     (exists s',
         LED.displayResult sl (0xF :: ks) = Wait WDivError s' /\
         LED.result s' = -1 /\
         exists t0,
           LED.trace s' = LED.blinkLED 0xFF 5 200 t0 ++ [LATD 0x00]) /\
     (exists s',
         LED.displayResult sl (0xF :: ks ++ 0xE :: rest) = Ret tt s' rest /\
         LED.registers s' = (0, 0, 0, -1)))
    /\
    (SevenSeg.doOperation a 0 0xD ss
     = (0, SevenSeg.on_io SevenSeg.showDivideError ss) /\
     (exists s',
         SevenSeg.displayResult ss (0xF :: ks) = Wait WResult s' /\
         SevenSeg.result s' = 0 /\
         SevenSeg.displayMode s' = SevenSeg.DISPLAY_RESULT /\
         SevenSeg.currentDisplayValue s' = 0 /\
         exists t0,
           io_extends (SevenSeg.showDivideError t0) (SevenSeg.trace s')) /\
     (exists s',
         SevenSeg.displayResult ss (0xF :: ks ++ 0xE :: rest)
         = Ret tt s' rest /\
         SevenSeg.registers s' = (0, 0, 0, 0))).
Proof.
  intros a ks rest sl ss Ha L1 L2 L3 S1 S2 S3 Hks. split.
  - split; [reflexivity|]. now apply led_divide_error.
  - split; [reflexivity|]. now apply seg_divide_error.
Qed.

Lemma divide_by_zero_per_variant_witness :
  (LED.doOperation 5 0 0xD
     (LED.set_operator 0xD (LED.set_num1 5 LED.power_on))
   = (-1, LED.on_io (LED.blinkLED 0xFF 5 200)
            (LED.set_operator 0xD (LED.set_num1 5 LED.power_on))) /\
   (exists s',
       LED.displayResult
         (LED.set_operator 0xD (LED.set_num1 5 LED.power_on))
         (0xF :: [0xFF; 7; 0xF])
       = Wait WDivError s' /\
       LED.result s' = -1 /\
       exists t0,
         LED.trace s' = LED.blinkLED 0xFF 5 200 t0 ++ [LATD 0x00]) /\
   (exists s',
       LED.displayResult
         (LED.set_operator 0xD (LED.set_num1 5 LED.power_on))
         (0xF :: [0xFF; 7; 0xF] ++ 0xE :: [1])
       = Ret tt s' [1] /\
       LED.registers s' = (0, 0, 0, -1)))
  /\
  (SevenSeg.doOperation 5 0 0xD
     (SevenSeg.set_operator 0xD (SevenSeg.set_num1 5 SevenSeg.power_on))
   = (0, SevenSeg.on_io SevenSeg.showDivideError
           (SevenSeg.set_operator 0xD
              (SevenSeg.set_num1 5 SevenSeg.power_on))) /\
   (exists s',
       SevenSeg.displayResult
         (SevenSeg.set_operator 0xD (SevenSeg.set_num1 5 SevenSeg.power_on))
         (0xF :: [0xFF; 7; 0xF])
       = Wait WResult s' /\
       SevenSeg.result s' = 0 /\
       SevenSeg.displayMode s' = SevenSeg.DISPLAY_RESULT /\
       SevenSeg.currentDisplayValue s' = 0 /\
       exists t0,
         io_extends (SevenSeg.showDivideError t0) (SevenSeg.trace s')) /\
   (exists s',
       SevenSeg.displayResult
         (SevenSeg.set_operator 0xD (SevenSeg.set_num1 5 SevenSeg.power_on))
         (0xF :: [0xFF; 7; 0xF] ++ 0xE :: [1])
       = Ret tt s' [1] /\
       SevenSeg.registers s' = (0, 0, 0, 0))).
Proof.
  apply (divide_by_zero_per_variant 5 [0xFF; 7; 0xF] [1]
           (LED.set_operator 0xD (LED.set_num1 5 LED.power_on))
           (SevenSeg.set_operator 0xD (SevenSeg.set_num1 5 SevenSeg.power_on)));
    try reflexivity; try lia.
  repeat constructor; vm_compute; discriminate.
Defined.

(** C2 fails in the 7-segment program: a Reset pressed while [getNum2]
    polls makes [getNum2] return 0, which [main] does not take for a reset
    (it compares with 0xFF), so after [5], Add, Reset the program is polling
    for Confirm with the first operand 5 still in [num1]; the keys of a
    fresh calculation [7], Add, [3] are then ignored and Confirm shows 0.
    The LED program, whose [getNum2] returns 0xFF, is back at the first
    operand with cleared registers and computes 10. *)
Theorem sevenseg_reset_during_second_operand :
  option_map (fun r => (session_of (fst r), SevenSeg.registers (snd r)))
    (SevenSeg.main [5; 0xA; 0xE])
  = Some (AwaitingConfirm, (5, 0, 0, 0)) /\
  option_map (fun r => (session_of (fst r), LED.registers (snd r)))
    (LED.main [5; 0xA; 0xE])
  = Some (AwaitingOperand1, (0, 0, 0, 0)) /\
  option_map (fun r => (session_of (fst r), SevenSeg.registers (snd r)))
    (SevenSeg.main [5; 0xA; 0xE; 7; 0xA; 3; 0xF; 0xF])
  = Some (ShowingResult, (5, 0, 0, 0)) /\
  option_map (fun r => (session_of (fst r), LED.registers (snd r)))
    (LED.main [5; 0xA; 0xE; 7; 0xA; 3; 0xF; 0xF])
  = Some (ShowingResult, (7, 3, 0xA, 10)).
Proof. repeat split; vm_compute; reflexivity. Qed.

(** C7 as stated fails in both programs: when the second operand is closed
    with Confirm ([7], Add, [3], Confirm), that key is consumed by
    [getNum2], and the presenter does not proceed: it polls for another
    Confirm with the result not computed.  Only a second Confirm computes
    10. *)
Lemma presenter_waits_after_consumed_confirm :
  option_map
    (fun r => (fst r, LED.keyVal (snd r), LED.registers (snd r)))
    (LED.main [7; 0xA; 3; 0xF])
  = Some (WConfirm, 0xF, (7, 3, 0xA, 0)) /\
  option_map
    (fun r => (fst r, SevenSeg.keyVal (snd r), SevenSeg.registers (snd r)))
    (SevenSeg.main [7; 0xA; 3; 0xF])
  = Some (WConfirm, 0xF, (7, 3, 0xA, 0)) /\
  option_map (fun r => (fst r, LED.registers (snd r)))
    (LED.main [7; 0xA; 3; 0xF; 0xF])
  = Some (WResult, (7, 3, 0xA, 10)) /\
  option_map (fun r => (fst r, SevenSeg.registers (snd r)))
    (SevenSeg.main [7; 0xA; 3; 0xF; 0xF])
  = Some (WResult, (7, 3, 0xA, 10)).
Proof. repeat split; vm_compute; reflexivity. Qed.

(** C7, amended: in both programs the presenter, whatever the state in
    which it is entered (a Confirm consumed during operand entry or not),
    polls as long as the keys are neither Confirm nor Reset, and leaves the
    operands, the operator and the result untouched meanwhile; the first
    Confirm computes the result from the operands and operator it was
    entered with, and a Reset instead returns with the operands and the
    operator cleared and the result not computed. *)
Theorem presenter_blocks_until_confirm_or_reset :
  forall (ks rest : list Z) (sl : LED.State) (ss : SevenSeg.State),
    no_confirm_or_reset ks ->
    ((exists s',
         LED.displayResult sl ks = Wait WConfirm s' /\
         LED.registers s' = LED.registers sl) /\
     LED.result (outcome_state (LED.displayResult sl (ks ++ 0xF :: rest)))
     = fst (LED.doOperation (LED.num1 sl) (LED.num2 sl) (LED.operator sl) sl)
     /\
     (exists s',
         LED.displayResult sl (ks ++ 0xE :: rest) = Ret tt s' rest /\
         LED.registers s' = (0, 0, 0, LED.result sl)))
    /\
    ((exists s',
         SevenSeg.displayResult ss ks = Wait WConfirm s' /\
         SevenSeg.registers s' = SevenSeg.registers ss) /\
     SevenSeg.result
       (outcome_state (SevenSeg.displayResult ss (ks ++ 0xF :: rest)))
     = fst (SevenSeg.doOperation (SevenSeg.num1 ss) (SevenSeg.num2 ss)
              (SevenSeg.operator ss) ss)
     /\
     (exists s',
         SevenSeg.displayResult ss (ks ++ 0xE :: rest) = Ret tt s' rest /\
         SevenSeg.registers s' = (0, 0, 0, SevenSeg.result ss))).
Proof.
  intros ks rest sl ss Hks. split.
  - now apply led_presenter_waits.
  - now apply seg_presenter_waits.
Qed.

Lemma presenter_blocks_until_confirm_or_reset_witness :
  ((exists s',
       LED.displayResult LED.power_on [0xFF; 3; 0xA] = Wait WConfirm s' /\
       LED.registers s' = LED.registers LED.power_on) /\
   LED.result
     (outcome_state (LED.displayResult LED.power_on ([0xFF; 3; 0xA] ++ 0xF :: [1])))
   = fst (LED.doOperation (LED.num1 LED.power_on) (LED.num2 LED.power_on)
            (LED.operator LED.power_on) LED.power_on)
   /\
   (exists s',
       LED.displayResult LED.power_on ([0xFF; 3; 0xA] ++ 0xE :: [1])
       = Ret tt s' [1] /\
       LED.registers s' = (0, 0, 0, LED.result LED.power_on)))
  /\
  ((exists s',
       SevenSeg.displayResult SevenSeg.power_on [0xFF; 3; 0xA]
       = Wait WConfirm s' /\
       SevenSeg.registers s' = SevenSeg.registers SevenSeg.power_on) /\
   SevenSeg.result
     (outcome_state
        (SevenSeg.displayResult SevenSeg.power_on
           ([0xFF; 3; 0xA] ++ 0xF :: [1])))
   = fst (SevenSeg.doOperation (SevenSeg.num1 SevenSeg.power_on)
            (SevenSeg.num2 SevenSeg.power_on)
            (SevenSeg.operator SevenSeg.power_on) SevenSeg.power_on)
   /\
   (exists s',
       SevenSeg.displayResult SevenSeg.power_on ([0xFF; 3; 0xA] ++ 0xE :: [1])
       = Ret tt s' [1] /\
       SevenSeg.registers s' = (0, 0, 0, SevenSeg.result SevenSeg.power_on))).
Proof.
  apply (presenter_blocks_until_confirm_or_reset [0xFF; 3; 0xA] [1]
           LED.power_on SevenSeg.power_on).
  repeat constructor; vm_compute; discriminate.
Defined.

(** * The main loops always reach a polling place *)

Lemma consumed_cons {S A : Type} (o : outcome S A) (k : Z) (ks : list Z) :
  consumed o ks -> consumed o (k :: ks).
Proof. destruct o; simpl; [lia | trivial]. Qed.

Lemma consumed_not_grown {S A : Type} (o : outcome S A) (ks : list Z) :
  consumed o ks -> not_grown o ks.
Proof. destruct o; simpl; [lia | trivial]. Qed.

Ltac consumed_step IH :=
  repeat match goal with
         | |- context [if ?b then _ else _] => destruct b
         end;
  first [ apply consumed_cons; apply IH
        | cbn [consumed length]; lia ].

Lemma led_getNum1_second_consumed (ks : list Z) :
  forall s, consumed (LED.getNum1_second s ks) ks.
Proof.
  induction ks as [|k ks IH]; intros s; [exact I|].
  cbn [LED.getNum1_second]. consumed_step IH.
Qed.

Lemma led_getNum1_first_consumed (ks : list Z) :
  forall s, consumed (LED.getNum1_first s ks) ks.
Proof.
  induction ks as [|k ks IH]; intros s; [exact I|].
  cbn [LED.getNum1_first].
  repeat match goal with
         | |- context [if ?b then _ else _] => destruct b
         end;
    first [ apply consumed_cons; apply IH
          | apply consumed_cons; apply led_getNum1_second_consumed
          | cbn [consumed length]; lia ].
Qed.

Lemma led_getOperator_loop_consumed (ks : list Z) :
  forall s, consumed (LED.getOperator_loop s ks) ks.
Proof.
  induction ks as [|k ks IH]; intros s; [exact I|].
  cbn [LED.getOperator_loop]. consumed_step IH.
Qed.

Lemma led_getOperator_not_grown (s : LED.State) (ks : list Z) :
  not_grown (LED.getOperator s ks) ks.
Proof.
  unfold LED.getOperator.
  destruct ((LED.operator s >=? 10) && (LED.operator s <=? 13)).
  - cbn [not_grown]. lia.
  - apply consumed_not_grown, led_getOperator_loop_consumed.
Qed.

Lemma led_getNum2_second_consumed (ks : list Z) :
  forall s, consumed (LED.getNum2_second s ks) ks.
Proof.
  induction ks as [|k ks IH]; intros s; [exact I|].
  cbn [LED.getNum2_second]. consumed_step IH.
Qed.

Lemma led_getNum2_first_consumed (ks : list Z) :
  forall s, consumed (LED.getNum2_first s ks) ks.
Proof.
  induction ks as [|k ks IH]; intros s; [exact I|].
  cbn [LED.getNum2_first].
  repeat match goal with
         | |- context [if ?b then _ else _] => destruct b
         end;
    first [ apply consumed_cons; apply IH
          | apply consumed_cons; apply led_getNum2_second_consumed
          | cbn [consumed length]; lia ].
Qed.

Lemma led_wait_reset_consumed (w : waitpoint) (ks : list Z) :
  forall s, consumed (LED.wait_reset w s ks) ks.
Proof.
  induction ks as [|k ks IH]; intros s; [exact I|].
  cbn [LED.wait_reset]. consumed_step IH.
Qed.

Lemma led_blink_loop_consumed (number : Z) (ks : list Z) :
  forall counter state s,
    consumed (LED.blink_loop number counter state s ks) ks.
Proof.
  induction ks as [|k ks IH]; intros counter state s.
  - cbn [LED.blink_loop]. exact I.
  - cbn [LED.blink_loop]. consumed_step IH.
Qed.

Lemma led_displayResult_loop_consumed (ks : list Z) :
  forall s, consumed (LED.displayResult_loop s ks) ks.
Proof.
  induction ks as [|k ks IH]; intros s; [exact I|].
  cbn [LED.displayResult_loop].
  destruct (LED.keyVal (LED.set_keyVal (uchar k) s) =? 255);
    [apply consumed_cons, IH|].
  destruct (LED.keyVal (LED.set_keyVal (uchar k) s) =? 15).
  - destruct (LED.doOperation _ _ _ _) as [r s1].
    destruct ((LED.result _ =? -1) && _).
    + apply consumed_cons, led_wait_reset_consumed.
    + unfold LED.displayBinaryWithBlink.
      destruct (LED.result _ <? 0).
      * match goal with
        | |- context [LED.blink_loop ?n ?c ?b ?x ks] =>
            pose proof (led_blink_loop_consumed n ks c b x) as Hb;
            destruct (LED.blink_loop n c b x ks) as [[] s2 ks2 | w2 s2]
        end; [|exact I].
        cbn [consumed] in Hb.
        destruct (LED.result s2 >=? 0); [|cbn [consumed length]; lia].
        pose proof (led_wait_reset_consumed WResult ks2 s2) as Hw.
        destruct (LED.wait_reset WResult s2 ks2); [|exact I].
        cbn [consumed length] in *. lia.
      * destruct (LED.result _ >=? 0); [|cbn [consumed length]; lia].
        apply consumed_cons, led_wait_reset_consumed.
  - destruct (LED.keyVal (LED.set_keyVal (uchar k) s) =? 14).
    + cbn [consumed length]. lia.
    + apply consumed_cons, IH.
Qed.

Lemma led_cycle_consumed (s : LED.State) (ks : list Z) :
  consumed (LED.cycle s ks) ks.
Proof.
  unfold LED.cycle, LED.getNum1, LED.getNum2, LED.displayResult. cbv zeta.
  match goal with
  | |- context [LED.getNum1_first ?x ks] =>
      pose proof (led_getNum1_first_consumed ks x) as H1;
      destruct (LED.getNum1_first x ks) as [v1 s1 ks1 | w1 s1]
  end; [|exact I].
  cbn [consumed] in H1.
  destruct (_ =? 255); [exact H1|].
  match goal with
  | |- context [LED.getOperator ?x ks1] =>
      pose proof (led_getOperator_not_grown x ks1) as H2;
      destruct (LED.getOperator x ks1) as [v2 s2 ks2 | w2 s2]
  end; [|exact I].
  cbn [not_grown] in H2.
  destruct (_ =? 0); [cbn [consumed]; lia|].
  match goal with
  | |- context [LED.getNum2_first ?x ks2] =>
      pose proof (led_getNum2_first_consumed ks2 x) as H3;
      destruct (LED.getNum2_first x ks2) as [v3 s3 ks3 | w3 s3]
  end; [|exact I].
  cbn [consumed] in H3.
  destruct (_ =? 255); [cbn [consumed]; lia|].
  match goal with
  | |- context [LED.displayResult_loop ?x ks3] =>
      pose proof (led_displayResult_loop_consumed ks3 x) as H4;
      destruct (LED.displayResult_loop x ks3) as [[] s4 ks4 | w4 s4]
  end; [|exact I].
  cbn [consumed] in *. lia.
Qed.

Lemma led_main_loop_total (fuel : nat) :
  forall (s : LED.State) (ks : list Z),
    (length ks < fuel)%nat ->
    exists w s', LED.main_loop fuel s ks = Some (w, s').
Proof.
  induction fuel as [|fuel IH]; intros s ks Hlen; [lia|].
  cbn [LED.main_loop].
  pose proof (led_cycle_consumed s ks) as Hc.
  destruct (LED.cycle s ks) as [[] s1 ks1 | w1 s1].
  - cbn [consumed] in Hc. apply IH. lia.
  - eauto.
Qed.

(** Whatever keys arrive, [main] of the LED program is polling the keypad
    somewhere once they are read: the fuel of [LED.main] suffices. *)
Lemma led_main_total (ks : list Z) :
  exists w s, LED.main ks = Some (w, s).
Proof. unfold LED.main. apply led_main_loop_total. lia. Qed.

Lemma seg_getNum1_second_consumed (ks : list Z) :
  forall s, consumed (SevenSeg.getNum1_second s ks) ks.
Proof.
  induction ks as [|k ks IH]; intros s; [exact I|].
  cbn [SevenSeg.getNum1_second]. consumed_step IH.
Qed.

Lemma seg_getNum1_first_consumed (ks : list Z) :
  forall s, consumed (SevenSeg.getNum1_first s ks) ks.
Proof.
  induction ks as [|k ks IH]; intros s; [exact I|].
  cbn [SevenSeg.getNum1_first].
  repeat match goal with
         | |- context [if ?b then _ else _] => destruct b
         end;
    first [ apply consumed_cons; apply IH
          | apply consumed_cons; apply seg_getNum1_second_consumed
          | cbn [consumed length]; lia ].
Qed.

Lemma seg_getOperator_loop_consumed (ks : list Z) :
  forall st s, consumed (SevenSeg.getOperator_loop st s ks) ks.
Proof.
  induction ks as [|k ks IH]; intros st s.
  - cbn [SevenSeg.getOperator_loop]. exact I.
  - cbn [SevenSeg.getOperator_loop]. consumed_step IH.
Qed.

Lemma seg_getOperator_not_grown (s : SevenSeg.State) (ks : list Z) :
  not_grown (SevenSeg.getOperator s ks) ks.
Proof.
  unfold SevenSeg.getOperator.
  destruct ((SevenSeg.operator s >=? 10) && (SevenSeg.operator s <=? 13)).
  - cbn [not_grown]. lia.
  - apply consumed_not_grown, seg_getOperator_loop_consumed.
Qed.

Lemma seg_getNum2_second_consumed (ks : list Z) :
  forall s, consumed (SevenSeg.getNum2_second s ks) ks.
Proof.
  induction ks as [|k ks IH]; intros s; [exact I|].
  cbn [SevenSeg.getNum2_second]. consumed_step IH.
Qed.

Lemma seg_getNum2_first_consumed (ks : list Z) :
  forall s, consumed (SevenSeg.getNum2_first s ks) ks.
Proof.
  induction ks as [|k ks IH]; intros s; [exact I|].
  cbn [SevenSeg.getNum2_first].
  repeat match goal with
         | |- context [if ?b then _ else _] => destruct b
         end;
    first [ apply consumed_cons; apply IH
          | apply consumed_cons; apply seg_getNum2_second_consumed
          | cbn [consumed length]; lia ].
Qed.

Lemma seg_wait_reset_consumed (w : waitpoint) (ks : list Z) :
  forall s, consumed (SevenSeg.wait_reset w s ks) ks.
Proof.
  induction ks as [|k ks IH]; intros s; [exact I|].
  cbn [SevenSeg.wait_reset]. consumed_step IH.
Qed.

Lemma seg_displayResult_loop_consumed (ks : list Z) :
  forall s, consumed (SevenSeg.displayResult_loop s ks) ks.
Proof.
  induction ks as [|k ks IH]; intros s; [exact I|].
  cbn [SevenSeg.displayResult_loop].
  destruct (SevenSeg.keyVal (SevenSeg.scanKeypad s k) =? 255);
    [apply consumed_cons, IH|].
  destruct (SevenSeg.keyVal (SevenSeg.scanKeypad s k) =? 15).
  - destruct (SevenSeg.doOperation _ _ _ _) as [r s1].
    apply consumed_cons, seg_wait_reset_consumed.
  - destruct (SevenSeg.keyVal (SevenSeg.scanKeypad s k) =? 14).
    + cbn [consumed length]. lia.
    + apply consumed_cons, IH.
Qed.

Lemma seg_cycle_consumed (s : SevenSeg.State) (ks : list Z) :
  consumed (SevenSeg.cycle s ks) ks.
Proof.
  unfold SevenSeg.cycle, SevenSeg.getNum1, SevenSeg.getNum2,
    SevenSeg.displayResult. cbv zeta.
  match goal with
  | |- context [SevenSeg.getNum1_first ?x ks] =>
      pose proof (seg_getNum1_first_consumed ks x) as H1;
      destruct (SevenSeg.getNum1_first x ks) as [v1 s1 ks1 | w1 s1]
  end; [|exact I].
  cbn [consumed] in H1.
  destruct (_ =? 255); [exact H1|].
  match goal with
  | |- context [SevenSeg.getOperator ?x ks1] =>
      pose proof (seg_getOperator_not_grown x ks1) as H2;
      destruct (SevenSeg.getOperator x ks1) as [v2 s2 ks2 | w2 s2]
  end; [|exact I].
  cbn [not_grown] in H2.
  destruct (_ =? 0); [cbn [consumed]; lia|].
  match goal with
  | |- context [SevenSeg.getNum2_first ?x ks2] =>
      pose proof (seg_getNum2_first_consumed ks2 x) as H3;
      destruct (SevenSeg.getNum2_first x ks2) as [v3 s3 ks3 | w3 s3]
  end; [|exact I].
  cbn [consumed] in H3.
  destruct (_ =? 255); [cbn [consumed]; lia|].
  match goal with
  | |- context [SevenSeg.displayResult_loop ?x ks3] =>
      pose proof (seg_displayResult_loop_consumed ks3 x) as H4;
      destruct (SevenSeg.displayResult_loop x ks3) as [[] s4 ks4 | w4 s4]
  end; [|exact I].
  cbn [consumed] in *. lia.
Qed.

Lemma seg_main_loop_total (fuel : nat) :
  forall (s : SevenSeg.State) (ks : list Z),
    (length ks < fuel)%nat ->
    exists w s', SevenSeg.main_loop fuel s ks = Some (w, s').
Proof.
  induction fuel as [|fuel IH]; intros s ks Hlen; [lia|].
  cbn [SevenSeg.main_loop].
  pose proof (seg_cycle_consumed s ks) as Hc.
  destruct (SevenSeg.cycle s ks) as [[] s1 ks1 | w1 s1].
  - cbn [consumed] in Hc. apply IH. lia.
  - eauto.
Qed.

(** The same for the 7-segment program. *)
Lemma seg_main_total (ks : list Z) :
  exists w s, SevenSeg.main ks = Some (w, s).
Proof. unfold SevenSeg.main. apply seg_main_loop_total. lia. Qed.

(** * The LED program: Reset from every polling place *)

Ltac reset_aware_step IH :=
  repeat match goal with
         | |- context [if ?b then _ else _] => destruct b
         end;
  first [ apply IH
        | intros ?; reflexivity ].

Lemma led_getNum1_second_reset :
  reset_aware (fun v => v = 0xFF) LED.getNum1_second.
Proof.
  intros ks. induction ks as [|k ks IH]; intros s.
  - cbn. eauto.
  - cbn [LED.getNum1_second app]. reset_aware_step IH.
Qed.

Lemma led_getNum1_first_reset :
  reset_aware (fun v => v = 0xFF) LED.getNum1_first.
Proof.
  intros ks. induction ks as [|k ks IH]; intros s.
  - cbn. eauto.
  - cbn [LED.getNum1_first app].
    repeat match goal with
           | |- context [if ?b then _ else _] => destruct b
           end;
      first [ apply IH | apply led_getNum1_second_reset
            | intros ?; reflexivity ].
Qed.

Lemma led_getOperator_loop_reset :
  reset_aware (fun v => v = 0) LED.getOperator_loop.
Proof.
  intros ks. induction ks as [|k ks IH]; intros s.
  - cbn. eauto.
  - cbn [LED.getOperator_loop app]. reset_aware_step IH.
Qed.

Lemma led_getOperator_reset : reset_aware (fun v => v = 0) LED.getOperator.
Proof.
  intros ks s. unfold LED.getOperator.
  destruct ((LED.operator s >=? 10) && (LED.operator s <=? 13)).
  - intros ?; reflexivity.
  - apply led_getOperator_loop_reset.
Qed.

Lemma led_getNum2_second_reset :
  reset_aware (fun v => v = 0xFF) LED.getNum2_second.
Proof.
  intros ks. induction ks as [|k ks IH]; intros s.
  - cbn. eauto.
  - cbn [LED.getNum2_second app]. reset_aware_step IH.
Qed.

Lemma led_getNum2_first_reset :
  reset_aware (fun v => v = 0xFF) LED.getNum2_first.
Proof.
  intros ks. induction ks as [|k ks IH]; intros s.
  - cbn. eauto.
  - cbn [LED.getNum2_first app].
    repeat match goal with
           | |- context [if ?b then _ else _] => destruct b
           end;
      first [ apply IH | apply led_getNum2_second_reset
            | intros ?; reflexivity ].
Qed.

Lemma led_wait_reset_reset (w : waitpoint) :
  reset_aware (fun _ : unit => True) (LED.wait_reset w).
Proof.
  intros ks. induction ks as [|k ks IH]; intros s.
  - cbn. eauto.
  - cbn [LED.wait_reset app]. reset_aware_step IH.
Qed.

Lemma led_blink_loop_reset (number : Z) :
  forall counter state,
    reset_aware (fun _ : unit => True) (LED.blink_loop number counter state).
Proof.
  intros counter state ks. revert counter state.
  induction ks as [|k ks IH]; intros counter state s.
  - cbn [LED.blink_loop app].
    destruct (if (counter + 1) mod 65536 >=? 5 then negb state else state);
      cbn; eauto.
  - cbn [LED.blink_loop app]. reset_aware_step IH.
Qed.

Lemma step_then_reset {S A : Type} (P : A -> Prop)
  (L : S -> list Z -> outcome S A) (f : A -> S -> S) (again : S -> bool)
  (K : S -> list Z -> outcome S unit) :
  reset_aware P L ->
  (forall a s, P a -> again (f a s) = true) ->
  reset_aware (fun _ => True) K ->
  reset_aware (fun _ => True) (step_then L f again K).
Proof.
  intros HL Hagain HK ks s. unfold step_then.
  pose proof (HL ks s) as H1.
  destruct (L s ks) as [v s1 ks1 | w s1].
  - destruct (again (f v s1)) eqn:Ha.
    + intros ks'. now rewrite H1, Ha.
    + pose proof (HK ks1 (f v s1)) as H2.
      destruct (K (f v s1) ks1) as [[] s2 ks2 | w2 s2].
      * intros ks'. rewrite H1, Ha. apply H2.
      * destruct H2 as (a & s3 & H2 & _).
        exists a, s3. rewrite H1, Ha. auto.
  - destruct H1 as (a & s2 & H1 & Pa).
    exists tt, (f a s2). rewrite H1, (Hagain a s2 Pa). auto.
Qed.

(** After [result] is stored: the display of the result and, for a result
    that is not negative, the wait for Reset. *)
Lemma led_show_reset :
  reset_aware (fun _ : unit => True)
    (fun s ks =>
       match LED.displayBinaryWithBlink (LED.result s) s ks with
       | Wait w s => Wait w s
       | Ret _ s ks =>
           if LED.result s >=? 0 then LED.wait_reset WResult s ks
           else Ret tt s ks
       end).
Proof.
  intros ks s. cbv beta. unfold LED.displayBinaryWithBlink.
  destruct (Z.ltb_spec (LED.result s) 0) as [Hneg | Hpos].
  - set (number := if int_neg (LED.result s) >? 127 then 127
                   else int_neg (LED.result s)).
    pose proof (led_blink_loop_reset number 0 false ks s) as Hb.
    pose proof (led_blink_loop_result number ks 0 false s) as Hr.
    destruct (LED.blink_loop number 0 false s ks) as [[] s1 ks1 | w1 s1].
    + cbn [outcome_state] in Hr.
      destruct (Z.geb_spec (LED.result s1) 0) as [|_]; [lia|].
      intros ks'. rewrite Hb.
      destruct (Z.geb_spec (LED.result s1) 0) as [|_]; [lia|]. reflexivity.
    + destruct Hb as ([] & s2 & Hb & _).
      pose proof (led_blink_loop_result number (ks ++ [14]) 0 false s) as Hr2.
      rewrite Hb in Hr2. cbn [outcome_state] in Hr2.
      exists tt, s2. rewrite Hb.
      destruct (Z.geb_spec (LED.result s2) 0) as [|_]; [lia|]. auto.
  - cbn [LED.result LED.on_io LED.set_trace].
    destruct (LED.result s >=? 0).
    + apply led_wait_reset_reset.
    + intros ?. reflexivity.
Qed.

Lemma led_displayResult_loop_reset :
  reset_aware (fun _ : unit => True) LED.displayResult_loop.
Proof.
  intros ks. induction ks as [|k ks IH]; intros s.
  - cbn. eauto.
  - cbn [LED.displayResult_loop app].
    destruct (LED.keyVal (LED.set_keyVal (uchar k) s) =? 255); [apply IH|].
    destruct (LED.keyVal (LED.set_keyVal (uchar k) s) =? 15).
    + destruct (LED.doOperation _ _ _ _) as [r s1].
      destruct ((LED.result _ =? -1) && _).
      * apply led_wait_reset_reset.
      * apply (led_show_reset ks (LED.out [LATD 0] (LED.set_result r s1))).
    + destruct (LED.keyVal (LED.set_keyVal (uchar k) s) =? 14).
      * intros ?. reflexivity.
      * apply IH.
Qed.

Lemma led_displayResult_reset :
  reset_aware (fun _ : unit => True) LED.displayResult.
Proof.
  intros ks s. unfold LED.displayResult. apply led_displayResult_loop_reset.
Qed.

Lemma led_getNum1_reset : reset_aware (fun v => v = 0xFF) LED.getNum1.
Proof. intros ks s. unfold LED.getNum1. apply led_getNum1_first_reset. Qed.

Lemma led_getNum2_reset : reset_aware (fun v => v = 0xFF) LED.getNum2.
Proof. intros ks s. unfold LED.getNum2. apply led_getNum2_first_reset. Qed.

(** The body of the loop of [main] as a chain of such steps. *)
Lemma led_cycle_steps (s : LED.State) (ks : list Z) :
  LED.cycle s ks
  = step_then LED.getNum1
      (fun v s => LED.out [LATD 0x01] (LED.set_num1 v s))
      (fun s => LED.num1 s =? 0xFF)
      (step_then LED.getOperator
         (fun v s => LED.out [LATD 0x04] (LED.set_operator v s))
         (fun s => LED.operator s =? 0)
         (step_then LED.getNum2
            (fun v s => LED.out [LATD 0x02] (LED.set_num2 v s))
            (fun s => LED.num2 s =? 0xFF)
            (step_then LED.displayResult
               (fun _ s => LED.out [delay_ms 500] s)
               (fun _ => true)
               (fun s ks => Ret tt s ks))))
      (LED.resetCalculator s) ks.
Proof. reflexivity. Qed.

Lemma led_cycle_reset (ks : list Z) (s : LED.State) :
  match LED.cycle s ks with
  | Ret a s1 ks1 =>
      forall ks', LED.cycle s (ks ++ ks') = Ret a s1 (ks1 ++ ks')
  | Wait _ _ => exists s2, LED.cycle s (ks ++ [0xE]) = Ret tt s2 []
  end.
Proof.
  rewrite led_cycle_steps.
  match goal with
  | |- match ?F (LED.resetCalculator s) ks with _ => _ end =>
      assert (HF : reset_aware (fun _ : unit => True) F)
  end.
  { apply (step_then_reset (fun v => v = 0xFF)).
    - apply led_getNum1_reset.
    - intros a s0 ->. reflexivity.
    - apply (step_then_reset (fun v => v = 0)).
      + apply led_getOperator_reset.
      + intros a s0 ->. reflexivity.
      + apply (step_then_reset (fun v => v = 0xFF)).
        * apply led_getNum2_reset.
        * intros a s0 ->. reflexivity.
        * apply (step_then_reset (fun _ => True)).
          -- apply led_displayResult_reset.
          -- reflexivity.
          -- intros ks0 s0 ks'. reflexivity. }
  pose proof (HF ks (LED.resetCalculator s)) as H.
  destruct (step_then _ _ _ _ (LED.resetCalculator s) ks)
    as [[] s1 ks1 | w1 s1].
  - intros ks'. rewrite led_cycle_steps. apply H.
  - destruct H as ([] & s2 & H & _). exists s2.
    rewrite led_cycle_steps. exact H.
Qed.

Lemma led_main_loop_reset (fuel : nat) :
  forall (s : LED.State) (ks : list Z),
    (length ks + 1 < fuel)%nat ->
    exists s',
      LED.main_loop fuel s (ks ++ [0xE]) = Some (WNum1First, s') /\
      LED.num1 s' = 0 /\ LED.num2 s' = 0 /\ LED.operator s' = 0.
Proof.
  induction fuel as [|fuel IH]; intros s ks Hlen; [lia|].
  cbn [LED.main_loop].
  pose proof (led_cycle_reset ks s) as Hr.
  pose proof (led_cycle_consumed s ks) as Hc.
  destruct (LED.cycle s ks) as [[] s1 ks1 | w1 s1].
  - rewrite Hr. cbn [consumed] in Hc. apply IH. lia.
  - destruct Hr as (s2 & Hr). rewrite Hr.
    destruct fuel as [|fuel]; [lia|].
    cbn [LED.main_loop]. eexists. split; [reflexivity|].
    repeat split.
Qed.

(** X10: in the LED program the Reset key, pressed after any keys whatever,
    brings [main] back to the poll for the first digit of the first operand
    with both operands and the operator cleared. *)
Theorem led_reset_from_any_state (ks : list Z) :
  exists s,
    LED.main (ks ++ [0xE]) = Some (WNum1First, s) /\
    LED.num1 s = 0 /\ LED.num2 s = 0 /\ LED.operator s = 0.
Proof.
  unfold LED.main. apply led_main_loop_reset.
  rewrite length_app. simpl. lia.
Qed.

(** * More on the keypad scanner *)

Ltac four_cases x :=
  match goal with
  | H : 0 <= x <= 3 |- _ =>
      let E := fresh "E" in
      assert (E : x = 0 \/ x = 1 \/ x = 2 \/ x = 3) by lia;
      clear H; destruct E as [-> | [-> | [-> | ->]]]
  end.

(** X1: [scanKeypad] returns the no-key value 0xFF exactly when no row
    line (bits 4 to 7 of PORTB) is asserted in any of the four column
    samples; as every key code is at most 0xF, a pressed key is never taken
    for "no key" nor the reverse. *)
Theorem scanKeypad_no_key_iff :
  forall portb : Z -> Z,
    (Keypad.scanKeypad portb = 0xFF <->
     forall col row,
       0 <= col <= 3 -> 0 <= row <= 3 ->
       Z.testbit (portb col) (row + 4) = false) /\
    (Keypad.scanKeypad portb <> 0xFF -> 0 <= Keypad.scanKeypad portb <= 0xF).
Proof.
  intros portb. split.
  - unfold Keypad.scanKeypad, Keypad.scanCols, Keypad.scanRows.
    repeat match goal with
           | |- context [if Z.testbit (portb ?c) (?r + 4) then _ else _] =>
               let E := fresh "E" in
               destruct (Z.testbit (portb c) (r + 4)) eqn:E;
               [ split;
                 [ intros Hff; vm_compute in Hff; discriminate Hff
                 | intros Hall;
                   rewrite (Hall c r ltac:(lia) ltac:(lia)) in E;
                   discriminate E ]
               | ]
           end.
    split; [|reflexivity].
    intros _ col row Hc Hr. four_cases col; four_cases row; assumption.
  - intros Hne. destruct (scanKeypad_codes portb) as [H | H];
      [exact H | contradiction].
Qed.

(** X2: simultaneous presses are resolved by scan order: when [(row, col)]
    is the first asserted position, columns taken in order and rows in
    order inside a column, [scanKeypad] returns the code of that key. *)
Theorem scanKeypad_first_hit :
  forall (portb : Z -> Z) (row col : Z),
    0 <= row <= 3 -> 0 <= col <= 3 ->
    Z.testbit (portb col) (row + 4) = true ->
    (forall c r,
        0 <= c <= 3 -> 0 <= r <= 3 ->
        c < col \/ (c = col /\ r < row) ->
        Z.testbit (portb c) (r + 4) = false) ->
    Keypad.scanKeypad portb = Keypad.keyTable row col.
Proof.
  intros portb row col Hr Hc Hbit Hearlier.
  unfold Keypad.scanKeypad, Keypad.scanCols, Keypad.scanRows.
  four_cases row; four_cases col;
    repeat match goal with
           | |- context [if Z.testbit (portb ?c) (?r + 4) then _ else _] =>
               first [ rewrite Hbit
                     | rewrite (Hearlier c r ltac:(lia) ltac:(lia) ltac:(lia)) ]
           end;
    reflexivity.
Qed.

Lemma scanKeypad_first_hit_witness :
  Keypad.scanKeypad (fun c => if c =? 1 then 0xA0 else if c =? 2 then 0x10 else 0)
  = Keypad.keyTable 1 1.
Proof.
  apply (scanKeypad_first_hit
           (fun c => if c =? 1 then 0xA0 else if c =? 2 then 0x10 else 0) 1 1);
    try lia; [reflexivity|].
  intros c r Hc Hr Hlt.
  assert (E : c = 0 \/ (c = 1 /\ r = 0)) by lia.
  destruct E as [-> | [-> ->]]; [apply Z.testbit_0_l | reflexivity].
Defined.

(** X3: the key table is a one-to-one layout: two different positions of
    the 4x4 matrix never give the same code, and every code from 0 to 0xF
    belongs to a position. *)
Theorem keyTable_layout :
  (forall row col row' col',
      0 <= row <= 3 /\ 0 <= col <= 3 /\ 0 <= row' <= 3 /\ 0 <= col' <= 3 /\
      Keypad.keyTable row col = Keypad.keyTable row' col' ->
      row = row' /\ col = col') /\
  (forall key,
      0 <= key <= 0xF ->
      exists row col,
        0 <= row <= 3 /\ 0 <= col <= 3 /\ Keypad.keyTable row col = key).
Proof.
  split.
  - intros row col row' col' (Hr & Hc & Hr' & Hc' & Heq).
    four_cases row; four_cases col; four_cases row'; four_cases col';
      first [ split; reflexivity | vm_compute in Heq; discriminate Heq ].
  - intros key Hk.
    assert (E : key = 0 \/ key = 1 \/ key = 2 \/ key = 3 \/ key = 4 \/ key = 5
                \/ key = 6 \/ key = 7 \/ key = 8 \/ key = 9 \/ key = 10
                \/ key = 11 \/ key = 12 \/ key = 13 \/ key = 14 \/ key = 15)
      by lia.
    repeat (destruct E as [-> | E]); [..|subst key].
    + exists 3, 1. repeat split; lia.
    + exists 0, 0. repeat split; lia.
    + exists 0, 1. repeat split; lia.
    + exists 0, 2. repeat split; lia.
    + exists 1, 0. repeat split; lia.
    + exists 1, 1. repeat split; lia.
    + exists 1, 2. repeat split; lia.
    + exists 2, 0. repeat split; lia.
    + exists 2, 1. repeat split; lia.
    + exists 2, 2. repeat split; lia.
    + exists 0, 3. repeat split; lia.
    + exists 1, 3. repeat split; lia.
    + exists 2, 3. repeat split; lia.
    + exists 3, 3. repeat split; lia.
    + exists 3, 0. repeat split; lia.
    + exists 3, 2. repeat split; lia.
Qed.

(** * The LED program: the registers stay in range *)

Lemma led_doOperation_any_range (a b op : Z) (s : LED.State) :
  0 <= a <= 99 -> 0 <= b <= 99 ->
  -99 <= fst (LED.doOperation a b op s) <= 198.
Proof.
  intros Ha Hb. unfold LED.doOperation.
  destruct (op =? 0xA) eqn:EA.
  { apply Z.eqb_eq in EA. subst op.
    apply (led_doOperation_range a b 0xA s Ha Hb). auto. }
  destruct (op =? 0xB) eqn:EB.
  { apply Z.eqb_eq in EB. subst op.
    apply (led_doOperation_range a b 0xB s Ha Hb). auto. }
  destruct (op =? 0xC) eqn:EC.
  { apply Z.eqb_eq in EC. subst op.
    apply (led_doOperation_range a b 0xC s Ha Hb). auto. }
  destruct (op =? 0xD); [|simpl; lia].
  destruct (Z.eqb_spec b 0) as [-> | Hb0]; simpl; [lia|].
  unfold int_div.
  assert (Hq : 0 <= Z.quot a b <= 99).
  { split; [apply Z.quot_pos; lia|].
    apply Z.le_trans with a; [|lia].
    apply Z.quot_le_upper_bound; nia. }
  rewrite wrap16_small; lia.
Qed.

Lemma led_resetCalculator_in_range (s : LED.State) :
  -99 <= LED.result s <= 198 -> LED.in_range (LED.resetCalculator s).
Proof.
  intros Hr. unfold LED.in_range, LED.resetCalculator, opcode_ok. led_proj.
  lia.
Qed.

(** Bringing an invariant on a state to its fields. *)
Ltac led_in_range :=
  unfold LED.in_range, LED.resetCalculator, opcode_ok, operand_or_reset,
    MAX_INPUT in *;
  led_proj.

Ltac led_proj_in H :=
  cbn [LED.num11 LED.num12 LED.num21 LED.num22 LED.num1 LED.num2 LED.operator
       LED.keyVal LED.result LED.waitingForHashKey LED.validInput LED.trace
       LED.set_num11 LED.set_num12 LED.set_num21 LED.set_num22 LED.set_num1
       LED.set_num2 LED.set_operator LED.set_keyVal LED.set_result
       LED.set_waitingForHashKey LED.set_validInput LED.set_trace
       LED.out LED.on_io] in H.

Ltac led_inv_leaf IH :=
  cbn [andb]; cbv iota; led_proj;
  first [ apply IH; led_in_range; intuition lia
        | cbn [holds]; led_in_range; intuition lia ].

Lemma led_getNum1_second_in_range (ks : list Z) :
  forall s : LED.State,
    0 <= LED.num11 s <= 9 -> LED.in_range s ->
    holds (fun v s' => LED.in_range s' /\ operand_or_reset v) LED.in_range
      (LED.getNum1_second s ks).
Proof.
  induction ks as [|k ks IH]; intros s H11 Hs; [exact Hs|].
  pose proof (uchar_range k).
  cbn [LED.getNum1_second]. led_proj. unfold int_add, int_mul.
  rewrite (wrap16_small (LED.num11 s * 10)) by lia.
  rewrite (wrap16_small (LED.num11 s * 10 + uchar k)) by lia.
  key_tests; led_inv_leaf IH.
Qed.

Lemma led_getNum1_first_in_range (ks : list Z) :
  forall s : LED.State,
    LED.in_range s ->
    holds (fun v s' => LED.in_range s' /\ operand_or_reset v) LED.in_range
      (LED.getNum1_first s ks).
Proof.
  induction ks as [|k ks IH]; intros s Hs; [exact Hs|].
  pose proof (uchar_range k).
  cbn [LED.getNum1_first]. led_proj.
  key_tests; cbn [andb]; cbv iota; led_proj;
    first [ apply IH; led_in_range; intuition lia
          | apply led_getNum1_second_in_range; led_in_range; intuition lia
          | cbn [holds]; led_in_range; intuition lia ].
Qed.

Lemma led_getOperator_loop_in_range (ks : list Z) :
  forall s : LED.State,
    LED.in_range s ->
    holds (fun v s' => LED.in_range s' /\ opcode_ok v) LED.in_range
      (LED.getOperator_loop s ks).
Proof.
  induction ks as [|k ks IH]; intros s Hs; [exact Hs|].
  pose proof (uchar_range k).
  cbn [LED.getOperator_loop]. led_proj.
  key_tests; led_inv_leaf IH.
Qed.

Lemma led_getOperator_in_range (s : LED.State) (ks : list Z) :
  LED.in_range s ->
  holds (fun v s' => LED.in_range s' /\ opcode_ok v) LED.in_range
    (LED.getOperator s ks).
Proof.
  intros Hs. unfold LED.getOperator.
  destruct (Z.geb_spec (LED.operator s) 10);
    destruct (Z.leb_spec (LED.operator s) 13); cbn [andb]; cbv iota;
    first [ apply led_getOperator_loop_in_range; led_in_range; intuition lia
          | cbn [holds]; led_in_range; intuition lia ].
Qed.

Lemma led_getNum2_second_in_range (ks : list Z) :
  forall s : LED.State,
    0 <= LED.num21 s <= 9 -> LED.in_range s ->
    holds (fun v s' => LED.in_range s' /\ operand_or_reset v) LED.in_range
      (LED.getNum2_second s ks).
Proof.
  induction ks as [|k ks IH]; intros s H21 Hs; [exact Hs|].
  pose proof (uchar_range k).
  cbn [LED.getNum2_second]. led_proj. unfold int_add, int_mul.
  rewrite (wrap16_small (LED.num21 s * 10)) by lia.
  rewrite (wrap16_small (LED.num21 s * 10 + uchar k)) by lia.
  key_tests; led_inv_leaf IH.
Qed.

Lemma led_getNum2_first_in_range (ks : list Z) :
  forall s : LED.State,
    LED.in_range s ->
    holds (fun v s' => LED.in_range s' /\ operand_or_reset v) LED.in_range
      (LED.getNum2_first s ks).
Proof.
  induction ks as [|k ks IH]; intros s Hs; [exact Hs|].
  pose proof (uchar_range k).
  cbn [LED.getNum2_first]. led_proj.
  key_tests; cbn [andb]; cbv iota; led_proj;
    first [ apply IH; led_in_range; intuition lia
          | apply led_getNum2_second_in_range; led_in_range; intuition lia
          | cbn [holds]; led_in_range; intuition lia ].
Qed.

Lemma led_wait_reset_in_range (w : waitpoint) (ks : list Z) :
  forall s : LED.State,
    LED.in_range s ->
    holds (fun _ s' => LED.in_range s') LED.in_range (LED.wait_reset w s ks).
Proof.
  induction ks as [|k ks IH]; intros s Hs; [exact Hs|].
  pose proof (uchar_range k).
  cbn [LED.wait_reset]. led_proj.
  key_tests; led_inv_leaf IH.
Qed.

Lemma led_blink_loop_in_range (number : Z) (ks : list Z) :
  forall (counter : Z) (state : bool) (s : LED.State),
    LED.in_range s ->
    holds (fun _ s' => LED.in_range s') LED.in_range
      (LED.blink_loop number counter state s ks).
Proof.
  induction ks as [|k ks IH]; intros counter state s Hs.
  - cbn [LED.blink_loop].
    destruct (if (counter + 1) mod 65536 >=? 5 then negb state else state);
      cbn [holds]; led_in_range; intuition lia.
  - pose proof (uchar_range k).
    cbn [LED.blink_loop].
    destruct (if (counter + 1) mod 65536 >=? 5 then negb state else state);
      led_proj;
      (destruct (Z.eqb_spec (uchar k) 14);
       [ cbn [holds]; led_in_range; intuition lia
       | apply IH; led_in_range; intuition lia ]).
Qed.

Lemma led_doOperation_snd (n1 n2 op : Z) (s : LED.State) :
  LED.registers (snd (LED.doOperation n1 n2 op s)) = LED.registers s.
Proof.
  unfold LED.doOperation.
  repeat match goal with
         | |- context [if ?b then _ else _] => destruct b
         end; reflexivity.
Qed.

Lemma led_show_in_range (s : LED.State) (ks : list Z) :
  LED.in_range s ->
  holds (fun _ s' => LED.in_range s') LED.in_range
    match LED.displayBinaryWithBlink (LED.result s) s ks with
    | Wait w s => Wait w s
    | Ret _ s ks =>
        if LED.result s >=? 0 then LED.wait_reset WResult s ks
        else Ret tt s ks
    end.
Proof.
  intros Hs. unfold LED.displayBinaryWithBlink.
  destruct (LED.result s <? 0).
  - match goal with
    | |- context [LED.blink_loop ?n ?c ?b s ks] =>
        pose proof (led_blink_loop_in_range n ks c b s Hs) as Hb;
        destruct (LED.blink_loop n c b s ks) as [[] s1 ks1 | w1 s1]
    end; [|exact Hb].
    cbn [holds] in Hb.
    destruct (LED.result s1 >=? 0); [|exact Hb].
    now apply led_wait_reset_in_range.
  - led_proj. destruct (LED.result s >=? 0).
    + apply led_wait_reset_in_range. led_in_range. intuition lia.
    + cbn [holds]. led_in_range. intuition lia.
Qed.

Lemma led_displayResult_loop_in_range (ks : list Z) :
  forall s : LED.State,
    LED.in_range s ->
    holds (fun _ s' => LED.in_range s') LED.in_range
      (LED.displayResult_loop s ks).
Proof.
  induction ks as [|k ks IH]; intros s Hs; [exact Hs|].
  cbn [LED.displayResult_loop]. led_proj.
  destruct (uchar k =? 255).
  { apply IH. led_in_range. intuition lia. }
  destruct (uchar k =? 15).
  - pose proof (led_doOperation_any_range (LED.num1 s) (LED.num2 s)
                  (LED.operator s) (LED.set_keyVal (uchar k) s)) as Hr.
    pose proof (led_doOperation_snd (LED.num1 s) (LED.num2 s)
                  (LED.operator s) (LED.set_keyVal (uchar k) s)) as Hreg.
    destruct (LED.doOperation (LED.num1 s) (LED.num2 s) (LED.operator s)
                (LED.set_keyVal (uchar k) s)) as [r s1].
    cbn [fst snd] in Hr, Hreg.
    apply led_registers_fields in Hreg. led_proj_in Hreg.
    destruct Hreg as (R1 & R2 & R3 & _).
    assert (Hs2 : LED.in_range (LED.out [LATD 0] (LED.set_result r s1))).
    { led_in_range. rewrite R1, R2, R3. intuition lia. }
    led_proj.
    destruct ((r =? -1) && (LED.num2 s1 =? 0)).
    + now apply led_wait_reset_in_range.
    + apply (led_show_in_range (LED.out [LATD 0] (LED.set_result r s1)) ks
               Hs2).
  - destruct (uchar k =? 14).
    + cbn [holds]. led_in_range. intuition lia.
    + apply IH. led_in_range. intuition lia.
Qed.

Lemma led_displayResult_in_range (s : LED.State) (ks : list Z) :
  LED.in_range s ->
  holds (fun _ s' => LED.in_range s') LED.in_range (LED.displayResult s ks).
Proof.
  intros Hs. unfold LED.displayResult.
  apply led_displayResult_loop_in_range.
  destruct (negb (LED.waitingForHashKey s)); led_in_range; intuition lia.
Qed.

(** An invariant [I] of the polling places carried through a step of
    [main]; [R] is what a finished pass hands to the next one. *)
Lemma step_then_holds {S A : Type} (I R : S -> Prop) (PA : A -> Prop)
  (L : S -> list Z -> outcome S A) (f : A -> S -> S) (again : S -> bool)
  (K : S -> list Z -> outcome S unit) :
  (forall s ks, I s -> holds (fun v s' => I s' /\ PA v) I (L s ks)) ->
  (forall v s, I s -> PA v -> again (f v s) = true -> R (f v s)) ->
  (forall v s, I s -> PA v -> again (f v s) = false -> I (f v s)) ->
  (forall s ks, I s -> holds (fun _ s' => R s') I (K s ks)) ->
  forall s ks, I s -> holds (fun _ s' => R s') I (step_then L f again K s ks).
Proof.
  intros HL Hagain Hgo HK s ks Hs. unfold step_then.
  pose proof (HL s ks Hs) as H1.
  destruct (L s ks) as [v s1 ks1 | w s1]; [|exact H1].
  cbn [holds] in H1. destruct H1 as [Hs1 Hv].
  destruct (again (f v s1)) eqn:Ha.
  - cbn [holds]. now apply Hagain.
  - apply HK. now apply Hgo.
Qed.

Lemma led_cycle_in_range (s : LED.State) (ks : list Z) :
  -99 <= LED.result s <= 198 ->
  holds (fun _ s' => -99 <= LED.result s' <= 198) LED.in_range
    (LED.cycle s ks).
Proof.
  intros Hr. rewrite led_cycle_steps.
  apply (step_then_holds LED.in_range _ operand_or_reset).
  - intros s0 ks0 Hs0. unfold LED.getNum1.
    apply led_getNum1_first_in_range. led_in_range. intuition lia.
  - intros v s0 Hs0 Hv _. led_in_range. intuition lia.
  - intros v s0 Hs0 Hv Ha. led_proj_in Ha. apply Z.eqb_neq in Ha.
    led_in_range. intuition lia.
  - apply (step_then_holds LED.in_range _ opcode_ok).
    + intros s0 ks0 Hs0. now apply led_getOperator_in_range.
    + intros v s0 Hs0 Hv _. led_in_range. intuition lia.
    + intros v s0 Hs0 Hv _. led_in_range. intuition lia.
    + apply (step_then_holds LED.in_range _ operand_or_reset).
      * intros s0 ks0 Hs0. unfold LED.getNum2.
        apply led_getNum2_first_in_range. led_in_range. intuition lia.
      * intros v s0 Hs0 Hv _. led_in_range. intuition lia.
      * intros v s0 Hs0 Hv Ha. led_proj_in Ha. apply Z.eqb_neq in Ha.
        led_in_range. intuition lia.
      * apply (step_then_holds LED.in_range _ (fun _ => True)).
        -- intros s0 ks0 Hs0.
           pose proof (led_displayResult_in_range s0 ks0 Hs0) as Hd.
           destruct (LED.displayResult s0 ks0); cbn [holds] in *; auto.
        -- intros v s0 Hs0 _ _. led_in_range. intuition lia.
        -- intros v s0 Hs0 _ Ha. discriminate Ha.
        -- intros s0 ks0 Hs0. cbn [holds]. led_in_range. intuition lia.
  - now apply led_resetCalculator_in_range.
Qed.

Lemma led_main_loop_in_range (fuel : nat) :
  forall (s : LED.State) (ks : list Z),
    -99 <= LED.result s <= 198 ->
    (length ks < fuel)%nat ->
    match LED.main_loop fuel s ks with
    | Some (_, s') => LED.in_range s'
    | None => False
    end.
Proof.
  induction fuel as [|fuel IH]; intros s ks Hr Hlen; [lia|].
  cbn [LED.main_loop].
  pose proof (led_cycle_in_range s ks Hr) as Hc.
  pose proof (led_cycle_consumed s ks) as Hn.
  destruct (LED.cycle s ks) as [[] s1 ks1 | w1 s1].
  - cbn [holds consumed] in *. apply IH; [assumption | lia].
  - exact Hc.
Qed.

(** X4: whatever keys arrive, [main] of the LED program ends up polling
    the keypad, and at every such polling place both operands lie between
    0 and 99, the operator register holds 0 or one of the codes 0xA to
    0xD, and the result lies between -99 and 198: the values 0xFF and 0
    that the input routines return for Reset never stay in the registers,
    and nothing the presenter can be asked to show exceeds 8 bits. *)
Theorem led_registers_in_range :
  forall ks : list Z,
    match LED.main ks with
    | Some (_, s) => LED.in_range s
    | None => False
    end.
Proof.
  intros ks. unfold LED.main. apply led_main_loop_in_range.
  - vm_compute. split; discriminate.
  - lia.
Qed.
(** * The 7-segment program: the registers stay in range *)

Ltac seg_proj_in H :=
  cbn [SevenSeg.num1_tens SevenSeg.num1_units SevenSeg.num2_tens SevenSeg.num2_units SevenSeg.num1 SevenSeg.num2 SevenSeg.operator SevenSeg.keyVal SevenSeg.result SevenSeg.displayMode SevenSeg.waitingForHashKey SevenSeg.validInput SevenSeg.currentDisplayValue SevenSeg.isDisplayNegative SevenSeg.previousMode SevenSeg.displayToggle SevenSeg.trace
       SevenSeg.set_num1_tens SevenSeg.set_num1_units SevenSeg.set_num2_tens SevenSeg.set_num2_units SevenSeg.set_num1 SevenSeg.set_num2 SevenSeg.set_operator SevenSeg.set_keyVal SevenSeg.set_result SevenSeg.set_displayMode SevenSeg.set_waitingForHashKey SevenSeg.set_validInput SevenSeg.set_currentDisplayValue SevenSeg.set_isDisplayNegative SevenSeg.set_previousMode SevenSeg.set_displayToggle SevenSeg.set_trace
       SevenSeg.out SevenSeg.on_io SevenSeg.refreshDisplay] in H.

(** Bringing an invariant on a state to its fields. *)
Ltac seg_in_range :=
  unfold SevenSeg.in_range, SevenSeg.resetCalculator, opcode_ok,
    operand_or_reset, MAX_INPUT in *;
  autorewrite with seg_display;
  seg_proj;
  unfold SevenSeg.DISPLAY_RESET, SevenSeg.DISPLAY_NUM1,
    SevenSeg.DISPLAY_OPERATOR, SevenSeg.DISPLAY_NUM2,
    SevenSeg.DISPLAY_RESULT in *.

Lemma seg_scanKeypad_in_range (s : SevenSeg.State) (k : Z) :
  SevenSeg.in_range s ->
  SevenSeg.in_range (SevenSeg.scanKeypad s k) /\
  SevenSeg.keyVal (SevenSeg.scanKeypad s k) = uchar k /\
  SevenSeg.num1_tens (SevenSeg.scanKeypad s k) = SevenSeg.num1_tens s /\
  SevenSeg.num2_tens (SevenSeg.scanKeypad s k) = SevenSeg.num2_tens s.
Proof.
  intros Hs. unfold SevenSeg.in_range in *.
  rewrite seg_scanKeypad_displayToggle by tauto.
  autorewrite with seg_fields. tauto.
Qed.

(** One iteration of a polling loop: the scanned state is in range again
    and holds the key. *)
Ltac seg_inv_scan s k Hs :=
  let Hk := fresh "Hk" in
  let Ht1 := fresh "Ht1" in
  let Ht2 := fresh "Ht2" in
  seg_proj;
  destruct (seg_scanKeypad_in_range s k Hs) as (Hs1 & Hk & Ht1 & Ht2);
  revert Hs1 Hk Ht1 Ht2;
  generalize (SevenSeg.scanKeypad s k);
  intros s1 Hs1 Hk Ht1 Ht2;
  rewrite ?Hk; rewrite ?Ht1; rewrite ?Ht2;
  pose proof (uchar_range k).

Ltac seg_inv_leaf IH :=
  cbn [andb]; cbv iota; seg_proj;
  first [ apply IH; seg_in_range; intuition lia
        | cbn [holds]; seg_in_range; intuition lia ].

Lemma seg_resetCalculator_in_range (s : SevenSeg.State) :
  -99 <= SevenSeg.result s <= 99 ->
  SevenSeg.displayMode s <> SevenSeg.DISPLAY_OPERATOR ->
  SevenSeg.displayToggle s = 0 ->
  SevenSeg.in_range (SevenSeg.resetCalculator s).
Proof. intros Hr Hm Ht. seg_in_range. intuition lia. Qed.

Lemma seg_getNum1_second_in_range (ks : list Z) :
  forall s : SevenSeg.State,
    0 <= SevenSeg.num1_tens s <= 9 -> SevenSeg.in_range s ->
    holds (fun v s' => SevenSeg.in_range s' /\ operand_or_reset v)
      SevenSeg.in_range (SevenSeg.getNum1_second s ks).
Proof.
  induction ks as [|k ks IH]; intros s H11 Hs; [exact Hs|].
  cbn [SevenSeg.getNum1_second]. seg_inv_scan s k Hs.
  unfold int_add, int_mul.
  rewrite (wrap16_small (SevenSeg.num1_tens s * 10)) by lia.
  rewrite (wrap16_small (SevenSeg.num1_tens s * 10 + uchar k)) by lia.
  key_tests; seg_inv_leaf IH.
Qed.

Lemma seg_getNum1_first_in_range (ks : list Z) :
  forall s : SevenSeg.State,
    SevenSeg.in_range s ->
    holds (fun v s' => SevenSeg.in_range s' /\ operand_or_reset v)
      SevenSeg.in_range (SevenSeg.getNum1_first s ks).
Proof.
  induction ks as [|k ks IH]; intros s Hs; [exact Hs|].
  cbn [SevenSeg.getNum1_first]. seg_inv_scan s k Hs.
  key_tests; cbn [andb]; cbv iota; seg_proj;
    first [ apply IH; seg_in_range; intuition lia
          | apply seg_getNum1_second_in_range; seg_in_range; intuition lia
          | cbn [holds]; seg_in_range; intuition lia ].
Qed.

Lemma seg_getNum1_in_range (s : SevenSeg.State) (ks : list Z) :
  SevenSeg.in_range s ->
  holds (fun v s' => SevenSeg.in_range s' /\ operand_or_reset v)
    SevenSeg.in_range (SevenSeg.getNum1 s ks).
Proof.
  intros Hs. unfold SevenSeg.getNum1.
  apply seg_getNum1_first_in_range. seg_in_range. intuition lia.
Qed.

(** [getOperator] leaves the first operand on the display when it returns
    an operator. *)
Lemma seg_getOperator_loop_in_range (storedNum1 : Z) (ks : list Z) :
  0 <= storedNum1 <= 99 ->
  forall s : SevenSeg.State,
    SevenSeg.in_range s ->
    holds (fun v s' =>
             SevenSeg.in_range s' /\ opcode_ok v /\
             (v <> 0 -> SevenSeg.currentDisplayValue s' = storedNum1))
      SevenSeg.in_range (SevenSeg.getOperator_loop storedNum1 s ks).
Proof.
  intros Hn.
  induction ks as [|k ks IH]; intros s Hs.
  - cbn [SevenSeg.getOperator_loop holds]. seg_in_range. intuition lia.
  - cbn [SevenSeg.getOperator_loop].
    assert (Hs0 : SevenSeg.in_range
                    (SevenSeg.out [delay_ms 5]
                       (SevenSeg.on_io (SevenSeg.displayNumber storedNum1) s))).
    { seg_in_range. intuition lia. }
    revert Hs0.
    generalize (SevenSeg.out [delay_ms 5]
                  (SevenSeg.on_io (SevenSeg.displayNumber storedNum1) s)).
    clear s Hs. intros s Hs.
    seg_inv_scan s k Hs.
    key_tests; seg_inv_leaf IH.
Qed.

Lemma seg_getOperator_in_range (s : SevenSeg.State) (ks : list Z) :
  SevenSeg.in_range s ->
  holds (fun v s' =>
           SevenSeg.in_range s' /\ opcode_ok v /\
           (v <> 0 -> SevenSeg.currentDisplayValue s' = SevenSeg.num1 s))
    SevenSeg.in_range (SevenSeg.getOperator s ks).
Proof.
  intros Hs. unfold SevenSeg.getOperator.
  destruct (Z.geb_spec (SevenSeg.operator s) 10);
    destruct (Z.leb_spec (SevenSeg.operator s) 13); cbn [andb]; cbv iota;
    first [ apply seg_getOperator_loop_in_range;
            [unfold SevenSeg.in_range in Hs; tauto | exact Hs]
          | cbn [holds]; seg_in_range; intuition lia ].
Qed.

Lemma seg_getNum2_second_in_range (ks : list Z) :
  forall s : SevenSeg.State,
    0 <= SevenSeg.num2_tens s <= 9 -> SevenSeg.in_range s ->
    holds (fun v s' => SevenSeg.in_range s' /\ 0 <= v <= 99)
      SevenSeg.in_range (SevenSeg.getNum2_second s ks).
Proof.
  induction ks as [|k ks IH]; intros s H21 Hs; [exact Hs|].
  cbn [SevenSeg.getNum2_second]. seg_inv_scan s k Hs.
  unfold int_add, int_mul.
  rewrite (wrap16_small (SevenSeg.num2_tens s * 10)) by lia.
  rewrite (wrap16_small (SevenSeg.num2_tens s * 10 + uchar k)) by lia.
  key_tests; seg_inv_leaf IH.
Qed.

Lemma seg_getNum2_first_in_range (ks : list Z) :
  forall s : SevenSeg.State,
    SevenSeg.in_range s ->
    holds (fun v s' => SevenSeg.in_range s' /\ 0 <= v <= 99)
      SevenSeg.in_range (SevenSeg.getNum2_first s ks).
Proof.
  induction ks as [|k ks IH]; intros s Hs; [exact Hs|].
  cbn [SevenSeg.getNum2_first]. seg_inv_scan s k Hs.
  key_tests; cbn [andb]; cbv iota; seg_proj;
    first [ apply IH; seg_in_range; intuition lia
          | apply seg_getNum2_second_in_range; seg_in_range; intuition lia
          | cbn [holds]; seg_in_range; intuition lia ].
Qed.

Lemma seg_getNum2_in_range (s : SevenSeg.State) (ks : list Z) :
  SevenSeg.in_range s ->
  holds (fun v s' => SevenSeg.in_range s' /\ 0 <= v <= 99)
    SevenSeg.in_range (SevenSeg.getNum2 s ks).
Proof.
  intros Hs. unfold SevenSeg.getNum2.
  apply seg_getNum2_first_in_range. seg_in_range. intuition lia.
Qed.

Lemma seg_wait_reset_in_range (w : waitpoint) (ks : list Z) :
  forall s : SevenSeg.State,
    SevenSeg.in_range s ->
    holds (fun _ s' => SevenSeg.in_range s') SevenSeg.in_range
      (SevenSeg.wait_reset w s ks).
Proof.
  induction ks as [|k ks IH]; intros s Hs; [exact Hs|].
  cbn [SevenSeg.wait_reset]. seg_inv_scan s k Hs.
  key_tests; seg_inv_leaf IH.
Qed.

Lemma seg_doOperation_snd (n1 n2 op : Z) (s : SevenSeg.State) :
  SevenSeg.in_range s ->
  SevenSeg.in_range (snd (SevenSeg.doOperation n1 n2 op s)) /\
  SevenSeg.num1 (snd (SevenSeg.doOperation n1 n2 op s)) = SevenSeg.num1 s.
Proof.
  intros Hs. unfold SevenSeg.doOperation.
  repeat match goal with
         | |- context [if ?b then _ else _] => destruct b
         end; cbn [snd]; split; auto.
Qed.

Lemma seg_displayResult_loop_in_range (ks : list Z) :
  forall s : SevenSeg.State,
    SevenSeg.in_range s ->
    holds (fun _ s' => SevenSeg.in_range s') SevenSeg.in_range
      (SevenSeg.displayResult_loop s ks).
Proof.
  induction ks as [|k ks IH]; intros s Hs; [exact Hs|].
  cbn [SevenSeg.displayResult_loop]. seg_inv_scan s k Hs.
  destruct (Z.eqb_spec (uchar k) 255); [now apply IH|].
  destruct (Z.eqb_spec (uchar k) 15).
  - pose proof (sevenseg_doOperation_in_range (SevenSeg.num1 s1)
                  (SevenSeg.num2 s1) (SevenSeg.operator s1) s1) as Hr.
    destruct (seg_doOperation_snd (SevenSeg.num1 s1) (SevenSeg.num2 s1)
                (SevenSeg.operator s1) s1 Hs1) as [Hs2 _].
    destruct (SevenSeg.doOperation (SevenSeg.num1 s1) (SevenSeg.num2 s1)
                (SevenSeg.operator s1) s1) as [r s2].
    cbn [fst snd] in Hr, Hs2.
    apply seg_wait_reset_in_range. seg_in_range. intuition lia.
  - destruct (Z.eqb_spec (uchar k) 14).
    + cbn [holds]. seg_in_range. intuition lia.
    + now apply IH.
Qed.

Lemma seg_flashNum2_in_range (s : SevenSeg.State) :
  SevenSeg.in_range s -> SevenSeg.in_range (SevenSeg.flashNum2 s).
Proof.
  unfold SevenSeg.flashNum2. generalize 3%nat. intros n.
  induction n as [|n IH]; intros Hs; [exact Hs|].
  rewrite Nat.iter_succ. specialize (IH Hs). revert IH.
  generalize (Nat.iter n
    (fun s0 : SevenSeg.State =>
       SevenSeg.out [delay_ms 200]
         (SevenSeg.refreshDisplay (SevenSeg.num2 (SevenSeg.out [LATA 0; LATD 0; delay_ms 200] s0))
            (SevenSeg.out [LATA 0; LATD 0; delay_ms 200] s0))) s).
  intros s1 Hs1. seg_in_range. intuition lia.
Qed.

Lemma seg_displayResult_in_range (s : SevenSeg.State) (ks : list Z) :
  SevenSeg.in_range s ->
  holds (fun _ s' => SevenSeg.in_range s') SevenSeg.in_range
    (SevenSeg.displayResult s ks).
Proof.
  intros Hs. unfold SevenSeg.displayResult.
  apply seg_displayResult_loop_in_range.
  destruct (negb (SevenSeg.waitingForHashKey s));
    [now apply seg_flashNum2_in_range | exact Hs].
Qed.

Ltac seg_range_close :=
  seg_in_range;
  repeat match goal with H : _ /\ _ |- _ => destruct H end;
  repeat split; lia.

Lemma seg_cycle_in_range (s : SevenSeg.State) (ks : list Z) :
  -99 <= SevenSeg.result s <= 99 /\
  SevenSeg.displayMode s <> SevenSeg.DISPLAY_OPERATOR /\
  SevenSeg.displayToggle s = 0 ->
  holds (fun _ s' =>
           -99 <= SevenSeg.result s' <= 99 /\
           SevenSeg.displayMode s' <> SevenSeg.DISPLAY_OPERATOR /\
           SevenSeg.displayToggle s' = 0)
    SevenSeg.in_range (SevenSeg.cycle s ks).
Proof.
  intros Hs. unfold SevenSeg.cycle.
  assert (H0 : SevenSeg.in_range (SevenSeg.resetCalculator s)).
  { apply seg_resetCalculator_in_range; tauto. }
  pose proof (seg_getNum1_in_range _ ks H0) as H1. clear H0 Hs.
  destruct (SevenSeg.getNum1 (SevenSeg.resetCalculator s) ks)
    as [v1 s1 ks1 | w1 s1]; [|exact H1].
  cbn [holds] in H1. destruct H1 as [I1 V1]. seg_proj.
  destruct (Z.eqb_spec v1 255) as [E1 | E1].
  { cbn [holds]. clear - I1. seg_range_close. }
  assert (R1 : 0 <= v1 <= 99).
  { clear - V1 E1. unfold operand_or_reset in V1. lia. }
  clear V1 E1.
  assert (I2 : SevenSeg.in_range
                 (SevenSeg.set_currentDisplayValue v1
                    (SevenSeg.set_num1 v1 s1))).
  { clear - I1 R1. seg_range_close. }
  pose proof (seg_getOperator_in_range _ ks1 I2) as H2. clear I1 I2.
  destruct (SevenSeg.getOperator
              (SevenSeg.set_currentDisplayValue v1 (SevenSeg.set_num1 v1 s1))
              ks1) as [v2 s2 ks2 | w2 s2]; [|exact H2].
  cbn [holds] in H2. destruct H2 as (I3 & V2 & D2). seg_proj_in D2. seg_proj.
  destruct (Z.eqb_spec v2 0) as [E2 | E2].
  { cbn [holds]. clear - I3. seg_range_close. }
  specialize (D2 E2).
  assert (I4 : SevenSeg.in_range (SevenSeg.set_operator v2 s2)).
  { clear - I3 V2. seg_range_close. }
  pose proof (seg_getNum2_in_range _ ks2 I4) as H3. clear I3 I4 V2 E2.
  destruct (SevenSeg.getNum2 (SevenSeg.set_operator v2 s2) ks2)
    as [v3 s3 ks3 | w3 s3]; [|exact H3].
  cbn [holds] in H3. destruct H3 as [I5 V3]. seg_proj.
  destruct (Z.eqb_spec v3 255) as [E3 | E3]; [lia|].
  rewrite D2.
  assert (I6 : SevenSeg.in_range
                 (SevenSeg.set_num1 v1 (SevenSeg.set_num2 v3 s3))).
  { clear - I5 V3 R1. seg_range_close. }
  pose proof (seg_displayResult_in_range _ ks3 I6) as H4. clear I5 I6.
  destruct (SevenSeg.displayResult
              (SevenSeg.set_num1 v1 (SevenSeg.set_num2 v3 s3)) ks3)
    as [[] s4 ks4 | w4 s4]; [|exact H4].
  cbn [holds] in *. clear - H4. seg_range_close.
Qed.

Lemma seg_main_loop_in_range (fuel : nat) :
  forall (s : SevenSeg.State) (ks : list Z),
    -99 <= SevenSeg.result s <= 99 /\
    SevenSeg.displayMode s <> SevenSeg.DISPLAY_OPERATOR /\
    SevenSeg.displayToggle s = 0 ->
    (length ks < fuel)%nat ->
    match SevenSeg.main_loop fuel s ks with
    | Some (_, s') => SevenSeg.in_range s'
    | None => False
    end.
Proof.
  induction fuel as [|fuel IH]; intros s ks Hs Hlen; [lia|].
  cbn [SevenSeg.main_loop].
  pose proof (seg_cycle_in_range s ks Hs) as Hc.
  pose proof (seg_cycle_consumed s ks) as Hn.
  destruct (SevenSeg.cycle s ks) as [[] s1 ks1 | w1 s1].
  - cbn [holds consumed] in *. apply IH; [assumption | lia].
  - exact Hc.
Qed.

(** X5: whatever keys arrive, [main] of the 7-segment program ends up
    polling the keypad, and at every such polling place both operands lie
    between 0 and 99, the operator register holds 0 or one of the codes
    0xA to 0xD, the result and the displayed value lie between -99 and 99,
    and the display is not in operator mode, so that the operator branch of
    [scanKeypad] never runs and its counter stays 0. *)
Theorem sevenseg_registers_in_range :
  forall ks : list Z,
    match SevenSeg.main ks with
    | Some (_, s) => SevenSeg.in_range s
    | None => False
    end.
Proof.
  intros ks. unfold SevenSeg.main. apply seg_main_loop_in_range.
  - cbn. repeat split; try lia; discriminate.
  - lia.
Qed.
(** * The LED program: what a pass shows *)

Lemma last_events_snoc (t : io) (e : event) : last_events 1 (t ++ [e]) = [e].
Proof.
  unfold last_events. rewrite length_app. cbn [length].
  replace (length t + 1 - 1)%nat with (length t + 0)%nat by lia.
  rewrite skipn_app, Nat.add_0_r, skipn_all, Nat.sub_diag. reflexivity.
Qed.

(** [getNum2] leaves the first operand, the operator and the result alone
    unless it is left by Reset. *)
Lemma led_getNum2_second_keeps (ks : list Z) :
  forall s : LED.State,
    match LED.getNum2_second s ks with
    | Ret v s' _ =>
        v = 0xFF \/
        (LED.num1 s' = LED.num1 s /\ LED.operator s' = LED.operator s /\
         LED.result s' = LED.result s)
    | Wait _ s' =>
        LED.num1 s' = LED.num1 s /\ LED.operator s' = LED.operator s /\
        LED.result s' = LED.result s
    end.
Proof.
  induction ks as [|k ks IH]; intros s; [cbn; repeat split; reflexivity|].
  cbn [LED.getNum2_second].
  repeat match goal with
         | |- context [if ?b then _ else _] => destruct b
         end;
    first [ exact (IH _) | right; repeat split; reflexivity | left; reflexivity ].
Qed.

Lemma led_getNum2_first_keeps (ks : list Z) :
  forall s : LED.State,
    match LED.getNum2_first s ks with
    | Ret v s' _ =>
        v = 0xFF \/
        (LED.num1 s' = LED.num1 s /\ LED.operator s' = LED.operator s /\
         LED.result s' = LED.result s)
    | Wait _ s' =>
        LED.num1 s' = LED.num1 s /\ LED.operator s' = LED.operator s /\
        LED.result s' = LED.result s
    end.
Proof.
  induction ks as [|k ks IH]; intros s; [cbn; repeat split; reflexivity|].
  cbn [LED.getNum2_first].
  repeat match goal with
         | |- context [if ?b then _ else _] => destruct b
         end;
    first [ exact (IH _) | exact (led_getNum2_second_keeps ks _)
          | left; reflexivity ].
Qed.

Lemma led_magnitude_bits (n : Z) :
  0 <= n <= 127 ->
  Z.land (uchar n) 0x7F = n /\ Z.lor (uchar n) 0x80 = n + 128.
Proof.
  intros Hn. rewrite uchar_small by lia.
  split.
  - change 0x7F with (Z.ones 7). rewrite Z.land_ones by lia.
    apply Z.mod_small. change (2 ^ 7) with 128. lia.
  - change 0x80 with (2 ^ 7).
    assert (H0 : Z.land n (2 ^ 7) = 0).
    2: { rewrite <- Z.lxor_lor, <- Z.add_nocarry_lxor by exact H0.
         reflexivity. }
    { apply Z.bits_inj'. intros i Hi. rewrite Z.land_spec, Z.bits_0.
      destruct (Z.eq_dec i 7) as [-> | Hi7].
      * replace (Z.testbit n 7) with false; [reflexivity|].
        symmetry. apply Z.bits_above_log2; [lia|].
        destruct (Z.eq_dec n 0) as [-> | Hn0]; [reflexivity|].
        apply Z.log2_lt_pow2; [lia|]. change (2 ^ 7) with 128. lia.
      * rewrite Z.pow2_bits_false by lia. apply andb_false_r. }
Qed.

(** The blink of a negative result: while no Reset arrives the loop keeps
    polling; the phase is toggled on every fifth scan. *)
Lemma led_blink_loop_phase (number : Z) (ks : list Z) :
  forall (c : Z) (b : bool) (s : LED.State),
    0 <= c < 5 -> no_reset ks ->
    exists s',
      LED.blink_loop number c b s ks = Wait WNegBlink s' /\
      LED.registers s' = LED.registers s /\
      last_events 1 (LED.trace s')
      = [LATD (if xorb b (Z.odd ((c + Z.of_nat (length ks) + 1) / 5))
               then Z.lor (uchar number) 0x80
               else Z.land (uchar number) 0x7F)].
Proof.
  induction ks as [|k ks IH]; intros c b s Hc Hks.
  - cbn [LED.blink_loop length Z.of_nat].
    rewrite (Z.mod_small (c + 1)) by lia. rewrite Z.add_0_r.
    destruct (Z.geb_spec (c + 1) 5) as [H5 | H5].
    + replace ((c + 1) / 5) with 1 by (apply Z.div_unique with 0; lia).
      change (Z.odd 1) with true. rewrite xorb_true_r.
      destruct (negb b); eexists; (split; [reflexivity|]);
        (split; [reflexivity|]); led_proj; apply last_events_snoc.
    + rewrite Z.div_small by lia. change (Z.odd 0) with false.
      rewrite xorb_false_r.
      destruct b; eexists; (split; [reflexivity|]);
        (split; [reflexivity|]); led_proj; apply last_events_snoc.
  - inversion Hks as [|? ? Hk Hks']; subst.
    cbn [LED.blink_loop].
    rewrite (Z.mod_small (c + 1)) by lia.
    replace (Z.of_nat (length (k :: ks))) with (Z.of_nat (length ks) + 1)
      by (cbn [length]; lia).
    destruct (Z.geb_spec (c + 1) 5) as [H5 | H5].
    + assert (c = 4) by lia. subst c.
      replace ((4 + (Z.of_nat (length ks) + 1) + 1) / 5)
        with ((0 + Z.of_nat (length ks) + 1) / 5 + 1)
        by (rewrite <- Z.div_add by lia; f_equal; lia).
      rewrite Z.odd_add. change (Z.odd 1) with true.
      match goal with
      | |- context [LED.set_keyVal (uchar k) ?st] =>
          destruct (IH 0 (negb b)
                      (LED.out [delay_ms 25] (LED.set_keyVal (uchar k) st)))
            as (s' & E & R & T); [lia | assumption |]
      end.
      exists s'. led_proj.
      destruct (Z.eqb_spec (uchar k) 0xE); [contradiction|].
      split; [|split].
      * destruct (negb b); exact E.
      * rewrite R. destruct (negb b); reflexivity.
      * rewrite T. destruct b, (Z.odd ((0 + Z.of_nat (length ks) + 1) / 5));
          reflexivity.
    + replace (c + (Z.of_nat (length ks) + 1) + 1)
        with ((c + 1) + Z.of_nat (length ks) + 1) by lia.
      match goal with
      | |- context [LED.set_keyVal (uchar k) ?st] =>
          destruct (IH (c + 1) b
                      (LED.out [delay_ms 25] (LED.set_keyVal (uchar k) st)))
            as (s' & E & R & T); [lia | assumption |]
      end.
      exists s'. led_proj.
      destruct (Z.eqb_spec (uchar k) 0xE); [contradiction|].
      split; [|split].
      * destruct b; exact E.
      * rewrite R. destruct b; reflexivity.
      * exact T.
Qed.

(** Confirm in the waiting loop of [displayResult]: the result is computed,
    stored and shown. *)
Lemma led_displayResult_loop_shows (s : LED.State) (r : Z) :
  0 <= LED.num1 s <= 99 -> 0 <= LED.num2 s <= 99 ->
  ~ (LED.operator s = 0xD /\ LED.num2 s = 0) ->
  r = fst (LED.doOperation (LED.num1 s) (LED.num2 s) (LED.operator s) s) ->
  exists s',
    LED.displayResult_loop s [0xF]
    = Wait (if r <? 0 then WNegBlink else WResult) s' /\
    LED.registers s' = (LED.num1 s, LED.num2 s, LED.operator s, r) /\
    last_events 1 (LED.trace s') = [LATD (Z.abs r)].
Proof.
  intros H1 H2 Hdiv Hr.
  pose proof (led_doOperation_any_range (LED.num1 s) (LED.num2 s)
                (LED.operator s) s H1 H2) as Hrange.
  rewrite <- Hr in Hrange.
  assert (Herr : (r =? -1) && (LED.num2 s =? 0) = false).
  { destruct (Z.eqb_spec (LED.num2 s) 0) as [E0 | ?];
      [|apply andb_false_r].
    destruct (Z.eqb_spec r (-1)) as [E1 | ?]; [|reflexivity].
    exfalso. revert Hr. rewrite E1, E0. unfold LED.doOperation.
    destruct (Z.eqb_spec (LED.operator s) 0xA);
      [cbn [fst]; unfold int_add; rewrite wrap16_small by lia; lia|].
    destruct (Z.eqb_spec (LED.operator s) 0xB);
      [cbn [fst]; unfold int_sub; rewrite wrap16_small by lia; lia|].
    destruct (Z.eqb_spec (LED.operator s) 0xC).
    { cbn [fst]. unfold int_mul. rewrite Z.mul_0_r.
      change (wrap16 0) with 0. cbn. discriminate. }
    destruct (Z.eqb_spec (LED.operator s) 0xD); [tauto|].
    cbn [fst]. discriminate. }
  cbn [LED.displayResult_loop]. change (uchar 0xF) with 0xF. led_proj.
  change (0xF =? 0xFF) with false. change (0xF =? 0xF) with true. cbv iota.
  pose proof (led_doOperation_fst (LED.num1 s) (LED.num2 s) (LED.operator s)
                s (LED.set_keyVal 0xF s)) as Hf.
  pose proof (led_doOperation_snd (LED.num1 s) (LED.num2 s) (LED.operator s)
                (LED.set_keyVal 0xF s)) as Hs.
  rewrite <- Hr in Hf.
  destruct (LED.doOperation (LED.num1 s) (LED.num2 s) (LED.operator s)
              (LED.set_keyVal 0xF s)) as [r' s1].
  cbn [fst snd] in Hf, Hs. subst r'.
  apply led_registers_fields in Hs. led_proj_in Hs.
  destruct Hs as (R1 & R2 & R3 & _).
  led_proj. rewrite R2, Herr.
  destruct (Z.ltb_spec r 0) as [Hneg | Hpos].
  - unfold LED.displayBinaryWithBlink.
    destruct (Z.ltb_spec r 0) as [_ | ?]; [|lia].
    unfold int_neg. rewrite wrap16_small by lia.
    destruct (Z.gtb_spec (- r) 127) as [? | _]; [lia|].
    destruct (led_blink_loop_phase (- r) [] 0 false
                (LED.out [LATD 0] (LED.set_result r s1)))
      as (s' & E & R & T); [lia | constructor |].
    rewrite E. exists s'. split; [reflexivity|].
    split.
    + rewrite R. unfold LED.registers. led_proj. now rewrite R1, R2, R3.
    + rewrite T. cbn [xorb length Z.of_nat Z.add Z.div Z.odd].
      change (Z.odd (1 / 5)) with false. cbv iota.
      destruct (led_magnitude_bits (- r)) as [Hlo _]; [lia|].
      rewrite Hlo, Z.abs_neq by lia. reflexivity.
  - unfold LED.displayBinaryWithBlink.
    destruct (Z.ltb_spec r 0) as [? | _]; [lia|].
    destruct (Z.gtb_spec r 255) as [? | _]; [lia|].
    led_proj.
    destruct (Z.geb_spec r 0) as [_ | ?]; [|lia].
    cbn [LED.wait_reset]. eexists. split; [reflexivity|].
    split.
    + unfold LED.registers. led_proj. now rewrite R1, R2, R3.
    + led_proj. unfold LED.displayBinary.
      destruct (Z.gtb_spec r 255) as [? | _]; [lia|].
      destruct (Z.ltb_spec r 0) as [? | _]; [lia|].
      rewrite uchar_small, Z.abs_eq by lia. apply last_events_snoc.
Qed.

(** X6: while a negative result from -127 to -1 is shown and no Reset
    arrives, [displayBinaryWithBlink] keeps polling; after every scan PORTD
    holds the magnitude of the result in its low seven bits, and bit 7 is
    toggled on every fifth scan (the scans are 25 ms apart): it is off
    during the first four scans, on during the next five, and so on. *)
Theorem led_negative_result_blinks (r : Z) (s : LED.State) (ks : list Z) :
  -127 <= r < 0 -> no_reset ks ->
  exists s',
    LED.displayBinaryWithBlink r s ks = Wait WNegBlink s' /\
    LED.registers s' = LED.registers s /\
    last_events 1 (LED.trace s')
    = [LATD (if Z.odd ((Z.of_nat (length ks) + 1) / 5)
             then - r + 128 else - r)].
Proof.
  intros Hr Hks. unfold LED.displayBinaryWithBlink.
  destruct (Z.ltb_spec r 0) as [_ | ?]; [|lia].
  unfold int_neg. rewrite wrap16_small by lia.
  destruct (Z.gtb_spec (- r) 127) as [? | _]; [lia|].
  destruct (led_blink_loop_phase (- r) ks 0 false s) as (s' & E & R & T);
    [lia | assumption |].
  exists s'. split; [assumption|]. split; [assumption|].
  rewrite T. cbn [xorb Z.add].
  destruct (led_magnitude_bits (- r)) as [Hlo Hhi]; [lia|].
  rewrite Hlo, Hhi. reflexivity.
Qed.

Lemma led_negative_result_blinks_witness :
  exists s',
    LED.displayBinaryWithBlink (-5) LED.power_on [0xFF; 0xFF; 0xFF; 0xFF]
    = Wait WNegBlink s' /\
    LED.registers s' = LED.registers LED.power_on /\
    last_events 1 (LED.trace s') = [LATD 133].
Proof.
  apply (led_negative_result_blinks (-5) LED.power_on
           [0xFF; 0xFF; 0xFF; 0xFF]).
  - lia.
  - repeat constructor; discriminate.
Defined.

Lemma idle_no_confirm_or_reset (n : nat) : no_confirm_or_reset (idle n).
Proof.
  unfold no_confirm_or_reset, idle. apply Forall_forall. intros k Hk.
  apply repeat_spec in Hk. subst k. split; discriminate.
Qed.

Lemma led_getNum1_second_confirm (s : LED.State) (ks : list Z) :
  LED.getNum1_second s (0xF :: ks)
  = Ret (LED.num11 s) (LED.set_num1 (LED.num11 s) (LED.set_keyVal 0xF s)) ks.
Proof. reflexivity. Qed.

Lemma led_getNum2_second_confirm (s : LED.State) (ks : list Z) :
  LED.getNum2_second s (0xF :: ks)
  = Ret (LED.num21 s)
      (LED.set_waitingForHashKey true
         (LED.set_num2 (LED.num21 s) (LED.set_keyVal 0xF s))) ks.
Proof. reflexivity. Qed.

Ltac led_norm :=
  unfold LED.resetCalculator;
  repeat (progress (autorewrite with led_fields; led_proj)).

(** The first operand and the operator, entered in any of the three ways,
    bring a pass to the call of [getNum2] with both stored. *)
Lemma led_first_operand_entered (a op : Z) (k1 : list Z) :
  first_operand_keys a op k1 ->
  0 <= a <= 99 /\ is_operator op /\
  forall (s : LED.State) (rest : list Z),
    exists s1,
      LED.cycle s (k1 ++ rest) = LED.second_half s1 rest /\
      LED.num1 s1 = a /\ LED.operator s1 = op.
Proof.
  intros Hk. destruct Hk as [d1 d2 op n1 n2 n3 D1 D2 Hop
                            | d op n1 n2 D Hop
                            | d op n1 n2 n3 D Hop].
  - split; [unfold is_digit in *; lia|]. split; [assumption|].
    intros s rest. rewrite led_cycle_second_half.
    repeat rewrite <- app_assoc; cbn [app].
    repeat (rewrite <- app_assoc; cbn [app]).
    match goal with
    | |- context [LED.getNum1 ?st (idle n1 ++ d1 :: idle n2 ++ d2 :: ?r)] =>
        destruct (led_getNum1_two_digits st d1 d2 n1 n2 r D1 D2)
          as (s1 & E1 & _ & C1)
    end.
    rewrite E1. clear E1. cbv zeta. led_proj.
    unfold LED.core in C1. cbn in C1. injection C1 as _ _ _ _ O1 _ _ _ _.
    destruct (Z.eqb_spec (10 * d1 + d2) 255) as [? | _];
      [unfold is_digit in *; lia|].
    unfold LED.getOperator. led_proj. rewrite O1.
    change ((0 >=? 10) && (0 <=? 13)) with false. cbv iota.
    rewrite led_getOperator_loop_idle, led_getOperator_loop_operator
      by assumption.
    led_proj.
    destruct (Z.eqb_spec op 0) as [? | _]; [unfold is_operator in Hop; lia|].
    eexists. split; [reflexivity|]. led_proj.
    autorewrite with led_fields. led_proj. split; reflexivity.
  - split; [unfold is_digit in *; lia|]. split; [assumption|].
    intros s rest. rewrite led_cycle_second_half.
    repeat (rewrite <- app_assoc; cbn [app]).
    match goal with
    | |- context [LED.getNum1 ?st (idle n1 ++ d :: idle n2 ++ op :: ?r)] =>
        destruct (led_getNum1_digit_operator st d op n1 n2 r D Hop)
          as (s1 & E1 & C1)
    end.
    rewrite E1. clear E1. cbv zeta. led_proj.
    unfold LED.core in C1. cbn in C1. injection C1 as _ _ _ _ O1 _ _ _ _.
    destruct (Z.eqb_spec d 255) as [? | _]; [unfold is_digit in *; lia|].
    unfold LED.getOperator. led_proj. rewrite O1.
    unfold is_operator in Hop.
    destruct (Z.geb_spec op 10); [|lia]. destruct (Z.leb_spec op 13); [|lia].
    cbn [andb]. cbv iota. led_proj.
    destruct (Z.eqb_spec op 0) as [? | _]; [lia|].
    eexists. split; [reflexivity|]. led_proj. split; reflexivity.
  - split; [unfold is_digit in *; lia|]. split; [assumption|].
    intros s rest. rewrite led_cycle_second_half.
    repeat (rewrite <- app_assoc; cbn [app]).
    unfold LED.getNum1. cbv zeta.
    rewrite led_getNum1_first_idle, led_getNum1_first_digit by assumption.
    rewrite led_getNum1_second_idle, led_getNum1_second_confirm.
    led_proj. autorewrite with led_fields. led_proj.
    destruct (Z.eqb_spec d 255) as [? | _]; [unfold is_digit in *; lia|].
    unfold LED.getOperator. led_norm.
    change ((0 >=? 10) && (0 <=? 13)) with false. cbv iota.
    rewrite led_getOperator_loop_idle, led_getOperator_loop_operator
      by assumption.
    led_norm.
    destruct (Z.eqb_spec op 0) as [? | _]; [unfold is_operator in Hop; lia|].
    eexists. split; [reflexivity|]. led_norm. split; reflexivity.
Qed.

(** The second operand, entered in either way, is returned by [getNum2]
    with [waitingForHashKey] set. *)
Lemma led_second_operand_entered (b : Z) (k2 : list Z) :
  second_operand_keys b k2 ->
  0 <= b <= 99 /\
  forall (s : LED.State) (rest : list Z),
    exists s3,
      LED.getNum2 s (k2 ++ rest) = Ret b s3 rest /\
      LED.num1 s3 = LED.num1 s /\ LED.num2 s3 = b /\
      LED.operator s3 = LED.operator s /\
      LED.waitingForHashKey s3 = true.
Proof.
  intros Hk. destruct Hk as [e1 e2 n1 n2 D1 D2 | e n1 n2 D].
  - split; [unfold is_digit in *; lia|].
    intros s rest. repeat (rewrite <- app_assoc; cbn [app]).
    destruct (led_getNum2_two_digits s e1 e2 n1 n2 rest D1 D2)
      as (s3 & E3 & N3 & W3).
    pose proof (led_getNum2_first_keeps
                  (idle n1 ++ e1 :: idle n2 ++ e2 :: rest)
                  (LED.out [LATD 0x02]
                     (LED.set_validInput false
                        (LED.set_num22 0 (LED.set_num21 0 s))))) as K3.
    unfold LED.getNum2 in E3 |- *. cbv zeta in E3 |- *.
    rewrite E3 in K3 |- *.
    destruct K3 as [? | (K1 & K2 & _)]; [unfold is_digit in *; lia|].
    exists s3. auto.
  - split; [unfold is_digit in *; lia|].
    intros s rest. repeat (rewrite <- app_assoc; cbn [app]).
    unfold LED.getNum2. cbv zeta.
    rewrite led_getNum2_first_idle, led_getNum2_first_digit by assumption.
    rewrite led_getNum2_second_idle, led_getNum2_second_confirm.
    led_proj. autorewrite with led_fields. led_proj.
    eexists. split; [reflexivity|]. led_proj.
    autorewrite with led_fields. led_proj.
    autorewrite with led_fields. led_proj. auto.
Qed.

Lemma led_pass_shows (s : LED.State) (a op b : Z) (k1 k2 : list Z)
  (n : nat) :
  first_operand_keys a op k1 -> second_operand_keys b k2 ->
  ~ (op = 0xD /\ b = 0) ->
  exists s',
    LED.cycle s (k1 ++ k2 ++ idle n ++ [0xF])
    = Wait (if fst (LED.doOperation a b op s) <? 0
            then WNegBlink else WResult) s' /\
    LED.registers s' = (a, b, op, fst (LED.doOperation a b op s)) /\
    last_events 1 (LED.trace s')
    = [LATD (Z.abs (fst (LED.doOperation a b op s)))].
Proof.
  intros H1 H2 Hdiv.
  destruct (led_first_operand_entered a op k1 H1) as (Ha & Hop & F1).
  destruct (led_second_operand_entered b k2 H2) as (Hb & F2).
  destruct (F1 s (k2 ++ idle n ++ [0xF])) as (s1 & E1 & N1 & O1).
  rewrite E1. clear E1 F1. unfold LED.second_half.
  destruct (F2 s1 (idle n ++ [0xF])) as (s3 & E3 & K1 & K2 & K3 & W3).
  rewrite E3. clear E3 F2. cbv zeta. led_proj.
  destruct (Z.eqb_spec b 255) as [? | _]; [lia|].
  unfold LED.displayResult. led_proj. rewrite W3. cbn [negb].
  match goal with
  | |- context [LED.displayResult_loop ?st (idle n ++ [0xF])] =>
      destruct (led_displayResult_loop_blocks (idle n) st
                  (idle_no_confirm_or_reset n)) as (s5 & Hrun & R5)
  end.
  rewrite Hrun. clear Hrun.
  apply led_registers_fields in R5. led_proj_in R5.
  destruct R5 as (R1 & R2 & R3 & _).
  rewrite K1, N1 in R1. rewrite K3, O1 in R3.
  destruct (led_displayResult_loop_shows s5
              (fst (LED.doOperation a b op s))) as (s6 & E6 & R6 & T6).
  - rewrite R1. exact Ha.
  - rewrite R2. exact Hb.
  - rewrite R2, R3. exact Hdiv.
  - rewrite R1, R2, R3. apply led_doOperation_fst.
  - rewrite E6. exists s6. rewrite R6, R1, R2, R3. auto.
Qed.

(** After a Reset, [main] starts a pass on the keys that follow. *)
Lemma led_main_loop_after_reset (fuel : nat) :
  forall (s : LED.State) (ks rest : list Z),
    (length ks + length rest + 1 < fuel)%nat ->
    exists (s2 : LED.State) (fuel2 : nat),
      (length rest < fuel2)%nat /\
      LED.main_loop fuel s (ks ++ 0xE :: rest) = LED.main_loop fuel2 s2 rest.
Proof.
  induction fuel as [|fuel IH]; intros s ks rest Hlen; [lia|].
  cbn [LED.main_loop].
  pose proof (led_cycle_reset ks s) as Hr.
  pose proof (led_cycle_consumed s ks) as Hc.
  destruct (LED.cycle s ks) as [[] s1 ks1 | w1 s1].
  - rewrite Hr. cbn [consumed] in Hc. apply IH. lia.
  - destruct Hr as (s2 & Hr).
    pose proof (led_cycle_reset (ks ++ [0xE]) s) as Hr2.
    rewrite Hr in Hr2. specialize (Hr2 rest).
    rewrite <- app_assoc in Hr2. cbn [app] in Hr2. rewrite Hr2.
    exists s2, fuel. split; [lia | reflexivity].
Qed.

Lemma led_main_pass_start (before : list Z) :
  before = [] \/ (exists ks, before = ks ++ [0xE]) ->
  forall keys : list Z,
    exists (s0 : LED.State) (fuel : nat),
      (length keys < fuel)%nat /\
      LED.main (before ++ keys) = LED.main_loop fuel s0 keys.
Proof.
  intros [-> | (ks & ->)] keys.
  - exists (LED.initialize LED.power_on), (S (length keys)).
    split; [lia | reflexivity].
  - unfold LED.main. rewrite <- app_assoc. cbn [app].
    apply led_main_loop_after_reset.
    rewrite length_app. cbn [length]. lia.
Qed.

(** X7: the LED calculator computes.  At power-on or after a Reset pressed
    at any time, a first operand and an operator entered in any of the
    three accepted ways, a second operand entered in either of the two
    accepted ways, and Confirm, with any number of idle scans between the
    keys, leave [main] showing the result of [doOperation] on the two
    numbers entered: the registers hold the operands, the operator and the
    result, and the last value written to PORTD is the magnitude of the
    result; [main] then polls at the blink of a negative result or at the
    wait for Reset.  Division by zero is excepted. *)
Theorem led_calculates (before : list Z) (a op b : Z) (k1 k2 : list Z)
  (n : nat) :
  before = [] \/ (exists ks, before = ks ++ [0xE]) ->
  first_operand_keys a op k1 -> second_operand_keys b k2 ->
  ~ (op = 0xD /\ b = 0) ->
  exists s',
    LED.main (before ++ k1 ++ k2 ++ idle n ++ [0xF])
    = Some
        (if fst (LED.doOperation a b op LED.power_on) <? 0
         then WNegBlink else WResult, s') /\
    LED.registers s'
    = (a, b, op, fst (LED.doOperation a b op LED.power_on)) /\
    last_events 1 (LED.trace s')
    = [LATD (Z.abs (fst (LED.doOperation a b op LED.power_on)))].
Proof.
  intros Hbefore H1 H2 Hdiv.
  destruct (led_main_pass_start before Hbefore
              (k1 ++ k2 ++ idle n ++ [0xF]))
    as (s0 & fuel & Hfuel & Hmain).
  rewrite Hmain. clear Hmain.
  destruct fuel as [|fuel]; [lia|]. cbn [LED.main_loop].
  destruct (led_pass_shows s0 a op b k1 k2 n H1 H2 Hdiv)
    as (s' & E & R & T).
  rewrite E. exists s'.
  rewrite (led_doOperation_fst _ _ _ LED.power_on s0). auto.
Qed.

Lemma led_calculates_witness :
  exists s',
    LED.main [7; 0xB; 9; 0xF; 0xF] = Some (WNegBlink, s') /\
    LED.registers s' = (7, 9, 0xB, -2) /\
    last_events 1 (LED.trace s') = [LATD 2].
Proof.
  apply (led_calculates [] 7 0xB 9 [7; 0xB] [9; 0xF] 0).
  - now left.
  - apply (first_one_digit 7 0xB 0 0); unfold is_digit, is_operator; lia.
  - apply (second_digit_confirm 9 0 0); unfold is_digit; lia.
  - lia.
Defined.
(** * The 7-segment program: what a pass shows *)

(** [getNum2] leaves the operator and the result alone unless it is left by
    Reset, which clears [waitingForHashKey]. *)
Lemma seg_getNum2_second_keeps (ks : list Z) (o r : Z) :
  forall s : SevenSeg.State,
    SevenSeg.operator s = o -> SevenSeg.result s = r ->
    match SevenSeg.getNum2_second s ks with
    | Ret v s' _ =>
        SevenSeg.waitingForHashKey s' = true ->
        SevenSeg.operator s' = o /\ SevenSeg.result s' = r
    | Wait _ s' => SevenSeg.operator s' = o /\ SevenSeg.result s' = r
    end.
Proof.
  induction ks as [|k ks IH]; intros s Ho Hr; [cbn; auto|].
  cbn [SevenSeg.getNum2_second].
  pose proof (seg_scanKeypad_operator s k) as Fo.
  pose proof (seg_scanKeypad_result s k) as Fr.
  rewrite Ho in Fo. rewrite Hr in Fr. revert Fo Fr.
  generalize (SevenSeg.scanKeypad s k). clear s Ho Hr. intros s Ho Hr.
  repeat match goal with
         | |- context [if ?b then _ else _] => destruct b
         end;
    first [ apply IH; assumption
          | unfold SevenSeg.resetCalculator; autorewrite with seg_display;
            seg_proj; first [ discriminate | auto ] ].
Qed.

Lemma seg_getNum2_first_keeps (ks : list Z) (o r : Z) :
  forall s : SevenSeg.State,
    SevenSeg.operator s = o -> SevenSeg.result s = r ->
    match SevenSeg.getNum2_first s ks with
    | Ret v s' _ =>
        SevenSeg.waitingForHashKey s' = true ->
        SevenSeg.operator s' = o /\ SevenSeg.result s' = r
    | Wait _ s' => SevenSeg.operator s' = o /\ SevenSeg.result s' = r
    end.
Proof.
  induction ks as [|k ks IH]; intros s Ho Hr; [cbn; auto|].
  cbn [SevenSeg.getNum2_first].
  pose proof (seg_scanKeypad_operator s k) as Fo.
  pose proof (seg_scanKeypad_result s k) as Fr.
  rewrite Ho in Fo. rewrite Hr in Fr. revert Fo Fr.
  generalize (SevenSeg.scanKeypad s k). clear s Ho Hr. intros s Ho Hr.
  repeat match goal with
         | |- context [if ?b then _ else _] => destruct b
         end;
    first [ apply IH; assumption
          | apply seg_getNum2_second_keeps;
            autorewrite with seg_display; seg_proj; assumption
          | unfold SevenSeg.resetCalculator; autorewrite with seg_display;
            seg_proj; first [ discriminate | auto ] ].
Qed.

Lemma seg_getNum2_keeps (s : SevenSeg.State) (ks : list Z) :
  match SevenSeg.getNum2 s ks with
  | Ret v s' _ =>
      SevenSeg.waitingForHashKey s' = true ->
      SevenSeg.operator s' = SevenSeg.operator s /\
      SevenSeg.result s' = SevenSeg.result s
  | Wait _ s' =>
      SevenSeg.operator s' = SevenSeg.operator s /\
      SevenSeg.result s' = SevenSeg.result s
  end.
Proof.
  unfold SevenSeg.getNum2.
  apply seg_getNum2_first_keeps; autorewrite with seg_display; seg_proj;
    reflexivity.
Qed.

(** Confirm in the waiting loop of [displayResult]: the result is computed,
    stored and drawn in result mode. *)
Lemma seg_displayResult_loop_shows (s : SevenSeg.State) :
  exists s' t0,
    SevenSeg.displayResult_loop s [0xF] = Wait WResult s' /\
    SevenSeg.registers s'
    = (SevenSeg.num1 s, SevenSeg.num2 s, SevenSeg.operator s,
       fst (SevenSeg.doOperation (SevenSeg.num1 s) (SevenSeg.num2 s)
              (SevenSeg.operator s) s)) /\
    SevenSeg.displayMode s' = SevenSeg.DISPLAY_RESULT /\
    SevenSeg.currentDisplayValue s' = SevenSeg.result s' /\
    SevenSeg.trace s' = SevenSeg.displayNumber (SevenSeg.result s') t0.
Proof.
  cbn [SevenSeg.displayResult_loop].
  rewrite seg_scanKeypad_keyVal. change (uchar 0xF) with 0xF.
  change (0xF =? 0xFF) with false. change (0xF =? 0xF) with true. cbv iota.
  autorewrite with seg_fields.
  rewrite (seg_doOperation_fst _ _ _ s (SevenSeg.scanKeypad s 0xF)).
  pose proof (seg_scanKeypad_registers s 0xF) as Hreg.
  apply seg_registers_fields in Hreg. destruct Hreg as (R1 & R2 & R3 & _).
  rewrite <- R1, <- R2, <- R3. clear R1 R2 R3.
  generalize (SevenSeg.scanKeypad s 0xF). clear s. intros s.
  assert (Hsnd : SevenSeg.registers
                   (snd (SevenSeg.doOperation (SevenSeg.num1 s)
                           (SevenSeg.num2 s) (SevenSeg.operator s) s))
                 = SevenSeg.registers s).
  { unfold SevenSeg.doOperation.
    repeat match goal with
           | |- context [if ?b then _ else _] => destruct b
           end; reflexivity. }
  destruct (SevenSeg.doOperation (SevenSeg.num1 s) (SevenSeg.num2 s)
              (SevenSeg.operator s) s) as [r s1].
  cbn [fst snd] in *.
  apply seg_registers_fields in Hsnd. destruct Hsnd as (R1 & R2 & R3 & _).
  autorewrite with seg_display. cbn [SevenSeg.wait_reset].
  eexists. eexists. split; [reflexivity|].
  unfold SevenSeg.registers. seg_proj. rewrite R1, R2, R3.
  split; [reflexivity|]. split; [reflexivity|]. split; [reflexivity|].
  change 30%nat with (S 29). rewrite Nat.iter_succ. reflexivity.
Qed.

Lemma seg_getNum1_second_confirm (s : SevenSeg.State) (ks : list Z) :
  SevenSeg.getNum1_second s (0xF :: ks)
  = Ret (SevenSeg.num1_tens s)
      (SevenSeg.set_num1 (SevenSeg.num1_tens s) (SevenSeg.scanKeypad s 0xF))
      ks.
Proof.
  cbn [SevenSeg.getNum1_second].
  rewrite seg_scanKeypad_keyVal. change (uchar 0xF) with 0xF.
  cbn [Z.eqb Pos.eqb Z.leb Z.geb Z.compare Pos.compare Pos.compare_cont andb].
  seg_norm. reflexivity.
Qed.

Lemma seg_getNum2_second_confirm (s : SevenSeg.State) (ks : list Z) :
  SevenSeg.getNum2_second s (0xF :: ks)
  = Ret (SevenSeg.num2_tens s)
      (SevenSeg.set_waitingForHashKey true
         (SevenSeg.set_num2 (SevenSeg.num2_tens s)
            (SevenSeg.scanKeypad s 0xF))) ks.
Proof.
  cbn [SevenSeg.getNum2_second].
  rewrite seg_scanKeypad_keyVal. change (uchar 0xF) with 0xF.
  cbn [Z.eqb Pos.eqb Z.leb Z.geb Z.compare Pos.compare Pos.compare_cont andb].
  seg_norm. reflexivity.
Qed.

Ltac seg_norm_reset :=
  unfold SevenSeg.resetCalculator; seg_norm.

(** The first operand and the operator, entered in any of the three ways,
    bring a pass to the declaration of [savedNum1] with the operand on the
    display and the operator stored. *)
Lemma seg_first_operand_entered (a op : Z) (k1 : list Z) :
  first_operand_keys a op k1 ->
  0 <= a <= 99 /\ is_operator op /\
  forall (s : SevenSeg.State) (rest : list Z),
    exists s1,
      SevenSeg.cycle s (k1 ++ rest) = SevenSeg.second_half s1 rest /\
      SevenSeg.currentDisplayValue s1 = a /\ SevenSeg.operator s1 = op.
Proof.
  intros Hk. destruct Hk as [d1 d2 op n1 n2 n3 D1 D2 Hop
                            | d op n1 n2 D Hop
                            | d op n1 n2 n3 D Hop].
  - split; [unfold is_digit in *; lia|]. split; [assumption|].
    intros s rest. rewrite seg_cycle_second_half.
    repeat (rewrite <- app_assoc; cbn [app]).
    match goal with
    | |- context [SevenSeg.getNum1 ?st
                    (idle n1 ++ d1 :: idle n2 ++ d2 :: ?r)] =>
        destruct (seg_getNum1_two_digits st d1 d2 n1 n2 r D1 D2)
          as (s1 & E1 & _ & C1)
    end.
    rewrite E1. clear E1. cbv zeta. seg_proj.
    apply seg_core_fields in C1.
    destruct C1 as (_ & _ & _ & _ & O1 & _).
    unfold SevenSeg.resetCalculator in O1.
    autorewrite with seg_display in O1. seg_proj_in O1.
    destruct (Z.eqb_spec (10 * d1 + d2) 255) as [? | _];
      [unfold is_digit in *; lia|].
    unfold SevenSeg.getOperator. seg_proj. rewrite O1.
    change ((0 >=? 10) && (0 <=? 13)) with false. cbv iota.
    rewrite seg_getOperator_loop_idle.
    match goal with
    | |- context [SevenSeg.getOperator_loop ?a0 ?st (op :: ?r)] =>
        destruct (seg_getOperator_loop_operator a0 st op r Hop)
          as (s2 & E2 & C2)
    end.
    rewrite E2. clear E2. apply seg_core_fields in C2.
    destruct C2 as (_ & _ & _ & _ & _ & _ & _ & _ & _ & _ & V2 & _).
    seg_proj.
    destruct (Z.eqb_spec op 0) as [? | _]; [unfold is_operator in Hop; lia|].
    eexists. split; [reflexivity|]. seg_proj. split; [exact V2|reflexivity].
  - split; [unfold is_digit in *; lia|]. split; [assumption|].
    intros s rest. rewrite seg_cycle_second_half.
    repeat (rewrite <- app_assoc; cbn [app]).
    match goal with
    | |- context [SevenSeg.getNum1 ?st (idle n1 ++ d :: idle n2 ++ op :: ?r)] =>
        destruct (seg_getNum1_digit_operator st d op n1 n2 r D Hop)
          as (s1 & E1 & C1)
    end.
    rewrite E1. clear E1. cbv zeta. seg_proj.
    apply seg_core_fields in C1.
    destruct C1 as (_ & _ & _ & _ & O1 & _).
    destruct (Z.eqb_spec d 255) as [? | _]; [unfold is_digit in *; lia|].
    unfold SevenSeg.getOperator. seg_proj. rewrite O1.
    unfold is_operator in Hop.
    destruct (Z.geb_spec op 10); [|lia]. destruct (Z.leb_spec op 13); [|lia].
    cbn [andb]. cbv iota. seg_proj.
    destruct (Z.eqb_spec op 0) as [? | _]; [lia|].
    eexists. split; [reflexivity|]. seg_proj. split; reflexivity.
  - split; [unfold is_digit in *; lia|]. split; [assumption|].
    intros s rest. rewrite seg_cycle_second_half.
    repeat (rewrite <- app_assoc; cbn [app]).
    unfold SevenSeg.getNum1. cbv zeta.
    rewrite seg_getNum1_first_idle, seg_getNum1_first_digit by assumption.
    rewrite seg_getNum1_second_idle, seg_getNum1_second_confirm.
    seg_norm_reset.
    destruct (Z.eqb_spec d 255) as [? | _]; [unfold is_digit in *; lia|].
    unfold SevenSeg.getOperator. seg_norm_reset.
    change ((0 >=? 10) && (0 <=? 13)) with false. cbv iota.
    rewrite seg_getOperator_loop_idle.
    match goal with
    | |- context [SevenSeg.getOperator_loop ?a0 ?st (op :: ?r)] =>
        destruct (seg_getOperator_loop_operator a0 st op r Hop)
          as (s2 & E2 & C2)
    end.
    rewrite E2. clear E2. apply seg_core_fields in C2.
    destruct C2 as (_ & _ & _ & _ & _ & _ & _ & _ & _ & _ & V2 & _).
    seg_proj.
    destruct (Z.eqb_spec op 0) as [? | _]; [unfold is_operator in Hop; lia|].
    eexists. split; [reflexivity|]. seg_proj. split; [exact V2|reflexivity].
Qed.

(** The second operand, entered in either way, is returned by [getNum2]
    with [waitingForHashKey] set. *)
Lemma seg_second_operand_entered (b : Z) (k2 : list Z) :
  second_operand_keys b k2 ->
  0 <= b <= 99 /\
  forall (s : SevenSeg.State) (rest : list Z),
    exists s3,
      SevenSeg.getNum2 s (k2 ++ rest) = Ret b s3 rest /\
      SevenSeg.operator s3 = SevenSeg.operator s /\
      SevenSeg.waitingForHashKey s3 = true.
Proof.
  intros Hk. destruct Hk as [e1 e2 n1 n2 D1 D2 | e n1 n2 D].
  - split; [unfold is_digit in *; lia|].
    intros s rest. repeat (rewrite <- app_assoc; cbn [app]).
    destruct (seg_getNum2_two_digits s e1 e2 n1 n2 rest D1 D2)
      as (s3 & E3 & _ & W3).
    pose proof (seg_getNum2_keeps s
                  (idle n1 ++ e1 :: idle n2 ++ e2 :: rest)) as K3.
    rewrite E3 in K3 |- *. destruct (K3 W3) as [K1 _].
    exists s3. auto.
  - split; [unfold is_digit in *; lia|].
    intros s rest. repeat (rewrite <- app_assoc; cbn [app]).
    pose proof (seg_getNum2_keeps s (idle n1 ++ e :: idle n2 ++ 0xF :: rest))
      as K3.
    revert K3. unfold SevenSeg.getNum2. cbv zeta.
    rewrite seg_getNum2_first_idle, seg_getNum2_first_digit by assumption.
    rewrite seg_getNum2_second_idle, seg_getNum2_second_confirm.
    seg_norm. intros K3. destruct (K3 eq_refl) as [K1 _].
    eexists. split; [reflexivity|]. seg_norm. split; [exact K1|reflexivity].
Qed.

Lemma seg_pass_shows (s : SevenSeg.State) (a op b : Z) (k1 k2 : list Z)
  (n : nat) :
  first_operand_keys a op k1 -> second_operand_keys b k2 ->
  exists s' t0,
    SevenSeg.cycle s (k1 ++ k2 ++ idle n ++ [0xF]) = Wait WResult s' /\
    SevenSeg.registers s'
    = (a, b, op, fst (SevenSeg.doOperation a b op s)) /\
    SevenSeg.displayMode s' = SevenSeg.DISPLAY_RESULT /\
    SevenSeg.currentDisplayValue s' = SevenSeg.result s' /\
    SevenSeg.trace s' = SevenSeg.displayNumber (SevenSeg.result s') t0.
Proof.
  intros H1 H2.
  destruct (seg_first_operand_entered a op k1 H1) as (Ha & Hop & F1).
  destruct (seg_second_operand_entered b k2 H2) as (Hb & F2).
  destruct (F1 s (k2 ++ idle n ++ [0xF])) as (s1 & E1 & V1 & O1).
  rewrite E1. clear E1 F1. unfold SevenSeg.second_half.
  destruct (F2 s1 (idle n ++ [0xF])) as (s3 & E3 & K1 & W3).
  rewrite E3. clear E3 F2. cbv zeta. seg_proj. rewrite V1.
  destruct (Z.eqb_spec b 255) as [? | _]; [lia|].
  unfold SevenSeg.displayResult. seg_proj. rewrite W3. cbn [negb].
  match goal with
  | |- context [SevenSeg.displayResult_loop ?st (idle n ++ [0xF])] =>
      destruct (seg_displayResult_loop_blocks (idle n) st
                  (idle_no_confirm_or_reset n)) as (s5 & Hrun & R5 & _)
  end.
  rewrite Hrun. clear Hrun.
  apply seg_registers_fields in R5. seg_proj_in R5.
  destruct R5 as (R1 & R2 & R3 & _). rewrite K1, O1 in R3.
  destruct (seg_displayResult_loop_shows s5) as (s6 & t0 & E6 & R6 & M6 & T6).
  rewrite E6. exists s6, t0. rewrite R6, R1, R2, R3.
  rewrite (seg_doOperation_fst _ _ _ s5 s). auto.
Qed.
(** * The 7-segment program: Reset at a polling place *)

Ltac seg_reset_base :=
  rewrite seg_scanKeypad_keyVal; change (uchar 0xE) with 0xE;
  cbn [Z.eqb Pos.eqb Z.leb Z.compare Pos.compare Pos.compare_cont Z.geb andb];
  split; [auto | eauto].

Ltac seg_reset_step IH :=
  repeat match goal with
         | |- context [if ?b then _ else _] => destruct b
         end;
  first [ apply IH
        | intros ?; reflexivity ].

Lemma seg_getNum1_second_reset :
  reset_aware_at (fun w => second_operand_poll w = false) (fun v => v = 0xFF)
    SevenSeg.getNum1_second.
Proof.
  intros ks. induction ks as [|k ks IH]; intros s.
  - cbn [SevenSeg.getNum1_second app]. seg_reset_base.
  - cbn [SevenSeg.getNum1_second app]. seg_reset_step IH.
Qed.

Lemma seg_getNum1_first_reset :
  reset_aware_at (fun w => second_operand_poll w = false) (fun v => v = 0xFF)
    SevenSeg.getNum1_first.
Proof.
  intros ks. induction ks as [|k ks IH]; intros s.
  - cbn [SevenSeg.getNum1_first app]. seg_reset_base.
  - cbn [SevenSeg.getNum1_first app].
    repeat match goal with
           | |- context [if ?b then _ else _] => destruct b
           end;
      first [ apply IH | apply seg_getNum1_second_reset
            | intros ?; reflexivity ].
Qed.

Lemma seg_getNum1_reset :
  reset_aware_at (fun w => second_operand_poll w = false) (fun v => v = 0xFF)
    SevenSeg.getNum1.
Proof.
  intros ks s. unfold SevenSeg.getNum1. apply seg_getNum1_first_reset.
Qed.

Lemma seg_getOperator_loop_reset (storedNum1 : Z) :
  reset_aware_at (fun w => second_operand_poll w = false) (fun v => v = 0)
    (SevenSeg.getOperator_loop storedNum1).
Proof.
  intros ks. induction ks as [|k ks IH]; intros s.
  - cbn [SevenSeg.getOperator_loop app]. seg_reset_base.
  - cbn [SevenSeg.getOperator_loop app]. seg_reset_step IH.
Qed.

Lemma seg_getOperator_reset :
  reset_aware_at (fun w => second_operand_poll w = false) (fun v => v = 0)
    SevenSeg.getOperator.
Proof.
  intros ks s. unfold SevenSeg.getOperator.
  destruct ((SevenSeg.operator s >=? 10) && (SevenSeg.operator s <=? 13)).
  - intros ?; reflexivity.
  - apply seg_getOperator_loop_reset.
Qed.

Lemma seg_wait_reset_reset :
  reset_aware_at (fun w => second_operand_poll w = false)
    (fun _ : unit => True) (SevenSeg.wait_reset WResult).
Proof.
  intros ks. induction ks as [|k ks IH]; intros s.
  - cbn [SevenSeg.wait_reset app]. seg_reset_base.
  - cbn [SevenSeg.wait_reset app]. seg_reset_step IH.
Qed.

Lemma seg_displayResult_loop_reset :
  reset_aware_at (fun w => second_operand_poll w = false)
    (fun _ : unit => True) SevenSeg.displayResult_loop.
Proof.
  intros ks. induction ks as [|k ks IH]; intros s.
  - cbn [SevenSeg.displayResult_loop app]. seg_reset_base.
  - cbn [SevenSeg.displayResult_loop app].
    destruct (SevenSeg.keyVal (SevenSeg.scanKeypad s k) =? 255);
      [apply IH|].
    destruct (SevenSeg.keyVal (SevenSeg.scanKeypad s k) =? 15).
    + destruct (SevenSeg.doOperation _ _ _ _) as [r s1].
      apply seg_wait_reset_reset.
    + destruct (SevenSeg.keyVal (SevenSeg.scanKeypad s k) =? 14).
      * intros ?. reflexivity.
      * apply IH.
Qed.

Lemma seg_displayResult_reset :
  reset_aware_at (fun w => second_operand_poll w = false)
    (fun _ : unit => True) SevenSeg.displayResult.
Proof.
  intros ks s. unfold SevenSeg.displayResult.
  apply seg_displayResult_loop_reset.
Qed.

(** [getNum2] returns 0 on Reset, and keeps the first operand while it
    polls. *)
Lemma seg_getNum2_second_reset (ks : list Z) (n : Z) :
  forall s : SevenSeg.State,
    SevenSeg.num1 s = n ->
    match SevenSeg.getNum2_second s ks with
    | Ret a s1 ks1 =>
        forall ks', SevenSeg.getNum2_second s (ks ++ ks') = Ret a s1 (ks1 ++ ks')
    | Wait w s1 =>
        second_operand_poll w = true /\ SevenSeg.num1 s1 = n /\
        exists s2,
          SevenSeg.getNum2_second s (ks ++ [0xE]) = Ret 0 s2 [] /\
          SevenSeg.operator s2 = 0
    end.
Proof.
  induction ks as [|k ks IH]; intros s Hn.
  - cbn [SevenSeg.getNum2_second app].
    rewrite seg_scanKeypad_keyVal. change (uchar 0xE) with 0xE.
    cbn [Z.eqb Pos.eqb Z.leb Z.compare Pos.compare Pos.compare_cont].
    split; [reflexivity|]. split; [assumption|].
    eexists. split; [reflexivity|].
    unfold SevenSeg.resetCalculator. autorewrite with seg_display.
    reflexivity.
  - cbn [SevenSeg.getNum2_second app].
    repeat match goal with
           | |- context [if ?b then _ else _] => destruct b
           end;
      first [ apply IH; rewrite seg_scanKeypad_num1; assumption
            | intros ?; reflexivity ].
Qed.

Lemma seg_getNum2_first_reset (ks : list Z) (n : Z) :
  forall s : SevenSeg.State,
    SevenSeg.num1 s = n ->
    match SevenSeg.getNum2_first s ks with
    | Ret a s1 ks1 =>
        forall ks', SevenSeg.getNum2_first s (ks ++ ks') = Ret a s1 (ks1 ++ ks')
    | Wait w s1 =>
        second_operand_poll w = true /\ SevenSeg.num1 s1 = n /\
        exists s2,
          SevenSeg.getNum2_first s (ks ++ [0xE]) = Ret 0 s2 [] /\
          SevenSeg.operator s2 = 0
    end.
Proof.
  induction ks as [|k ks IH]; intros s Hn.
  - cbn [SevenSeg.getNum2_first app].
    rewrite seg_scanKeypad_keyVal. change (uchar 0xE) with 0xE.
    cbn [Z.eqb Pos.eqb Z.leb Z.compare Pos.compare Pos.compare_cont].
    split; [reflexivity|]. split; [assumption|].
    eexists. split; [reflexivity|].
    unfold SevenSeg.resetCalculator. autorewrite with seg_display.
    reflexivity.
  - cbn [SevenSeg.getNum2_first app].
    repeat match goal with
           | |- context [if ?b then _ else _] => destruct b
           end;
      first [ apply IH; rewrite seg_scanKeypad_num1; assumption
            | apply seg_getNum2_second_reset;
              autorewrite with seg_display; seg_proj;
              rewrite seg_scanKeypad_num1; assumption
            | intros ?; reflexivity ].
Qed.

Lemma seg_getNum2_reset (s : SevenSeg.State) (ks : list Z) :
  match SevenSeg.getNum2 s ks with
  | Ret a s1 ks1 =>
      forall ks', SevenSeg.getNum2 s (ks ++ ks') = Ret a s1 (ks1 ++ ks')
  | Wait w s1 =>
      second_operand_poll w = true /\ SevenSeg.num1 s1 = SevenSeg.num1 s /\
      exists s2,
        SevenSeg.getNum2 s (ks ++ [0xE]) = Ret 0 s2 [] /\
        SevenSeg.operator s2 = 0
  end.
Proof.
  unfold SevenSeg.getNum2. apply seg_getNum2_first_reset.
  autorewrite with seg_display. reflexivity.
Qed.

(** [getOperator] returns an operator with the first operand on the
    display and in [num1]. *)
Lemma seg_getOperator_loop_keeps (storedNum1 : Z) (ks : list Z) (n : Z) :
  forall s : SevenSeg.State,
    SevenSeg.num1 s = n ->
    match SevenSeg.getOperator_loop storedNum1 s ks with
    | Ret v s' _ =>
        v <> 0 ->
        SevenSeg.currentDisplayValue s' = storedNum1 /\ SevenSeg.num1 s' = n
    | Wait _ _ => True
    end.
Proof.
  induction ks as [|k ks IH]; intros s Hn; [exact I|].
  cbn [SevenSeg.getOperator_loop].
  repeat match goal with
         | |- context [if ?b then _ else _] => destruct b
         end;
    first [ apply IH; seg_proj; rewrite seg_scanKeypad_num1; seg_proj;
            assumption
          | intros Hv; seg_proj; rewrite seg_scanKeypad_num1; seg_proj;
            split; [reflexivity | assumption]
          | intros Hv; contradiction Hv; reflexivity ].
Qed.

Lemma seg_getOperator_keeps (s : SevenSeg.State) (ks : list Z) :
  match SevenSeg.getOperator s ks with
  | Ret v s' _ =>
      v <> 0 ->
      SevenSeg.currentDisplayValue s' = SevenSeg.num1 s /\
      SevenSeg.num1 s' = SevenSeg.num1 s
  | Wait _ _ => True
  end.
Proof.
  unfold SevenSeg.getOperator.
  destruct ((SevenSeg.operator s >=? 10) && (SevenSeg.operator s <=? 13)).
  - intros _. split; reflexivity.
  - now apply seg_getOperator_loop_keeps.
Qed.
Ltac seg_next H := rewrite H; cbv beta iota zeta; seg_proj.

(** A pass of [main] and one more key.  A pass that has ended is not
    affected; a pass polling for the second operand is brought by Reset to
    the poll for Confirm, with the first operand restored from the display;
    a pass polling anywhere else is ended by Reset. *)
Lemma seg_cycle_reset (ks : list Z) (s : SevenSeg.State) :
  match SevenSeg.cycle s ks with
  | Ret a s1 ks1 =>
      forall ks', SevenSeg.cycle s (ks ++ ks') = Ret a s1 (ks1 ++ ks')
  | Wait w s1 =>
      if second_operand_poll w then
        exists s2,
          SevenSeg.cycle s (ks ++ [0xE]) = Wait WConfirm s2 /\
          SevenSeg.num1 s2 = SevenSeg.num1 s1 /\
          SevenSeg.num2 s2 = 0 /\ SevenSeg.operator s2 = 0
      else exists s2, SevenSeg.cycle s (ks ++ [0xE]) = Ret tt s2 []
  end.
Proof.
  unfold SevenSeg.cycle.
  pose proof (seg_getNum1_reset ks (SevenSeg.resetCalculator s)) as H1.
  destruct (SevenSeg.getNum1 (SevenSeg.resetCalculator s) ks)
    as [v1 s1 ks1 | w1 s1].
  2: { destruct H1 as (P1 & a & s2 & H1 & ->). rewrite P1.
       seg_next H1. eexists. reflexivity. }
  seg_proj. destruct (v1 =? 255) eqn:E1.
  { intros ks'. seg_next H1. rewrite E1. reflexivity. }
  pose proof (seg_getOperator_reset ks1
                (SevenSeg.set_currentDisplayValue v1
                   (SevenSeg.set_num1 v1 s1))) as H2.
  pose proof (seg_getOperator_keeps
                (SevenSeg.set_currentDisplayValue v1
                   (SevenSeg.set_num1 v1 s1)) ks1) as K2.
  destruct (SevenSeg.getOperator
              (SevenSeg.set_currentDisplayValue v1 (SevenSeg.set_num1 v1 s1))
              ks1) as [v2 s2 ks2 | w2 s2].
  2: { destruct H2 as (P2 & a & s3 & H2 & ->). rewrite P2.
       rewrite H1. cbv beta iota zeta. seg_proj. rewrite E1.
       cbn [app]. seg_next H2. eexists. reflexivity. }
  seg_proj. destruct (Z.eqb_spec v2 0) as [E2 | E2].
  { intros ks'. seg_next H1. rewrite E1. seg_next H2.
    destruct (Z.eqb_spec v2 0); [reflexivity | contradiction]. }
  destruct (K2 E2) as [K2d K2n]. seg_proj_in K2d. seg_proj_in K2n. clear K2.
  pose proof (seg_getNum2_reset (SevenSeg.set_operator v2 s2) ks2) as H3.
  destruct (SevenSeg.getNum2 (SevenSeg.set_operator v2 s2) ks2)
    as [v3 s3 ks3 | w3 s3].
  2: { destruct H3 as (P3 & N3 & s4 & H3 & O4). rewrite P3.
       seg_proj_in N3.
       rewrite H1. cbv beta iota zeta. seg_proj. rewrite E1.
       cbn [app]. seg_next H2.
       destruct (Z.eqb_spec v2 0); [contradiction|].
       cbn [app]. seg_next H3. change (0 =? 255) with false. cbv iota.
       unfold SevenSeg.displayResult. cbn [SevenSeg.displayResult_loop].
       eexists. split; [reflexivity|].
       match goal with
       | |- context [if ?b then SevenSeg.flashNum2 ?x else ?x] =>
           pose proof (seg_displayResult_entry x) as Hreg
       end.
       apply seg_registers_fields in Hreg. seg_proj_in Hreg.
       destruct Hreg as (R1 & R2 & R3 & _).
       seg_proj_in R1. seg_proj_in R2. seg_proj_in R3. seg_proj.
       rewrite R1, R2, R3, K2d, N3, K2n. auto. }
  seg_proj. destruct (v3 =? 255) eqn:E3.
  { intros ks'. seg_next H1. rewrite E1. seg_next H2.
    destruct (Z.eqb_spec v2 0); [contradiction|].
    seg_next H3. rewrite E3. reflexivity. }
  match goal with
  | |- context [SevenSeg.displayResult ?st ks3] =>
      pose proof (seg_displayResult_reset ks3 st) as H4;
      destruct (SevenSeg.displayResult st ks3) as [[] s4 ks4 | w4 s4]
  end.
  - intros ks'. seg_next H1. rewrite E1. seg_next H2.
    destruct (Z.eqb_spec v2 0); [contradiction|].
    seg_next H3. rewrite E3. rewrite H4. reflexivity.
  - destruct H4 as (P4 & [] & s5 & H4 & _). rewrite P4.
    rewrite H1. cbv beta iota zeta. seg_proj. rewrite E1.
    cbn [app]. seg_next H2.
    destruct (Z.eqb_spec v2 0); [contradiction|].
    cbn [app]. seg_next H3. rewrite E3. cbn [app]. rewrite H4.
    eexists. reflexivity.
Qed.
(** More fuel than keys is as good as any. *)
Lemma seg_main_loop_fuel (fuel : nat) :
  forall (fuel' : nat) (s : SevenSeg.State) (ks : list Z),
    (length ks < fuel)%nat -> (length ks < fuel')%nat ->
    SevenSeg.main_loop fuel s ks = SevenSeg.main_loop fuel' s ks.
Proof.
  induction fuel as [|fuel IH]; intros fuel' s ks H1 H2; [lia|].
  destruct fuel' as [|fuel']; [lia|].
  cbn [SevenSeg.main_loop].
  pose proof (seg_cycle_consumed s ks) as Hc.
  destruct (SevenSeg.cycle s ks) as [[] s1 ks1 | w1 s1]; [|reflexivity].
  cbn [consumed] in Hc. apply IH; lia.
Qed.

Lemma seg_main_loop_reset (fuel : nat) :
  forall (s : SevenSeg.State) (ks : list Z),
    (length ks + 1 < fuel)%nat ->
    match SevenSeg.main_loop fuel s ks with
    | Some (w, s1) =>
        if second_operand_poll w then
          exists s2,
            SevenSeg.main_loop fuel s (ks ++ [0xE]) = Some (WConfirm, s2) /\
            SevenSeg.num1 s2 = SevenSeg.num1 s1 /\
            SevenSeg.num2 s2 = 0 /\ SevenSeg.operator s2 = 0
        else
          exists s2,
            SevenSeg.main_loop fuel s (ks ++ [0xE]) = Some (WNum1First, s2) /\
            SevenSeg.num1 s2 = 0 /\ SevenSeg.num2 s2 = 0 /\
            SevenSeg.operator s2 = 0
    | None => False
    end.
Proof.
  induction fuel as [|fuel IH]; intros s ks Hlen; [lia|].
  pose proof (seg_cycle_reset ks s) as Hr.
  pose proof (seg_cycle_consumed s ks) as Hc.
  cbn [SevenSeg.main_loop].
  destruct (SevenSeg.cycle s ks) as [[] s1 ks1 | w1 s1].
  - rewrite Hr. cbn [consumed] in Hc. apply IH. lia.
  - destruct (second_operand_poll w1).
    + destruct Hr as (s2 & Hr & Hreg). rewrite Hr. exists s2. auto.
    + destruct Hr as (s2 & Hr). rewrite Hr.
      destruct fuel as [|fuel]; [lia|].
      cbn [SevenSeg.main_loop SevenSeg.cycle SevenSeg.getNum1
           SevenSeg.getNum1_first].
      eexists. split; [reflexivity|].
      unfold SevenSeg.resetCalculator. autorewrite with seg_display.
      repeat split.
Qed.

(** X8: Reset in the 7-segment program.  Whatever keys have arrived,
    [main] is polling the keypad.  If it polls for a digit of the second
    operand, the Reset key leaves it polling for Confirm, with the first
    operand still in [num1] and the second operand and the operator
    cleared: [getNum2] returns 0 on Reset and [main] compares with 0xFF.
    At every other polling place the Reset key brings [main] back to the
    poll for the first digit with both operands and the operator
    cleared. *)
Theorem sevenseg_reset_at_polling_place :
  forall ks : list Z,
    match SevenSeg.main ks with
    | Some (w, s1) =>
        if second_operand_poll w then
          exists s2,
            SevenSeg.main (ks ++ [0xE]) = Some (WConfirm, s2) /\
            SevenSeg.num1 s2 = SevenSeg.num1 s1 /\
            SevenSeg.num2 s2 = 0 /\ SevenSeg.operator s2 = 0
        else
          exists s2,
            SevenSeg.main (ks ++ [0xE]) = Some (WNum1First, s2) /\
            SevenSeg.num1 s2 = 0 /\ SevenSeg.num2 s2 = 0 /\
            SevenSeg.operator s2 = 0
    | None => False
    end.
Proof.
  intros ks. unfold SevenSeg.main.
  rewrite (seg_main_loop_fuel (S (length ks)) (S (length (ks ++ [0xE]))))
    by (rewrite ?length_app; cbn [length]; lia).
  apply seg_main_loop_reset. rewrite length_app. cbn [length]. lia.
Qed.

(** After a Reset that ends a pass, [main] starts a pass on the keys that
    follow. *)
Lemma seg_main_loop_after_reset (fuel : nat) :
  forall (s : SevenSeg.State) (ks rest : list Z),
    (length ks + length rest + 1 < fuel)%nat ->
    match SevenSeg.main_loop fuel s ks with
    | Some (w, _) =>
        second_operand_poll w = false ->
        exists (s2 : SevenSeg.State) (fuel2 : nat),
          (length rest < fuel2)%nat /\
          SevenSeg.main_loop fuel s (ks ++ 0xE :: rest)
          = SevenSeg.main_loop fuel2 s2 rest
    | None => True
    end.
Proof.
  induction fuel as [|fuel IH]; intros s ks rest Hlen; [lia|].
  pose proof (seg_cycle_reset ks s) as Hr.
  pose proof (seg_cycle_consumed s ks) as Hc.
  cbn [SevenSeg.main_loop].
  destruct (SevenSeg.cycle s ks) as [[] s1 ks1 | w1 s1].
  - rewrite Hr. cbn [consumed] in Hc. apply IH. lia.
  - intros Hw. rewrite Hw in Hr. destruct Hr as (s2 & Hr).
    pose proof (seg_cycle_reset (ks ++ [0xE]) s) as Hr2.
    rewrite Hr in Hr2. specialize (Hr2 rest).
    rewrite <- app_assoc in Hr2. cbn [app] in Hr2. rewrite Hr2.
    exists s2, fuel. split; [lia | reflexivity].
Qed.

Lemma seg_main_pass_start (before : list Z) :
  before = [] \/
  (exists ks w s,
      before = ks ++ [0xE] /\ SevenSeg.main ks = Some (w, s) /\
      second_operand_poll w = false) ->
  forall keys : list Z,
    exists (s0 : SevenSeg.State) (fuel : nat),
      (length keys < fuel)%nat /\
      SevenSeg.main (before ++ keys) = SevenSeg.main_loop fuel s0 keys.
Proof.
  intros [-> | (ks & w & s & -> & Hmain & Hw)] keys.
  - exists (SevenSeg.initialize SevenSeg.power_on), (S (length keys)).
    split; [lia | reflexivity].
  - unfold SevenSeg.main in *. rewrite <- app_assoc. cbn [app].
    rewrite (seg_main_loop_fuel (S (length ks))
               (S (length (ks ++ 0xE :: keys)))) in Hmain
      by (rewrite ?length_app; cbn [length]; lia).
    pose proof (seg_main_loop_after_reset (S (length (ks ++ 0xE :: keys)))
                  (SevenSeg.initialize SevenSeg.power_on) ks keys) as H.
    rewrite Hmain in H. apply H; [|assumption].
    rewrite length_app. cbn [length]. lia.
Qed.

(** X9: the 7-segment calculator computes.  At power-on, or after a Reset
    pressed at any polling place other than those of the second operand, a
    first operand and an operator entered in any of the three accepted
    ways, a second operand entered in either of the two accepted ways, and
    Confirm, with any number of idle scans between the keys, leave [main]
    polling for Reset with the operands, the operator and the result of
    [doOperation] in the registers, the display in result mode, and the
    result as the number drawn last. *)
Theorem sevenseg_calculates (before : list Z) (a op b : Z) (k1 k2 : list Z)
  (n : nat) :
  before = [] \/
  (exists ks w s,
      before = ks ++ [0xE] /\ SevenSeg.main ks = Some (w, s) /\
      second_operand_poll w = false) ->
  first_operand_keys a op k1 -> second_operand_keys b k2 ->
  exists s' t0,
    SevenSeg.main (before ++ k1 ++ k2 ++ idle n ++ [0xF])
    = Some (WResult, s') /\
    SevenSeg.registers s'
    = (a, b, op, fst (SevenSeg.doOperation a b op SevenSeg.power_on)) /\
    SevenSeg.displayMode s' = SevenSeg.DISPLAY_RESULT /\
    SevenSeg.currentDisplayValue s' = SevenSeg.result s' /\
    SevenSeg.trace s' = SevenSeg.displayNumber (SevenSeg.result s') t0.
Proof.
  intros Hbefore H1 H2.
  destruct (seg_main_pass_start before Hbefore
              (k1 ++ k2 ++ idle n ++ [0xF]))
    as (s0 & fuel & Hfuel & Hmain).
  rewrite Hmain. clear Hmain.
  destruct fuel as [|fuel]; [lia|]. cbn [SevenSeg.main_loop].
  destruct (seg_pass_shows s0 a op b k1 k2 n H1 H2)
    as (s' & t0 & E & R & T).
  rewrite E. exists s', t0.
  rewrite (seg_doOperation_fst _ _ _ SevenSeg.power_on s0). auto.
Qed.

Lemma sevenseg_calculates_witness :
  exists s' t0,
    SevenSeg.main [0xE; 1; 2; 0xC; 9; 0xF; 0xF] = Some (WResult, s') /\
    SevenSeg.registers s' = (12, 9, 0xC, 99) /\
    SevenSeg.displayMode s' = SevenSeg.DISPLAY_RESULT /\
    SevenSeg.currentDisplayValue s' = SevenSeg.result s' /\
    SevenSeg.trace s' = SevenSeg.displayNumber (SevenSeg.result s') t0.
Proof.
  apply (sevenseg_calculates [0xE] 12 0xC 9 [1; 2; 0xC] [9; 0xF] 0).
  - right. exists [], WNum1First. eexists.
    split; [reflexivity|]. split; reflexivity.
  - apply (first_two_digits 1 2 0xC 0 0 0); unfold is_digit, is_operator; lia.
  - apply (second_digit_confirm 9 0 0); unfold is_digit; lia.
Defined.
(** * The 7-segment program: what the display shows *)

Lemma encoded_glyph_cases (d : Z) :
  -1 <= d <= 0xD ->
  d = -1 \/ d = 0 \/ d = 1 \/ d = 2 \/ d = 3 \/ d = 4 \/ d = 5 \/ d = 6
  \/ d = 7 \/ d = 8 \/ d = 9 \/ d = 0xA \/ d = 0xB \/ d = 0xC \/ d = 0xD.
Proof. lia. Qed.

Lemma encoded_injective (d1 d2 : Z) :
  -1 <= d1 <= 0xD -> -1 <= d2 <= 0xD ->
  SevenSeg.encoded d1 = SevenSeg.encoded d2 -> d1 = d2.
Proof.
  intros H1 H2 He.
  apply encoded_glyph_cases in H1. apply encoded_glyph_cases in H2.
  repeat (destruct H1 as [-> | H1]); try subst d1;
    repeat (destruct H2 as [-> | H2]); try subst d2;
    first [ reflexivity | vm_compute in He; discriminate He ].
Qed.

Lemma encoded_range (d : Z) : 0 <= SevenSeg.encoded d <= 0x7F.
Proof.
  unfold SevenSeg.encoded.
  destruct (encodeDigit_some d) as (p & -> & Hp). exact Hp.
Qed.

Lemma lor_dp_value (p : Z) : 0 <= p <= 0x7F -> Z.lor p 0x80 = p + 128.
Proof.
  intros Hp. destruct (led_magnitude_bits p Hp) as [_ H].
  rewrite uchar_small in H by lia. exact H.
Qed.

(** X11: the glyphs are distinct: the fifteen values that [encodeDigit]
    does not blank, the digits 0 to 9, the operator codes 0xA to 0xD and
    the minus sign -1, are encoded by fifteen different patterns, none of
    them blank, and every other value is blanked. *)
Theorem encodeDigit_glyphs_distinct :
  forall d1 d2 : Z,
    (-1 <= d1 <= 0xD /\ -1 <= d2 <= 0xD /\
     SevenSeg.encodeDigit d1 = SevenSeg.encodeDigit d2 -> d1 = d2) /\
    (SevenSeg.encodeDigit d1 = Some SevenSeg.PATTERN_BLANK <->
     d1 < -1 \/ 0xD < d1).
Proof.
  intros d1 d2. split.
  - intros (H1 & H2 & He). apply encoded_injective; try assumption.
    unfold SevenSeg.encoded. now rewrite He.
  - split.
    + intros He.
      destruct (Z_lt_le_dec d1 (-1)) as [? | Hlo]; [now left|].
      destruct (Z_lt_le_dec 0xD d1) as [? | Hhi]; [now right|].
      exfalso.
      assert (Hc : -1 <= d1 <= 0xD) by lia.
      apply encoded_glyph_cases in Hc.
      repeat (destruct Hc as [-> | Hc]); try subst d1;
        vm_compute in He; discriminate He.
    + apply encodeDigit_blank.
Qed.

(** The events of one multiplexing round. *)
Lemma seg_displayNumber_events (n : Z) (t : io) :
  -32767 <= n <= 32767 ->
  SevenSeg.displayNumber n t
  = t ++ [LATA 0; LATD (SevenSeg.encoded (Z.min 99 (Z.abs n) / 10)); LATA 1;
          delay_ms 5;
          LATA 0;
          LATD (if n <? 0
                then SevenSeg.encoded (Z.min 99 (Z.abs n) mod 10) + 128
                else SevenSeg.encoded (Z.min 99 (Z.abs n) mod 10));
          LATA 2; delay_ms 5].
Proof.
  intros Hn. unfold SevenSeg.displayNumber, SevenSeg.displayDigit.
  change (0 =? 0) with true. change (1 =? 0) with false. cbv iota.
  change (Z.shiftl 1 SevenSeg.TENS_DIGIT_PIN) with 1.
  change (Z.shiftl 1 SevenSeg.UNITS_DIGIT_PIN) with 2.
  change SevenSeg.SEG_DP with 0x80.
  rewrite <- !app_assoc. cbn [app]. f_equal.
  assert (Hm : (if n <? 0
                then if int_neg n >? 99 then 99 else int_neg n
                else if n >? 99 then 99 else n) = Z.min 99 (Z.abs n)).
  { unfold int_neg.
    destruct (Z.ltb_spec n 0).
    - rewrite wrap16_small by lia.
      destruct (Z.gtb_spec (- n) 99); lia.
    - destruct (Z.gtb_spec n 99); lia. }
  rewrite Hm. clear Hm.
  assert (H99 : 0 <= Z.min 99 (Z.abs n) <= 99) by lia.
  set (m := Z.min 99 (Z.abs n)) in *.
  assert (Hq : int_div m 10 = m / 10).
  { unfold int_div. rewrite Z.quot_div_nonneg by lia.
    apply wrap16_small.
    pose proof (Z.div_pos m 10 ltac:(lia) ltac:(lia)).
    pose proof (Z.div_le_upper_bound m 10 99 ltac:(lia) ltac:(lia)). lia. }
  assert (Hr : int_rem m 10 = m mod 10).
  { unfold int_rem. rewrite Z.rem_mod_nonneg by lia.
    pose proof (Z.mod_pos_bound m 10 ltac:(lia)).
    apply wrap16_small. lia. }
  rewrite Hq, Hr.
  destruct (n <? 0).
  - rewrite lor_dp_value by apply encoded_range. reflexivity.
  - reflexivity.
Qed.



(** X13: the display is unambiguous: two different numbers from -99 to 99
    are never drawn alike by [displayNumber]. *)
Theorem displayNumber_injective :
  forall (n m : Z) (t : io),
    -99 <= n <= 99 -> -99 <= m <= 99 ->
    (SevenSeg.displayNumber n t = SevenSeg.displayNumber m t <-> n = m).
Proof.
  intros n m t Hn Hm. split; [|now intros ->].
  intros He.
  rewrite !seg_displayNumber_events in He by lia.
  apply app_inv_head in He.
  injection He as Htens Hunits.
  rewrite !Z.min_r in Htens, Hunits by lia.
  assert (Hqn : 0 <= Z.abs n / 10 <= 9).
  { split; [apply Z.div_pos; lia|].
    apply Z.lt_succ_r. apply Z.div_lt_upper_bound; lia. }
  assert (Hqm : 0 <= Z.abs m / 10 <= 9).
  { split; [apply Z.div_pos; lia|].
    apply Z.lt_succ_r. apply Z.div_lt_upper_bound; lia. }
  pose proof (Z.mod_pos_bound (Z.abs n) 10 ltac:(lia)) as Hrn.
  pose proof (Z.mod_pos_bound (Z.abs m) 10 ltac:(lia)) as Hrm.
  apply encoded_injective in Htens; [|lia|lia].
  pose proof (encoded_range (Z.abs n mod 10)) as Rn.
  pose proof (encoded_range (Z.abs m mod 10)) as Rm.
  assert (Hsign : (n <? 0) = (m <? 0) /\
                  SevenSeg.encoded (Z.abs n mod 10)
                  = SevenSeg.encoded (Z.abs m mod 10)).
  { revert Hunits. destruct (n <? 0), (m <? 0); intros Hunits; split;
      first [ reflexivity | lia ]. }
  destruct Hsign as [Hsign Hu].
  apply encoded_injective in Hu; [|lia|lia].
  assert (Habs : Z.abs n = Z.abs m).
  { rewrite (Z.div_mod (Z.abs n) 10), (Z.div_mod (Z.abs m) 10) by lia.
    now rewrite Htens, Hu. }
  destruct (Z.ltb_spec n 0); destruct (Z.ltb_spec m 0);
    first [ discriminate Hsign | lia ].
Qed.

Lemma displayNumber_injective_witness :
  SevenSeg.displayNumber (-7) [] = SevenSeg.displayNumber 7 [] <-> -7 = 7.
Proof.
  apply (displayNumber_injective (-7) 7 []); lia.
Defined.
(** * Keys that a polling place passes over *)

(** The comparisons of the key, decided in the goal and in the hypothesis
    on [accepted_key] at once. *)
Ltac key_cases k :=
  pose proof (uchar_range k);
  repeat match goal with
         | |- context [uchar k =? ?b] => destruct (Z.eqb_spec (uchar k) b)
         | |- context [uchar k <=? ?b] => destruct (Z.leb_spec (uchar k) b)
         | |- context [uchar k >=? ?b] => destruct (Z.geb_spec (uchar k) b)
         end;
  cbn [andb orb negb]; try lia.

Ltac passes_base k :=
  intros k; cbn [accepted_key]; led_proj; key_cases k;
  first [ discriminate
        | intros _; eexists; split; reflexivity ].

Ltac passes_step IH :=
  repeat match goal with
         | |- context [if ?b then _ else _] => destruct b
         end;
  first [ apply IH
        | intros ?; reflexivity ].

Lemma led_getNum1_second_passes : passes_over led_same LED.getNum1_second.
Proof.
  intros ks. induction ks as [|k0 ks IH]; intros s.
  - cbn [LED.getNum1_second app]. passes_base k.
  - cbn [LED.getNum1_second app]. passes_step IH.
Qed.

Lemma led_getNum1_first_passes : passes_over led_same LED.getNum1_first.
Proof.
  intros ks. induction ks as [|k0 ks IH]; intros s.
  - cbn [LED.getNum1_first app]. passes_base k.
  - cbn [LED.getNum1_first app].
    repeat match goal with
           | |- context [if ?b then _ else _] => destruct b
           end;
      first [ apply IH | apply led_getNum1_second_passes
            | intros ?; reflexivity ].
Qed.

Lemma led_getNum1_passes : passes_over led_same LED.getNum1.
Proof. intros ks s. unfold LED.getNum1. apply led_getNum1_first_passes. Qed.

Lemma led_getOperator_loop_passes :
  passes_over led_same LED.getOperator_loop.
Proof.
  intros ks. induction ks as [|k0 ks IH]; intros s.
  - cbn [LED.getOperator_loop app]. passes_base k.
  - cbn [LED.getOperator_loop app]. passes_step IH.
Qed.

Lemma led_getOperator_passes : passes_over led_same LED.getOperator.
Proof.
  intros ks s. unfold LED.getOperator.
  destruct ((LED.operator s >=? 10) && (LED.operator s <=? 13)).
  - intros ?; reflexivity.
  - apply led_getOperator_loop_passes.
Qed.

Lemma led_getNum2_second_passes : passes_over led_same LED.getNum2_second.
Proof.
  intros ks. induction ks as [|k0 ks IH]; intros s.
  - cbn [LED.getNum2_second app]. passes_base k.
  - cbn [LED.getNum2_second app]. passes_step IH.
Qed.

Lemma led_getNum2_first_passes : passes_over led_same LED.getNum2_first.
Proof.
  intros ks. induction ks as [|k0 ks IH]; intros s.
  - cbn [LED.getNum2_first app]. passes_base k.
  - cbn [LED.getNum2_first app].
    repeat match goal with
           | |- context [if ?b then _ else _] => destruct b
           end;
      first [ apply IH | apply led_getNum2_second_passes
            | intros ?; reflexivity ].
Qed.

Lemma led_getNum2_passes : passes_over led_same LED.getNum2.
Proof. intros ks s. unfold LED.getNum2. apply led_getNum2_first_passes. Qed.

Lemma led_wait_reset_passes (w : waitpoint) :
  w = WResult \/ w = WDivError ->
  passes_over led_same (LED.wait_reset w).
Proof.
  intros Hw ks. induction ks as [|k0 ks IH]; intros s.
  - cbn [LED.wait_reset app].
    destruct Hw as [-> | ->]; passes_base k.
  - cbn [LED.wait_reset app]. passes_step IH.
Qed.

Lemma led_blink_loop_passes (number : Z) :
  forall counter state,
    passes_over led_same (LED.blink_loop number counter state).
Proof.
  intros counter state ks. revert counter state.
  induction ks as [|k0 ks IH]; intros counter state s.
  - cbn [LED.blink_loop app].
    destruct (if (counter + 1) mod 65536 >=? 5 then negb state else state);
      intros k; cbn [accepted_key]; led_proj; key_cases k;
      first [ discriminate
            | intros _;
              match goal with
              | |- context [if ?b then LED.out _ _ else _] => destruct b
              end; eexists; split; reflexivity ].
  - cbn [LED.blink_loop app]. passes_step IH.
Qed.

Lemma led_show_passes :
  passes_over led_same
    (fun s ks =>
       match LED.displayBinaryWithBlink (LED.result s) s ks with
       | Wait w s => Wait w s
       | Ret _ s ks =>
           if LED.result s >=? 0 then LED.wait_reset WResult s ks
           else Ret tt s ks
       end).
Proof.
  intros ks s. cbv beta. unfold LED.displayBinaryWithBlink.
  destruct (Z.ltb_spec (LED.result s) 0) as [Hneg | Hpos].
  - set (number := if int_neg (LED.result s) >? 127 then 127
                   else int_neg (LED.result s)).
    pose proof (led_blink_loop_passes number 0 false ks s) as Hb.
    pose proof (led_blink_loop_result number ks 0 false s) as Hr.
    destruct (LED.blink_loop number 0 false s ks) as [[] s1 ks1 | w1 s1].
    + cbn [outcome_state] in Hr.
      destruct (Z.geb_spec (LED.result s1) 0) as [|_]; [lia|].
      intros ks'. rewrite Hb.
      destruct (Z.geb_spec (LED.result s1) 0) as [|_]; [lia|]. reflexivity.
    + intros k Hk. destruct (Hb k Hk) as (s2 & Hb2 & Hsame).
      exists s2. rewrite Hb2. auto.
  - cbn [LED.result LED.on_io LED.set_trace].
    destruct (LED.result s >=? 0).
    + apply led_wait_reset_passes. now left.
    + intros ?. reflexivity.
Qed.

Lemma led_displayResult_loop_passes :
  passes_over led_same LED.displayResult_loop.
Proof.
  intros ks. induction ks as [|k0 ks IH]; intros s.
  - cbn [LED.displayResult_loop app]. passes_base k.
  - cbn [LED.displayResult_loop app].
    destruct (LED.keyVal (LED.set_keyVal (uchar k0) s) =? 255); [apply IH|].
    destruct (LED.keyVal (LED.set_keyVal (uchar k0) s) =? 15).
    + destruct (LED.doOperation _ _ _ _) as [r s1].
      destruct ((LED.result _ =? -1) && _).
      * apply led_wait_reset_passes. now right.
      * apply (led_show_passes ks (LED.out [LATD 0] (LED.set_result r s1))).
    + destruct (LED.keyVal (LED.set_keyVal (uchar k0) s) =? 14).
      * intros ?. reflexivity.
      * apply IH.
Qed.

Lemma led_displayResult_passes : passes_over led_same LED.displayResult.
Proof.
  intros ks s. unfold LED.displayResult. apply led_displayResult_loop_passes.
Qed.

Lemma step_then_passes {S A : Type} (same : S -> S -> Prop)
  (L : S -> list Z -> outcome S A) (f : A -> S -> S) (again : S -> bool)
  (K : S -> list Z -> outcome S unit) :
  passes_over same L -> passes_over same K ->
  passes_over same (step_then L f again K).
Proof.
  intros HL HK ks s. unfold step_then.
  pose proof (HL ks s) as H1.
  destruct (L s ks) as [v s1 ks1 | w s1].
  - destruct (again (f v s1)) eqn:Ha.
    + intros ks'. now rewrite H1, Ha.
    + pose proof (HK ks1 (f v s1)) as H2.
      destruct (K (f v s1) ks1) as [[] s2 ks2 | w2 s2].
      * intros ks'. rewrite H1, Ha. apply H2.
      * intros k Hk. destruct (H2 k Hk) as (s3 & H3 & Hsame).
        exists s3. rewrite H1, Ha. auto.
  - intros k Hk. destruct (H1 k Hk) as (s2 & H2 & Hsame).
    exists s2. rewrite H2. auto.
Qed.

Lemma led_cycle_passes : passes_over led_same LED.cycle.
Proof.
  intros ks s. rewrite led_cycle_steps.
  match goal with
  | |- match ?F (LED.resetCalculator s) ks with _ => _ end =>
      assert (HF : passes_over led_same F)
  end.
  { apply step_then_passes; [apply led_getNum1_passes|].
    apply step_then_passes; [apply led_getOperator_passes|].
    apply step_then_passes; [apply led_getNum2_passes|].
    apply step_then_passes; [apply led_displayResult_passes|].
    intros ks0 s0 ks'. reflexivity. }
  pose proof (HF ks (LED.resetCalculator s)) as H.
  destruct (step_then _ _ _ _ (LED.resetCalculator s) ks)
    as [[] s1 ks1 | w1 s1].
  - intros ks'. rewrite led_cycle_steps. apply H.
  - intros k Hk. rewrite led_cycle_steps. apply H. exact Hk.
Qed.

Lemma led_main_loop_fuel (fuel : nat) :
  forall (fuel' : nat) (s : LED.State) (ks : list Z),
    (length ks < fuel)%nat -> (length ks < fuel')%nat ->
    LED.main_loop fuel s ks = LED.main_loop fuel' s ks.
Proof.
  induction fuel as [|fuel IH]; intros fuel' s ks H1 H2; [lia|].
  destruct fuel' as [|fuel']; [lia|].
  cbn [LED.main_loop].
  pose proof (led_cycle_consumed s ks) as Hc.
  destruct (LED.cycle s ks) as [[] s1 ks1 | w1 s1]; [|reflexivity].
  cbn [consumed] in Hc. apply IH; lia.
Qed.

Lemma led_main_loop_passes (fuel : nat) :
  forall (s : LED.State) (ks : list Z) (k : Z),
    (length ks < fuel)%nat ->
    match LED.main_loop fuel s ks with
    | Some (w, s1) =>
        accepted_key w (uchar k) = false ->
        exists s2,
          LED.main_loop fuel s (ks ++ [k]) = Some (w, s2) /\
          LED.registers s2 = LED.registers s1
    | None => False
    end.
Proof.
  induction fuel as [|fuel IH]; intros s ks k Hlen; [lia|].
  pose proof (led_cycle_passes ks s) as Hp.
  pose proof (led_cycle_consumed s ks) as Hc.
  cbn [LED.main_loop].
  destruct (LED.cycle s ks) as [[] s1 ks1 | w1 s1].
  - rewrite Hp. cbn [consumed] in Hc. apply IH. lia.
  - intros Hk. destruct (Hp k Hk) as (s2 & H2 & Hsame).
    exists s2. rewrite H2. split; [reflexivity|]. symmetry. exact Hsame.
Qed.

(** X14: keys without a meaning at the current polling place have no
    effect in the LED program.  Whatever keys have arrived, [main] is
    polling the keypad; a scan value that the polling place does not accept
    (a scan that finds no key; an operator key or Confirm where a first
    digit is expected; a digit or Confirm where the operator is expected;
    an operator key where the second digit of the second operand is
    expected; a digit or an operator key where Confirm is expected;
    anything but Reset once the result or the division error is shown)
    leaves [main] polling at the same place with the operands, the operator
    and the result unchanged. *)
Theorem led_unaccepted_key_ignored :
  forall (ks : list Z) (k : Z),
    match LED.main ks with
    | Some (w, s1) =>
        accepted_key w (uchar k) = false ->
        exists s2,
          LED.main (ks ++ [k]) = Some (w, s2) /\
          LED.registers s2 = LED.registers s1
    | None => False
    end.
Proof.
  intros ks k. unfold LED.main.
  rewrite (led_main_loop_fuel (S (length ks)) (S (length (ks ++ [k]))))
    by (rewrite ?length_app; cbn [length]; lia).
  apply led_main_loop_passes. rewrite length_app. cbn [length]. lia.
Qed.

Lemma led_unaccepted_key_ignored_witness :
  exists s2,
    LED.main ([1; 2] ++ [5]) = Some (WOperator, s2) /\
    LED.registers s2 = (12, 0, 0, 0).
Proof.
  pose proof (led_unaccepted_key_ignored [1; 2] 5) as H.
  destruct (LED.main [1; 2]) as [[w s1]|] eqn:E; [|contradiction].
  vm_compute in E. injection E as <- <-.
  destruct (H eq_refl) as (s2 & E2 & R).
  exists s2. split; [exact E2|]. rewrite R. reflexivity.
Defined.

Ltac seg_passes_base k :=
  intros k; cbn [accepted_key];
  rewrite ?seg_scanKeypad_keyVal; key_cases k;
  first [ discriminate
        | intros _; eexists; split; [reflexivity|];
          unfold seg_same, SevenSeg.registers; seg_norm; reflexivity ].

Lemma seg_getNum1_second_passes :
  passes_over seg_same SevenSeg.getNum1_second.
Proof.
  intros ks. induction ks as [|k0 ks IH]; intros s.
  - cbn [SevenSeg.getNum1_second app]. seg_passes_base k.
  - cbn [SevenSeg.getNum1_second app]. passes_step IH.
Qed.

Lemma seg_getNum1_first_passes : passes_over seg_same SevenSeg.getNum1_first.
Proof.
  intros ks. induction ks as [|k0 ks IH]; intros s.
  - cbn [SevenSeg.getNum1_first app]. seg_passes_base k.
  - cbn [SevenSeg.getNum1_first app].
    repeat match goal with
           | |- context [if ?b then _ else _] => destruct b
           end;
      first [ apply IH | apply seg_getNum1_second_passes
            | intros ?; reflexivity ].
Qed.

Lemma seg_getNum1_passes : passes_over seg_same SevenSeg.getNum1.
Proof.
  intros ks s. unfold SevenSeg.getNum1. apply seg_getNum1_first_passes.
Qed.

Lemma seg_getOperator_loop_passes (storedNum1 : Z) :
  passes_over seg_same (SevenSeg.getOperator_loop storedNum1).
Proof.
  intros ks. induction ks as [|k0 ks IH]; intros s.
  - cbn [SevenSeg.getOperator_loop app]. seg_passes_base k.
  - cbn [SevenSeg.getOperator_loop app]. passes_step IH.
Qed.

Lemma seg_getOperator_passes : passes_over seg_same SevenSeg.getOperator.
Proof.
  intros ks s. unfold SevenSeg.getOperator.
  destruct ((SevenSeg.operator s >=? 10) && (SevenSeg.operator s <=? 13)).
  - intros ?; reflexivity.
  - apply seg_getOperator_loop_passes.
Qed.

Lemma seg_getNum2_second_passes :
  passes_over seg_same SevenSeg.getNum2_second.
Proof.
  intros ks. induction ks as [|k0 ks IH]; intros s.
  - cbn [SevenSeg.getNum2_second app]. seg_passes_base k.
  - cbn [SevenSeg.getNum2_second app]. passes_step IH.
Qed.

Lemma seg_getNum2_first_passes : passes_over seg_same SevenSeg.getNum2_first.
Proof.
  intros ks. induction ks as [|k0 ks IH]; intros s.
  - cbn [SevenSeg.getNum2_first app]. seg_passes_base k.
  - cbn [SevenSeg.getNum2_first app].
    repeat match goal with
           | |- context [if ?b then _ else _] => destruct b
           end;
      first [ apply IH | apply seg_getNum2_second_passes
            | intros ?; reflexivity ].
Qed.

Lemma seg_getNum2_passes : passes_over seg_same SevenSeg.getNum2.
Proof.
  intros ks s. unfold SevenSeg.getNum2. apply seg_getNum2_first_passes.
Qed.

Lemma seg_wait_reset_passes :
  passes_over seg_same (SevenSeg.wait_reset WResult).
Proof.
  intros ks. induction ks as [|k0 ks IH]; intros s.
  - cbn [SevenSeg.wait_reset app]. seg_passes_base k.
  - cbn [SevenSeg.wait_reset app]. passes_step IH.
Qed.

Lemma seg_displayResult_loop_passes :
  passes_over seg_same SevenSeg.displayResult_loop.
Proof.
  intros ks. induction ks as [|k0 ks IH]; intros s.
  - cbn [SevenSeg.displayResult_loop app]. seg_passes_base k.
  - cbn [SevenSeg.displayResult_loop app].
    destruct (SevenSeg.keyVal (SevenSeg.scanKeypad s k0) =? 255);
      [apply IH|].
    destruct (SevenSeg.keyVal (SevenSeg.scanKeypad s k0) =? 15).
    + destruct (SevenSeg.doOperation _ _ _ _) as [r s1].
      apply seg_wait_reset_passes.
    + destruct (SevenSeg.keyVal (SevenSeg.scanKeypad s k0) =? 14).
      * intros ?. reflexivity.
      * apply IH.
Qed.

Lemma seg_displayResult_passes : passes_over seg_same SevenSeg.displayResult.
Proof.
  intros ks s. unfold SevenSeg.displayResult.
  apply seg_displayResult_loop_passes.
Qed.

(** The body of the loop of [main] as a chain of steps; the continuations
    read [num1] and the displayed value from the state they start in. *)
Lemma seg_cycle_steps (s : SevenSeg.State) (ks : list Z) :
  SevenSeg.cycle s ks
  = step_then SevenSeg.getNum1
      (fun v s => SevenSeg.set_num1 v s)
      (fun s => SevenSeg.num1 s =? 0xFF)
      (fun s ks =>
         step_then SevenSeg.getOperator
           (fun v s => SevenSeg.set_operator v s)
           (fun s => SevenSeg.operator s =? 0)
           (fun s ks =>
              step_then SevenSeg.getNum2
                (fun v s' => SevenSeg.set_num2 v s')
                (fun s' => SevenSeg.num2 s' =? 0xFF)
                (fun s' ks =>
                   step_then SevenSeg.displayResult
                     (fun _ s => SevenSeg.out [delay_ms 500] s)
                     (fun _ => true)
                     (fun s ks => Ret tt s ks)
                     (SevenSeg.set_num1 (SevenSeg.currentDisplayValue s) s')
                     ks)
                s ks)
           (SevenSeg.set_currentDisplayValue (SevenSeg.num1 s) s) ks)
      (SevenSeg.resetCalculator s) ks.
Proof. reflexivity. Qed.

Lemma seg_cycle_passes : passes_over seg_same SevenSeg.cycle.
Proof.
  intros ks s. rewrite seg_cycle_steps.
  match goal with
  | |- match ?F (SevenSeg.resetCalculator s) ks with _ => _ end =>
      assert (HF : passes_over seg_same F)
  end.
  { apply step_then_passes; [apply seg_getNum1_passes|].
    intros ks1 s1.
    apply (step_then_passes seg_same SevenSeg.getOperator);
      [apply seg_getOperator_passes|].
    intros ks2 s2.
    apply (step_then_passes seg_same SevenSeg.getNum2);
      [apply seg_getNum2_passes|].
    intros ks3 s3.
    apply (step_then_passes seg_same SevenSeg.displayResult);
      [apply seg_displayResult_passes|].
    intros ks0 s0 ks'. reflexivity. }
  pose proof (HF ks (SevenSeg.resetCalculator s)) as H.
  destruct (step_then _ _ _ _ (SevenSeg.resetCalculator s) ks)
    as [[] s1 ks1 | w1 s1].
  - intros ks'. rewrite seg_cycle_steps. apply H.
  - intros k Hk. rewrite seg_cycle_steps. apply H. exact Hk.
Qed.

Lemma seg_main_loop_passes (fuel : nat) :
  forall (s : SevenSeg.State) (ks : list Z) (k : Z),
    (length ks < fuel)%nat ->
    match SevenSeg.main_loop fuel s ks with
    | Some (w, s1) =>
        accepted_key w (uchar k) = false ->
        exists s2,
          SevenSeg.main_loop fuel s (ks ++ [k]) = Some (w, s2) /\
          SevenSeg.registers s2 = SevenSeg.registers s1
    | None => False
    end.
Proof.
  induction fuel as [|fuel IH]; intros s ks k Hlen; [lia|].
  pose proof (seg_cycle_passes ks s) as Hp.
  pose proof (seg_cycle_consumed s ks) as Hc.
  cbn [SevenSeg.main_loop].
  destruct (SevenSeg.cycle s ks) as [[] s1 ks1 | w1 s1].
  - rewrite Hp. cbn [consumed] in Hc. apply IH. lia.
  - intros Hk. destruct (Hp k Hk) as (s2 & H2 & Hsame).
    exists s2. rewrite H2. split; [reflexivity|]. symmetry. exact Hsame.
Qed.

(** X15: keys without a meaning at the current polling place have no
    effect in the 7-segment program: a scan value that the polling place
    does not accept leaves [main] polling at the same place with the
    operands, the operator and the result unchanged. *)
Theorem sevenseg_unaccepted_key_ignored :
  forall (ks : list Z) (k : Z),
    match SevenSeg.main ks with
    | Some (w, s1) =>
        accepted_key w (uchar k) = false ->
        exists s2,
          SevenSeg.main (ks ++ [k]) = Some (w, s2) /\
          SevenSeg.registers s2 = SevenSeg.registers s1
    | None => False
    end.
Proof.
  intros ks k. unfold SevenSeg.main.
  rewrite (seg_main_loop_fuel (S (length ks)) (S (length (ks ++ [k]))))
    by (rewrite ?length_app; cbn [length]; lia).
  apply seg_main_loop_passes. rewrite length_app. cbn [length]. lia.
Qed.

Lemma sevenseg_unaccepted_key_ignored_witness :
  exists s2,
    SevenSeg.main ([1; 2; 0xA; 3] ++ [0xB]) = Some (WNum2Second, s2) /\
    SevenSeg.registers s2 = (12, 0, 0xA, 0).
Proof.
  pose proof (sevenseg_unaccepted_key_ignored [1; 2; 0xA; 3] 0xB) as H.
  destruct (SevenSeg.main [1; 2; 0xA; 3]) as [[w s1]|] eqn:E;
    [|contradiction].
  vm_compute in E. injection E as <- <-.
  destruct (H eq_refl) as (s2 & E2 & R).
  exists s2. split; [exact E2|]. rewrite R. reflexivity.
Defined.
(** * The evaluators on entered operands *)

Lemma int_div_operands (a b : Z) :
  0 <= a <= 99 -> 0 < b <= 99 -> int_div a b = a / b /\ 0 <= a / b <= 99.
Proof.
  intros Ha Hb. unfold int_div. rewrite Z.quot_div_nonneg by lia.
  assert (0 <= a / b <= 99).
  { split; [apply Z.div_pos; lia|].
    apply Z.div_le_upper_bound; nia. }
  split; [apply wrap16_small; lia | assumption].
Qed.

(** X16: the evaluators are exact on entered operands.  For operands from
    0 to 99 the 16-bit arithmetic never wraps: Add gives the sum in the LED
    program and the sum capped at 99 in the 7-segment program; Sub gives
    the difference, negative when the second operand is the larger, in
    both; Div by a non-zero operand gives the integer quotient, rounded
    down, in both; and none of the three touches the machine. *)
Theorem doOperation_exact :
  forall (a b : Z) (sl : LED.State) (ss : SevenSeg.State),
    0 <= a <= 99 -> 0 <= b <= 99 ->
    LED.doOperation a b 0xA sl = (a + b, sl) /\
    SevenSeg.doOperation a b 0xA ss = (Z.min (a + b) 99, ss) /\
    LED.doOperation a b 0xB sl = (a - b, sl) /\
    SevenSeg.doOperation a b 0xB ss = (a - b, ss) /\
    (b <> 0 ->
     LED.doOperation a b 0xD sl = (a / b, sl) /\
     SevenSeg.doOperation a b 0xD ss = (a / b, ss) /\
     b * (a / b) <= a < b * (a / b + 1)).
Proof.
  intros a b sl ss Ha Hb.
  assert (Eadd : int_add a b = a + b)
    by (unfold int_add; apply wrap16_small; lia).
  assert (Esub : int_sub a b = a - b)
    by (unfold int_sub; apply wrap16_small; lia).
  split; [|split; [|split; [|split]]].
  - rewrite led_doOperation_add, Eadd. reflexivity.
  - unfold SevenSeg.doOperation. cbn [Z.eqb Pos.eqb]. rewrite Eadd.
    f_equal. unfold SevenSeg.limit99.
    destruct (Z.gtb_spec (a + b) 99); [lia|].
    destruct (Z.ltb_spec (a + b) (-99)); lia.
  - rewrite led_doOperation_sub, Esub. reflexivity.
  - unfold SevenSeg.doOperation. cbn [Z.eqb Pos.eqb]. rewrite Esub.
    f_equal. apply limit99_fixed. lia.
  - intros Hb0.
    destruct (int_div_operands a b Ha ltac:(lia)) as [Ediv Hq].
    split; [|split].
    + unfold LED.doOperation. cbn [Z.eqb Pos.eqb].
      destruct (Z.eqb_spec b 0) as [? | _]; [contradiction|].
      cbn [negb]. now rewrite Ediv.
    + unfold SevenSeg.doOperation. cbn [Z.eqb Pos.eqb].
      destruct (Z.eqb_spec b 0) as [? | _]; [contradiction|].
      cbn [negb]. rewrite Ediv. f_equal. apply limit99_fixed. lia.
    + pose proof (Z.mul_div_le a b ltac:(lia)).
      pose proof (Z.mul_succ_div_gt a b ltac:(lia)). lia.
Qed.

Lemma doOperation_exact_witness :
  LED.doOperation 99 99 0xA LED.power_on = (99 + 99, LED.power_on) /\
  SevenSeg.doOperation 99 99 0xA SevenSeg.power_on
  = (Z.min (99 + 99) 99, SevenSeg.power_on) /\
  LED.doOperation 99 99 0xB LED.power_on = (99 - 99, LED.power_on) /\
  SevenSeg.doOperation 99 99 0xB SevenSeg.power_on
  = (99 - 99, SevenSeg.power_on) /\
  (99 <> 0 ->
   LED.doOperation 99 99 0xD LED.power_on = (99 / 99, LED.power_on) /\
   SevenSeg.doOperation 99 99 0xD SevenSeg.power_on
   = (99 / 99, SevenSeg.power_on) /\
   99 * (99 / 99) <= 99 < 99 * (99 / 99 + 1)).
Proof.
  apply (doOperation_exact 99 99 LED.power_on SevenSeg.power_on); lia.
Defined.

(** X17: the two evaluators agree up to the range of the two-digit
    display: for all operands and every operator code, division by zero
    excepted, [doOperation] of the 7-segment program returns the value of
    [doOperation] of the LED program brought into -99..99.  On division by
    zero they differ: -1 in the LED program, 0 in the 7-segment one. *)
Theorem evaluators_agree :
  forall (a b op : Z) (sl : LED.State) (ss : SevenSeg.State),
    (~ (op = 0xD /\ b = 0) ->
     fst (SevenSeg.doOperation a b op ss)
     = SevenSeg.limit99 (fst (LED.doOperation a b op sl))) /\
    fst (LED.doOperation a 0 0xD sl) = -1 /\
    fst (SevenSeg.doOperation a 0 0xD ss) = 0.
Proof.
  intros a b op sl ss. split; [|split; reflexivity].
  intros Hdiv. unfold SevenSeg.doOperation, LED.doOperation.
  destruct (op =? 0xA); [reflexivity|].
  destruct (op =? 0xB); [reflexivity|].
  destruct (op =? 0xC).
  { cbn [fst]. unfold SevenSeg.limit99, MAX_INPUT.
    repeat match goal with
           | |- context [?x >? ?y] => destruct (Z.gtb_spec x y)
           | |- context [?x <? ?y] => destruct (Z.ltb_spec x y)
           end; lia. }
  destruct (Z.eqb_spec op 0xD) as [Hop | _]; [|reflexivity].
  destruct (Z.eqb_spec b 0) as [Hb | _]; [tauto|]. reflexivity.
Qed.

Lemma evaluators_agree_witness :
  fst (SevenSeg.doOperation 70 60 0xA SevenSeg.power_on)
  = SevenSeg.limit99 (fst (LED.doOperation 70 60 0xA LED.power_on)).
Proof.
  apply (proj1 (evaluators_agree 70 60 0xA LED.power_on SevenSeg.power_on)).
  lia.
Defined.
(** * The 7-segment program: what the display holds at a polling place *)


















(** * The LED program: what the LEDs show at a polling place *)

Lemma last_latd_app (t u : io) :
  last_latd (t ++ u)
  = fold_left (fun acc e => match e with LATD v => Some v | _ => acc end)
      u (last_latd t).
Proof. unfold last_latd. apply fold_left_app. Qed.

Lemma last_latd_blinkLED (pattern count delay : Z) (t : io) :
  0 < count -> last_latd (LED.blinkLED pattern count delay t) = Some 0.
Proof.
  intros Hc. unfold LED.blinkLED.
  destruct (Z.to_nat count) as [|n] eqn:En; [lia|].
  rewrite Nat.iter_succ, last_latd_app. reflexivity.
Qed.

(** The last write to LATD of a state built by assignments and outputs. *)
Ltac led_latd :=
  led_proj; rewrite ?last_latd_app; cbn [fold_left]; try assumption;
  try reflexivity.

Ltac led_shown_leaf IH :=
  repeat match goal with
         | |- context [if ?b then _ else _] => destruct b
         end;
  first [ exact I
        | apply IH; led_latd
        | cbn [holds_at led_shown]; led_latd ].

Lemma led_getNum1_second_shown (ks : list Z) :
  forall s : LED.State,
    last_latd (LED.trace s) = Some 0x01 ->
    holds_at (fun _ _ => True) led_shown (LED.getNum1_second s ks).
Proof.
  induction ks as [|k ks IH]; intros s Hl; [exact Hl|].
  cbn [LED.getNum1_second]. led_shown_leaf IH.
Qed.

Lemma led_getNum1_first_shown (ks : list Z) :
  forall s : LED.State,
    last_latd (LED.trace s) = Some 0x00 ->
    holds_at (fun _ _ => True) led_shown (LED.getNum1_first s ks).
Proof.
  induction ks as [|k ks IH]; intros s Hl; [exact Hl|].
  cbn [LED.getNum1_first].
  repeat match goal with
         | |- context [if ?b then _ else _] => destruct b
         end;
    first [ exact I
          | apply IH; led_latd
          | apply led_getNum1_second_shown; led_latd ].
Qed.

Lemma led_getOperator_loop_shown (ks : list Z) :
  forall s : LED.State,
    last_latd (LED.trace s) = Some 0x04 ->
    holds_at (fun _ _ => True) led_shown (LED.getOperator_loop s ks).
Proof.
  induction ks as [|k ks IH]; intros s Hl; [exact Hl|].
  cbn [LED.getOperator_loop]. led_shown_leaf IH.
Qed.

Lemma led_getNum2_second_shown (ks : list Z) :
  forall s : LED.State,
    last_latd (LED.trace s) = Some 0x02 ->
    holds_at (fun _ _ => True) led_shown (LED.getNum2_second s ks).
Proof.
  induction ks as [|k ks IH]; intros s Hl; [exact Hl|].
  cbn [LED.getNum2_second]. led_shown_leaf IH.
Qed.

Lemma led_getNum2_first_shown (ks : list Z) :
  forall s : LED.State,
    last_latd (LED.trace s) = Some 0x02 ->
    holds_at (fun _ _ => True) led_shown (LED.getNum2_first s ks).
Proof.
  induction ks as [|k ks IH]; intros s Hl; [exact Hl|].
  cbn [LED.getNum2_first].
  repeat match goal with
         | |- context [if ?b then _ else _] => destruct b
         end;
    first [ exact I
          | apply IH; led_latd
          | apply led_getNum2_second_shown; led_latd ].
Qed.

Lemma led_wait_reset_shown (w : waitpoint) (ks : list Z) :
  forall s : LED.State,
    led_shown w s ->
    (forall k, led_shown w (LED.set_keyVal k s)) ->
    holds_at (fun _ _ => True) led_shown (LED.wait_reset w s ks).
Proof.
  induction ks as [|k ks IH]; intros s Hs Hk; [exact Hs|].
  cbn [LED.wait_reset]. led_proj.
  destruct (uchar k =? 14); [exact I|].
  apply IH; [apply Hk|]. intros k'. apply (Hk k').
Qed.

Lemma led_blink_loop_shown (number : Z) (ks : list Z) :
  0 <= number <= 127 ->
  forall (c : Z) (b : bool) (s : LED.State),
    LED.result s = - number -> LED.result s < 0 ->
    holds_at (fun _ _ => True) led_shown (LED.blink_loop number c b s ks).
Proof.
  intros Hn. destruct (led_magnitude_bits number Hn) as [Hlo Hhi].
  induction ks as [|k ks IH]; intros c b s Hr Hneg.
  - cbn [LED.blink_loop].
    destruct (if (c + 1) mod 65536 >=? 5 then negb b else b);
      cbn [holds_at led_shown]; led_proj; rewrite last_latd_app;
      cbn [fold_left]; rewrite ?Hlo, ?Hhi;
      (split; [assumption|]); rewrite Hr, Z.opp_involutive; auto.
  - cbn [LED.blink_loop].
    destruct (if (c + 1) mod 65536 >=? 5 then negb b else b);
      led_proj; (destruct (uchar k =? 14); [exact I|]);
      apply IH; assumption.
Qed.

(** After [result] is stored and the LEDs are cleared. *)
Lemma led_show_shown (s : LED.State) (ks : list Z) :
  -99 <= LED.result s <= 198 ->
  holds_at (fun _ _ => True) led_shown
    match LED.displayBinaryWithBlink (LED.result s) s ks with
    | Wait w s => Wait w s
    | Ret _ s ks =>
        if LED.result s >=? 0 then LED.wait_reset WResult s ks
        else Ret tt s ks
    end.
Proof.
  intros Hr. unfold LED.displayBinaryWithBlink.
  destruct (Z.ltb_spec (LED.result s) 0) as [Hneg | Hpos].
  - unfold int_neg. rewrite wrap16_small by lia.
    destruct (Z.gtb_spec (- LED.result s) 127) as [? | _]; [lia|].
    pose proof (led_blink_loop_shown (- LED.result s) ks ltac:(lia) 0 false s
                  ltac:(lia) Hneg) as Hb.
    pose proof (led_blink_loop_result (- LED.result s) ks 0 false s) as Hres.
    destruct (LED.blink_loop (- LED.result s) 0 false s ks)
      as [[] s1 ks1 | w1 s1]; [|exact Hb].
    cbn [outcome_state] in Hres.
    destruct (Z.geb_spec (LED.result s1) 0) as [? | _]; [lia | exact I].
  - destruct (Z.gtb_spec (LED.result s) 255) as [? | _]; [lia|].
    led_proj.
    destruct (Z.geb_spec (LED.result s) 0) as [_ | ?]; [|lia].
    assert (Hs : led_shown WResult
                   (LED.on_io (LED.displayBinary (LED.result s)) s)).
    { cbn [led_shown]. led_proj. split; [assumption|].
      unfold LED.displayBinary.
      destruct (Z.gtb_spec (LED.result s) 255) as [? | _]; [lia|].
      destruct (Z.ltb_spec (LED.result s) 0) as [? | _]; [lia|].
      rewrite last_latd_app. cbn [fold_left].
      rewrite uchar_small by lia. reflexivity. }
    apply led_wait_reset_shown; [exact Hs|]. intros k. exact Hs.
Qed.

Lemma led_displayResult_loop_shown (ks : list Z) :
  forall s : LED.State,
    LED.in_range s -> last_latd (LED.trace s) = Some 0x02 ->
    holds_at (fun _ _ => True) led_shown (LED.displayResult_loop s ks).
Proof.
  induction ks as [|k ks IH]; intros s Hs Hl; [exact Hl|].
  cbn [LED.displayResult_loop]. led_proj.
  destruct (uchar k =? 255).
  { apply IH; [|exact Hl]. led_in_range. intuition lia. }
  destruct (uchar k =? 15).
  - pose proof (led_doOperation_any_range (LED.num1 s) (LED.num2 s)
                  (LED.operator s) (LED.set_keyVal (uchar k) s)) as Hr.
    destruct (LED.doOperation (LED.num1 s) (LED.num2 s) (LED.operator s)
                (LED.set_keyVal (uchar k) s)) as [r s1].
    cbn [fst] in Hr. led_proj.
    assert (Hrange : -99 <= r <= 198)
      by (apply Hr; unfold LED.in_range in Hs; tauto).
    destruct ((r =? -1) && (LED.num2 s1 =? 0)).
    + apply led_wait_reset_shown.
      * cbn [led_shown]. led_latd.
      * intros k'. cbn [led_shown]. led_latd.
    + apply (led_show_shown (LED.out [LATD 0] (LED.set_result r s1)) ks).
      led_proj. exact Hrange.
  - destruct (uchar k =? 14); [exact I|].
    apply IH; [led_in_range; intuition lia | led_latd].
Qed.

Lemma led_cycle_shown (s : LED.State) (ks : list Z) :
  -99 <= LED.result s <= 198 ->
  holds_at (fun _ _ => True) led_shown (LED.cycle s ks).
Proof.
  intros Hr. unfold LED.cycle.
  pose proof (led_resetCalculator_in_range s Hr) as I0.
  assert (I0' : LED.in_range
                  (LED.out [LATD 0x00]
                     (LED.set_validInput false
                        (LED.set_num12 0
                           (LED.set_num11 0 (LED.resetCalculator s))))))
    by (clear - I0; led_in_range; intuition lia).
  pose proof (led_getNum1_first_in_range ks _ I0') as R1.
  pose proof (led_getNum1_first_shown ks
                (LED.out [LATD 0x00]
                   (LED.set_validInput false
                      (LED.set_num12 0
                         (LED.set_num11 0 (LED.resetCalculator s)))))
                ltac:(led_latd)) as H1.
  unfold LED.getNum1. cbv zeta.
  destruct (LED.getNum1_first _ ks) as [v1 s1 ks1 | w1 s1]; [|exact H1].
  clear H1 I0 I0'. cbn [holds] in R1. destruct R1 as [I1 V1]. led_proj.
  destruct (Z.eqb_spec v1 255) as [|E1]; [exact I|].
  assert (I2 : LED.in_range (LED.out [LATD 0x01] (LED.set_num1 v1 s1))).
  { clear - I1 V1 E1. led_in_range. intuition lia. }
  pose proof (led_getOperator_in_range _ ks1 I2) as R2.
  assert (H2 : holds_at (fun _ _ => True) led_shown
                 (LED.getOperator (LED.out [LATD 0x01] (LED.set_num1 v1 s1))
                    ks1)).
  { unfold LED.getOperator.
    destruct ((LED.operator _ >=? 10) && (LED.operator _ <=? 13));
      [exact I|].
    apply led_getOperator_loop_shown. led_latd. }
  destruct (LED.getOperator (LED.out [LATD 0x01] (LED.set_num1 v1 s1)) ks1)
    as [v2 s2 ks2 | w2 s2]; [|exact H2].
  clear H2 I1 I2 V1. cbn [holds] in R2. destruct R2 as [I3 V2]. led_proj.
  destruct (Z.eqb_spec v2 0) as [|E2]; [exact I|].
  assert (I4 : LED.in_range
                 (LED.out [LATD 0x02]
                    (LED.set_validInput false
                       (LED.set_num22 0
                          (LED.set_num21 0
                             (LED.out [LATD 0x04]
                                (LED.set_operator v2 s2))))))).
  { clear - I3 V2. led_in_range. intuition lia. }
  pose proof (led_getNum2_first_in_range ks2 _ I4) as R3.
  pose proof (led_getNum2_first_flag ks2
                (LED.out [LATD 0x02]
                   (LED.set_validInput false
                      (LED.set_num22 0
                         (LED.set_num21 0
                            (LED.out [LATD 0x04]
                               (LED.set_operator v2 s2))))))) as W3.
  pose proof (led_getNum2_first_shown ks2
                (LED.out [LATD 0x02]
                   (LED.set_validInput false
                      (LED.set_num22 0
                         (LED.set_num21 0
                            (LED.out [LATD 0x04]
                               (LED.set_operator v2 s2))))))
                ltac:(led_latd)) as H3.
  unfold LED.getNum2. cbv zeta.
  destruct (LED.getNum2_first _ ks2) as [v3 s3 ks3 | w3 s3]; [|exact H3].
  clear H3 I3 I4 V2. cbn [holds] in R3. destruct R3 as [I5 V3]. led_proj.
  destruct (Z.eqb_spec v3 255) as [|E3]; [exact I|].
  destruct W3 as [|W3]; [contradiction|].
  unfold LED.displayResult. led_proj. rewrite W3. cbn [negb].
  assert (I6 : LED.in_range (LED.out [LATD 0x02] (LED.set_num2 v3 s3))).
  { clear - I5 V3 E3. led_in_range. intuition lia. }
  pose proof (led_displayResult_loop_shown ks3 _ I6 ltac:(led_latd)) as H4.
  destruct (LED.displayResult_loop
              (LED.out [LATD 0x02] (LED.set_num2 v3 s3)) ks3)
    as [[] s4 ks4 | w4 s4]; [exact I | exact H4].
Qed.

Lemma led_main_loop_shown (fuel : nat) :
  forall (s : LED.State) (ks : list Z),
    -99 <= LED.result s <= 198 ->
    (length ks < fuel)%nat ->
    match LED.main_loop fuel s ks with
    | Some (w, s') => led_shown w s'
    | None => False
    end.
Proof.
  induction fuel as [|fuel IH]; intros s ks Hr Hlen; [lia|].
  cbn [LED.main_loop].
  pose proof (led_cycle_shown s ks Hr) as Hs.
  pose proof (led_cycle_in_range s ks Hr) as Hi.
  pose proof (led_cycle_consumed s ks) as Hc.
  destruct (LED.cycle s ks) as [[] s1 ks1 | w1 s1].
  - cbn [consumed holds] in *. apply IH; [assumption | lia].
  - exact Hs.
Qed.

(** X19: the LEDs of the LED program follow the entry.  Whatever keys have
    arrived, [main] is polling the keypad, and PORTD holds: 0x00 while the
    first digit of the first operand is awaited and 0x01 while its second
    digit is; 0x04 while the operator is awaited; 0x02 while a digit of the
    second operand or Confirm is awaited (the pattern 0x08 that
    [displayResult] blinks before its wait is never left on the port);
    0x00 after a division by zero; the result itself once a result that is
    not negative is shown; and the magnitude of a negative result, with or
    without bit 7, while it blinks. *)
Theorem led_display_follows_entry :
  forall ks : list Z,
    match LED.main ks with
    | Some (w, s) => led_shown w s
    | None => False
    end.
Proof.
  intros ks. unfold LED.main. apply led_main_loop_shown.
  - vm_compute. split; discriminate.
  - lia.
Qed.
(** * The 7-segment program: how an operator is shown *)

Lemma seg_showOperator_events (op ms : Z) (t : io) :
  SevenSeg.showOperator op ms t
  = t ++ [LATA 0; LATD (SevenSeg.encoded op); LATA 1; delay_ms ms;
          LATA 0; LATD (SevenSeg.encoded 0xB); LATA 2; delay_ms ms].
Proof.
  unfold SevenSeg.showOperator, SevenSeg.displayDigit.
  rewrite <- !app_assoc. reflexivity.
Qed.

Lemma iter_ext {A : Type} (f g : A -> A) (n : nat) (x : A) :
  (forall y, f y = g y) -> Nat.iter n f x = Nat.iter n g x.
Proof.
  intros H. induction n as [|n IH]; [reflexivity|].
  rewrite !Nat.iter_succ, IH. apply H.
Qed.

(** X21: how [getOperator] shows an operator.  When an operator key is
    pressed at the poll for the operator, [getOperator] returns its code
    after ten rounds, each of which draws the glyph of the operator on the
    left digit, then the glyph of code 0xB on the right digit, then the
    first operand.  The right digit is written with [displayDigit(11, ...)]:
    11 is the operator code 0xB for [encodeDigit], which therefore returns
    the second entry of [operatorPatterns], 0x1F, and not the blank twelfth
    entry of [digitPatterns]. *)
Theorem getOperator_shows_operator :
  forall (op storedNum1 : Z) (s : SevenSeg.State) (ks : list Z),
    is_operator op ->
    SevenSeg.encodeDigit 11 = nth_error SevenSeg.operatorPatterns 1 /\
    SevenSeg.encoded 11 = 0x1F /\
    nth_error SevenSeg.digitPatterns 11 = Some SevenSeg.PATTERN_BLANK /\
    exists s',
      SevenSeg.getOperator_loop storedNum1 s (op :: ks) = Ret op s' ks /\
      SevenSeg.currentDisplayValue s' = storedNum1 /\
      SevenSeg.trace s'
      = Nat.iter 10
          (fun t =>
             SevenSeg.displayNumber storedNum1
               (t ++ [LATA 0; LATD (SevenSeg.encoded op); LATA 1; delay_ms 5;
                      LATA 0; LATD 0x1F; LATA 2; delay_ms 5])
             ++ [delay_ms 5])
          (SevenSeg.trace
             (SevenSeg.scanKeypad
                (SevenSeg.out [delay_ms 5]
                   (SevenSeg.on_io (SevenSeg.displayNumber storedNum1) s))
                op)).
Proof.
  intros op storedNum1 s ks Hop.
  split; [reflexivity|]. split; [reflexivity|]. split; [reflexivity|].
  unfold is_operator in Hop. cbn [SevenSeg.getOperator_loop].
  rewrite seg_scanKeypad_keyVal, (uchar_small op) by lia.
  destruct (Z.eqb_spec op 255) as [? | _]; [lia|].
  destruct (Z.geb_spec op 10) as [_ | ?]; [|lia].
  destruct (Z.leb_spec op 13) as [_ | ?]; [|lia].
  cbn [andb]. seg_proj. rewrite seg_scanKeypad_keyVal, (uchar_small op) by lia.
  eexists. split; [reflexivity|]. seg_proj. split; [reflexivity|].
  unfold SevenSeg.showOperatorAndNum1.
  apply iter_ext. intros t. rewrite seg_showOperator_events. reflexivity.
Qed.

Lemma getOperator_shows_operator_witness :
  SevenSeg.encodeDigit 11 = nth_error SevenSeg.operatorPatterns 1 /\
  SevenSeg.encoded 11 = 0x1F /\
  nth_error SevenSeg.digitPatterns 11 = Some SevenSeg.PATTERN_BLANK /\
  exists s',
    SevenSeg.getOperator_loop 12 SevenSeg.power_on [0xA] = Ret 0xA s' [] /\
    SevenSeg.currentDisplayValue s' = 12 /\
    SevenSeg.trace s'
    = Nat.iter 10
        (fun t =>
           SevenSeg.displayNumber 12
             (t ++ [LATA 0; LATD (SevenSeg.encoded 0xA); LATA 1; delay_ms 5;
                    LATA 0; LATD 0x1F; LATA 2; delay_ms 5])
           ++ [delay_ms 5])
        (SevenSeg.trace
           (SevenSeg.scanKeypad
              (SevenSeg.out [delay_ms 5]
                 (SevenSeg.on_io (SevenSeg.displayNumber 12)
                    SevenSeg.power_on))
              0xA)).
Proof.
  apply (getOperator_shows_operator 0xA 12 SevenSeg.power_on []).
  unfold is_operator. lia.
Defined.
